(** * Hal.c of the MSP-EXP430F5438A platform: event dispatcher, serial
      transport, transport watchdog and periodic tick.

    The C functions of [Hal.c] are embedded as computations of a small
    state monad over the machine state: the memory-mapped registers the
    file touches, its four static variables, the state of the external
    message codec ([Em_Message_*], declared in [Em_Message.h]) and a log of
    the calls and pin writes the code performs, each entry carrying the
    machine state in which it happened.

    What lies outside the file is modelled as follows.
    - The codec is a parameter: each entry point maps the codec's state to
      its result and new state, and may call [Em_Hal_watchOn],
      [Em_Hal_watchOff] and [Em_Hal_reset] back.
    - A handler of the application, and the codec's [Em_Message_dispatch],
      are external functions: the dispatcher's call is logged, and the
      called function is taken to leave the variables and registers of
      this file as they are.
    - The hardware is modelled twice.  In runs that keep [GIE] set a
      request is served at once ([hw_step]).  Where the code masks
      interrupts a request is a flag that the hardware latches ([latch])
      and that waits until the flag, its enable bit and [GIE] are all set
      ([serve]).
    - No time passes in a routine: the timer moves only with the input
      [InTick].  Statements that count ticks are for runs in which no
      routine busy-waits.
    [Hal_init], whose oscillator loop depends on the hardware, and the
    trap for unused vectors are not embedded. *)

From Stdlib Require Import ZArith Lia List Bool Sorted.
From stdpp Require Import base list.
Import ListNotations.
Local Open Scope Z_scope.

(** ** Machine integers *)

Definition wrap8 (z : Z) : Z := z mod 2 ^ 8.
Definition wrap16 (z : Z) : Z := z mod 2 ^ 16.

(** ** Constants of the device header [msp430.h]

    The header is not part of the sources; the values are those of the
    MSP430F5438A (SLAU208: status register, Timer_A, USCI). *)

Definition BIT0 : Z := 0x01.
Definition BIT1 : Z := 0x02.
Definition BIT2 : Z := 0x04.
Definition BIT3 : Z := 0x08.
Definition BIT6 : Z := 0x40.
Definition GIE : Z := 0x0008.
Definition CPUOFF : Z := 0x0010.
Definition SCG0 : Z := 0x0040.
Definition SCG1 : Z := 0x0080.
Definition LPM3_bits : Z := SCG1 + SCG0 + CPUOFF.
Definition CCIE : Z := 0x0010.
Definition UCRXIFG : Z := 0x01.
Definition UCTXIFG : Z := 0x02.
Definition UCRXIE : Z := 0x01.
Definition UCTXIE : Z := 0x02.

(** ** Constants of [Hal.c] *)

Definition MCLK_TICKS_PER_MS : Z := 1000.
Definition ACLK_TICKS_PER_SECOND : Z := 32768.
(** [UART_WATCHDOG_PERIOD] is [(ACLK_TICKS_PER_SECOND * 250) / 1000],
    evaluated in [long] arithmetic. *)
Definition UART_WATCHDOG_PERIOD : Z := Z.quot (ACLK_TICKS_PER_SECOND * 250) 1000.
Definition BUTTON_DEBOUNCE_MSECS : Z := 100.

Definition NUM_HANDLERS : Z := 3.
Definition BUTTON_HANDLER_ID : Z := 0.
Definition TICK_HANDLER_ID : Z := 1.
Definition DISPATCH_HANDLER_ID : Z := 2.

(** ** Registers *)

(** The special-function registers read or written by the embedded
    functions.  [IRQ_SR] is not a register of its own: it is the copy of
    [SR] that the hardware pushes on the stack when an interrupt is
    accepted, which [WAKEUP()] edits and [RETI] pops. *)
Inductive Reg : Type :=
| SR | IRQ_SR
| TA1R | TA1CCR0 | TA1CCTL0 | TA1CCR1 | TA1CCTL1
| P1OUT | P1IFG
| P2IN | P2DIR | P2REN | P2OUT | P2IES | P2IFG | P2IE
| UCA2IFG | UCA2IE | UCA2RXBUF | UCA2TXBUF.

Definition Reg_eq_dec (a b : Reg) : {a = b} + {a <> b}.
Proof. decide equality. Defined.

(** Port and USCI registers are bytes, the others 16-bit words. *)
Definition is_byte (r : Reg) : bool :=
  match r with
  | P1OUT | P1IFG | P2IN | P2DIR | P2REN | P2OUT | P2IES | P2IFG | P2IE
  | UCA2IFG | UCA2IE | UCA2RXBUF | UCA2TXBUF => true
  | _ => false
  end.

Definition trunc (r : Reg) (v : Z) : Z :=
  if is_byte r then wrap8 v else wrap16 v.

Definition RegFile : Type := Reg -> Z.

Definition rf_write (r : Reg) (v : Z) (f : RegFile) : RegFile :=
  fun r' => if Reg_eq_dec r r' then trunc r v else f r'.

(** ** Handlers, the static variables and the machine *)

(** A [Hal_Handler] is a pointer to a [void (void)] function: the file's own
    [buttonHandler], the codec's [Em_Message_dispatch], or a function of the
    application.  The null pointer is [None]. *)
Inductive Handler : Type :=
| fn_buttonHandler
| fn_Em_Message_dispatch
| fn_app (n : nat).

Record Hal : Type := mkHal {
  regs : RegFile;
  appButtonHandler : option Handler;
  handlerEvents : Z;
  clockTick : Z;
  handlerTab : list (option Handler)
}.

Definition set_regs (v : RegFile) (h : Hal) : Hal :=
  mkHal v (appButtonHandler h) (handlerEvents h) (clockTick h) (handlerTab h).
Definition set_appButtonHandler (v : option Handler) (h : Hal) : Hal :=
  mkHal (regs h) v (handlerEvents h) (clockTick h) (handlerTab h).
Definition set_handlerEvents (v : Z) (h : Hal) : Hal :=
  mkHal (regs h) (appButtonHandler h) v (clockTick h) (handlerTab h).
Definition set_clockTick (v : Z) (h : Hal) : Hal :=
  mkHal (regs h) (appButtonHandler h) (handlerEvents h) v (handlerTab h).
Definition set_handlerTab (v : list (option Handler)) (h : Hal) : Hal :=
  mkHal (regs h) (appButtonHandler h) (handlerEvents h) (clockTick h) v.

(** What the code does that is visible from outside the file. *)
Inductive Event : Type :=
| EvHandler (id : Z) (h : Handler)   (* handlerTab[id]() *)
| EvAppButton (h : Handler)          (* appButtonHandler() *)
| EvPost (id : Z)                    (* postEvent(id) *)
| EvDelayCycles (n : Z)              (* __delay_cycles(n) *)
| EvStartRx                          (* Em_Message_startRx() *)
| EvAddByte (b : Z)                  (* Em_Message_addByte(b) *)
| EvGetByte                          (* Em_Message_getByte(&b) *)
| EvStartTx                          (* Em_Message_startTx() *)
| EvRestart                          (* Em_Message_restart() *)
| EvRxAck (level : bool)             (* EAP_RX_ACK_SET() / EAP_RX_ACK_CLR() *)
| EvTxBuf (b : Z)                    (* EAP_TX_BUF = b *)
| EvSleep                            (* SLEEP() *)
| EvWakeup.                          (* WAKEUP() *)

Definition Event_eq_dec (a b : Event) : {a = b} + {a <> b}.
Proof. repeat decide equality. Defined.

(** A log entry: the state of the HAL when the event happened, and the
    event. *)
Definition Obs : Type := (Hal * Event)%type.

(** The functions of the SRT-HAL interface that the codec may call while it
    serves one of its own entry points. *)
Inductive SrtCall : Type := CallWatchOn | CallWatchOff | CallReset.

(** The codec of [Em_Message.h], which is not part of this file: each entry
    point maps the codec's state to its result, the new state and the
    SRT-HAL calls it made. *)
Class Codec (C : Type) : Type := {
  Em_Message_startRx : C -> unit * C * list SrtCall;
  Em_Message_addByte : Z -> C -> bool * C * list SrtCall;
  Em_Message_getByte : C -> option Z * C * list SrtCall;
  Em_Message_startTx : C -> Z * C * list SrtCall;
  Em_Message_restart : C -> unit * C * list SrtCall
}.

Record Machine (C : Type) : Type := mkMachine {
  hal : Hal;
  codec : C;
  log : list Obs
}.
Arguments mkMachine {C}.
Arguments hal {C}.
Arguments codec {C}.
Arguments log {C}.

(** ** The state monad *)

Definition M (C A : Type) : Type := Machine C -> A * Machine C.

Definition ret {C A} (a : A) : M C A := fun m => (a, m).
Definition bind {C A B} (c : M C A) (k : A -> M C B) : M C B :=
  fun m => let (a, m') := c m in k a m'.

Declare Scope hal_scope.
Delimit Scope hal_scope with hal.
Notation "x <- c ;; k" := (bind c (fun x => k))
  (at level 100, c at next level, right associativity) : hal_scope.
Notation "c ;; k" := (bind c (fun _ => k))
  (at level 100, right associativity) : hal_scope.
Local Open Scope hal_scope.

Definition exec {C A} (c : M C A) (m : Machine C) : Machine C := snd (c m).
Definition eval {C A} (c : M C A) (m : Machine C) : A := fst (c m).

Section Hal.
Context {C : Type} `{Codec C}.

Definition gets {A} (f : Hal -> A) : M C A := fun m => (f (hal m), m).
Definition modify (f : Hal -> Hal) : M C unit :=
  fun m => (tt, mkMachine (f (hal m)) (codec m) (log m)).
Definition emit (e : Event) : M C unit :=
  fun m => (tt, mkMachine (hal m) (codec m) (log m ++ [(hal m, e)])).

Definition rd (r : Reg) : M C Z := gets (fun h => regs h r).
Definition wr (r : Reg) (v : Z) : M C unit :=
  modify (fun h => set_regs (rf_write r v (regs h)) h).
(** [r |= bits] and [r &= ~bits]. *)
Definition bis (r : Reg) (bits : Z) : M C unit :=
  v <- rd r ;; wr r (Z.lor v bits).
Definition bic (r : Reg) (bits : Z) : M C unit :=
  v <- rd r ;; wr r (Z.land v (Z.lnot bits)).

Definition when (b : bool) (c : M C unit) : M C unit :=
  if b then c else ret tt.

(** *** Intrinsics and macros *)

Definition DINT : M C unit := bic SR GIE.
Definition EINT : M C unit := bis SR GIE.
(** [SLEEP()] sets the low-power bits and [GIE] in one instruction; the
    processor then halts until an interrupt is accepted. *)
Definition SLEEP : M C unit := bis SR (LPM3_bits + GIE) ;; emit EvSleep.
(** [WAKEUP()] clears the low-power bits in the stacked copy of [SR]. *)
Definition WAKEUP : M C unit := bic IRQ_SR LPM3_bits ;; emit EvWakeup.
Definition delay_cycles (n : Z) : M C unit := emit (EvDelayCycles n).

Definition BUTTON_CONFIG : M C unit :=
  bic P2DIR BIT6 ;; bis P2REN BIT6 ;; bis P2OUT BIT6 ;; bis P2IES BIT6.
(** [(P2IFG &= ~BIT6, P2IE |= BIT6)]: [env] acts between the two. *)
Definition BUTTON_ENABLE_with (env : M C unit) : M C unit :=
  bic P2IFG BIT6 ;; env ;; bis P2IE BIT6.
Definition BUTTON_ENABLE : M C unit := BUTTON_ENABLE_with (ret tt).
Definition BUTTON_PRESSED : M C bool :=
  v <- rd P2IN ;; ret (Z.land v BIT6 =? 0).

Definition EAP_RX_ACK_SET : M C unit := bis P1OUT BIT3 ;; emit (EvRxAck true).
Definition EAP_RX_ACK_CLR : M C unit := bic P1OUT BIT3 ;; emit (EvRxAck false).
Definition EAP_TX_ACK_TST : M C bool :=
  v <- rd P1IFG ;; ret (negb (Z.land v BIT2 =? 0)).
Definition EAP_TX_ACK_CLR : M C unit := bic P1IFG BIT2.
Definition EAP_RX_INT_CLR : M C unit := bic UCA2IFG UCRXIFG.
Definition EAP_RX_INT_ENABLE : M C unit := bis UCA2IE UCRXIE.
Definition EAP_TX_INT_CLR : M C unit := bic UCA2IFG UCTXIFG.
Definition EAP_TX_BUF_write (b : Z) : M C unit :=
  wr UCA2TXBUF b ;; emit (EvTxBuf (wrap8 b)).

Definition UART_WATCH_DISABLE : M C unit := wr TA1CCTL1 0.
Definition UART_WATCH_ENABLE : M C unit :=
  t <- rd TA1R ;; wr TA1CCR1 (t + UART_WATCHDOG_PERIOD) ;; wr TA1CCTL1 CCIE.

(** *** APP-HAL and SRT-HAL interface *)

(** [while (msecs--) __delay_cycles(MCLK_TICKS_PER_MS);] *)
Fixpoint Hal_delay_loop (msecs : nat) : M C unit :=
  match msecs with
  | O => ret tt
  | S n => delay_cycles MCLK_TICKS_PER_MS ;; Hal_delay_loop n
  end.
Definition Hal_delay (msecs : Z) : M C unit :=
  Hal_delay_loop (Z.to_nat (wrap16 msecs)).

(** The [__GNUC__] branches: [key = READ_SR & 0x8] before
    [__disable_interrupt()], and [bis key, r2]. *)
Definition Em_Hal_lock : M C Z :=
  sr <- rd SR ;; DINT ;; ret (wrap8 (Z.land sr 0x8)).
Definition Em_Hal_unlock (key : Z) : M C unit := bis SR key.

(** Where a property depends on what the hardware does between two
    statements, the function takes the environment as a parameter: [env k]
    acts after the statement numbered [k].  The function itself is the one
    with the environment that does nothing. *)
Definition idle : nat -> M C unit := fun _ => ret tt.

Definition Em_Hal_reset_with (env : nat -> M C unit) : M C unit :=
  key <- Em_Hal_lock ;;     env 0%nat ;;
  EAP_RX_ACK_CLR ;;         env 1%nat ;;
  Hal_delay 100 ;;          env 2%nat ;;
  EAP_RX_ACK_SET ;;         env 3%nat ;;
  Hal_delay 500 ;;          env 4%nat ;;
  EAP_RX_INT_CLR ;;         env 5%nat ;;
  EAP_TX_INT_CLR ;;         env 6%nat ;;
  EAP_TX_ACK_CLR ;;         env 7%nat ;;
  EAP_RX_INT_ENABLE ;;      env 8%nat ;;
  Em_Hal_unlock key.

Definition Em_Hal_reset : M C unit := Em_Hal_reset_with idle.

Definition Em_Hal_watchOff : M C unit := UART_WATCH_DISABLE.
Definition Em_Hal_watchOn : M C unit := UART_WATCH_ENABLE.

(** *** Calls into the codec *)

Definition srt_call (c : SrtCall) : M C unit :=
  match c with
  | CallWatchOn => Em_Hal_watchOn
  | CallWatchOff => Em_Hal_watchOff
  | CallReset => Em_Hal_reset
  end.

Fixpoint srt_calls (cs : list SrtCall) : M C unit :=
  match cs with
  | [] => ret tt
  | c :: cs' => srt_call c ;; srt_calls cs'
  end.

(** A call of a codec entry point: it is logged, the codec's state is
    advanced, and the SRT-HAL calls the codec made run before it returns. *)
Definition extern {A} (e : Event) (f : C -> A * C * list SrtCall) : M C A :=
  emit e ;;
  (fun m =>
     let r := f (codec m) in
     (fst (fst r), exec (srt_calls (snd r)) (mkMachine (hal m) (snd (fst r)) (log m)))).

Definition Em_Hal_startSend : M C unit :=
  b <- extern EvStartTx Em_Message_startTx ;; EAP_TX_BUF_write b.

Definition Hal_buttonEnable_with (env : nat -> M C unit) (handler : option Handler)
    : M C unit :=
  modify (fun h => set_handlerTab
            (<[Z.to_nat BUTTON_HANDLER_ID := Some fn_buttonHandler]> (handlerTab h)) h) ;;
  modify (set_appButtonHandler handler) ;;
  BUTTON_CONFIG ;;          env 0%nat ;;
  Hal_delay 100 ;;          env 1%nat ;;
  BUTTON_ENABLE_with (env 2%nat).

Definition Hal_buttonEnable (handler : option Handler) : M C unit :=
  Hal_buttonEnable_with idle handler.

(** [ACLK_TICKS_PER_SECOND * msecs] is a [long] product: at most
    [32768 * 65535], which fits 31 bits. *)
Definition Hal_tickStart (msecs : Z) (handler : option Handler) : M C unit :=
  modify (fun h => set_handlerTab
            (<[Z.to_nat TICK_HANDLER_ID := handler]> (handlerTab h)) h) ;;
  modify (set_clockTick (wrap16 (Z.quot (ACLK_TICKS_PER_SECOND * wrap16 msecs) 1000))) ;;
  t <- rd TA1R ;;
  p <- gets clockTick ;;
  wr TA1CCR0 (t + p) ;;
  wr TA1CCTL0 CCIE.

(** *** Internal functions *)

Definition buttonHandler : M C unit :=
  Hal_delay 100 ;;
  pressed <- BUTTON_PRESSED ;;
  app <- gets appButtonHandler ;;
  match pressed, app with
  | true, Some f => emit (EvAppButton f)
  | _, _ => ret tt
  end.

(** [handlerEvents |= 1 << handlerId], between lock and unlock.  The shift
    is an [int] shift, defined for [handlerId < 15]. *)
Definition postEvent (handlerId : Z) : M C unit :=
  emit (EvPost handlerId) ;;
  key <- Em_Hal_lock ;;
  ev <- gets handlerEvents ;;
  modify (set_handlerEvents (wrap16 (Z.lor ev (Z.shiftl 1 handlerId)))) ;;
  Em_Hal_unlock key.

(** *** The idle loop *)

(** [handlerTab[id]()]: the call is logged; [buttonHandler] is the only
    handler whose body is in this file, the others are external. *)
Definition call_handler (id : Z) (f : Handler) : M C unit :=
  emit (EvHandler id f) ;;
  match f with
  | fn_buttonHandler => buttonHandler
  | _ => ret tt
  end.

(** The [for] loop of [Hal_idleLoop], entered with [id = 0], [mask = 1].
    The result tells whether the loop left through its test
    [id < NUM_HANDLERS] ([true]) or the fuel ran out ([false]). *)
Fixpoint dispatch_loop (fuel : nat) (id mask events : Z) : M C bool :=
  match fuel with
  | O => ret false
  | S fuel' =>
      if id <? NUM_HANDLERS then
        tab <- gets handlerTab ;;
        match negb (Z.land events mask =? 0), tab !! Z.to_nat id with
        | true, Some (Some f) => call_handler id f
        | _, _ => ret tt
        end ;;
        dispatch_loop fuel' (wrap8 (id + 1)) (wrap16 (Z.shiftl mask 1)) events
      else ret true
  end.

Definition dispatch_fuel : nat := 4.

(** The head of one iteration: [DINT(); events = handlerEvents;
    handlerEvents = 0;]. *)
Definition drain_enter : M C Z :=
  DINT ;;
  events <- gets handlerEvents ;;
  modify (set_handlerEvents 0) ;;
  ret events.

(** The rest of the iteration: [if (events) { EINT(); for ... } else
    SLEEP();].  [EINT()] and [SLEEP()] set [GIE]: [served] is what the
    hardware does at that point.  (After [EINT()] the device executes one
    more instruction before it accepts a request; here that instruction
    belongs to the initialisation of the [for] statement and touches
    neither the mask nor a register of the model.) *)
Definition drain_rest_with (served : M C unit) (events : Z) : M C unit :=
  if negb (events =? 0) then
    EINT ;; served ;;
    _ <- dispatch_loop dispatch_fuel 0 1 events ;;
    ret tt
  else SLEEP ;; served.

Definition drain_rest (events : Z) : M C unit := drain_rest_with (ret tt) events.

(** One iteration of the [for (;;)] of [Hal_idleLoop]. *)
Definition Hal_idleLoop_body : M C unit :=
  events <- drain_enter ;; drain_rest events.


(** *** Interrupt service routines *)

Definition buttonIsr : M C unit :=
  postEvent BUTTON_HANDLER_ID ;;
  BUTTON_ENABLE ;;
  WAKEUP.

(** [UCA2IV] is the value the routine reads from the interrupt vector
    register: 2 for a received byte. *)
Definition rxIsr (UCA2IV : Z) : M C unit :=
  if UCA2IV =? 2 then
    b <- rd UCA2RXBUF ;;
    extern EvStartRx Em_Message_startRx ;;
    EAP_RX_ACK_CLR ;;
    EAP_RX_ACK_SET ;;
    complete <- extern (EvAddByte b) (Em_Message_addByte b) ;;
    when complete (postEvent DISPATCH_HANDLER_ID) ;;
    WAKEUP
  else ret tt.

Definition timerIsr : M C unit :=
  d <- rd TA1CCR0 ;;
  p <- gets clockTick ;;
  wr TA1CCR0 (d + p) ;;
  postEvent TICK_HANDLER_ID ;;
  WAKEUP.

Definition txAckIsr : M C unit :=
  tst <- EAP_TX_ACK_TST ;;
  when tst (
    b <- extern EvGetByte Em_Message_getByte ;;
    match b with
    | Some b => EAP_TX_BUF_write b
    | None => ret tt
    end ;;
    EAP_TX_ACK_CLR) ;;
  WAKEUP.

(** [TA1IV] is the value read from the timer's interrupt vector register:
    2 for capture/compare register 1. *)
Definition uartWatchdogIsr (TA1IV : Z) : M C unit :=
  if TA1IV =? 2 then
    UART_WATCH_DISABLE ;;
    extern EvRestart Em_Message_restart ;;
    WAKEUP
  else ret tt.

(** ** The hardware around the code *)

(** Acceptance of an interrupt request (SLAU208, 1.3.4): with [GIE] set the
    processor stacks [SR], clears it, runs the routine and pops [SR] on
    return; with [GIE] clear nothing runs.  A request that waits is
    followed by [latch] and [serve] below. *)
Definition irq_entry (sr : Z) : M C unit := wr IRQ_SR sr ;; wr SR 0.
Definition RETI : M C unit := sr <- rd IRQ_SR ;; wr SR sr.

Definition interrupt (isr : M C unit) : M C unit :=
  sr <- rd SR ;;
  if Z.land sr GIE =? 0 then ret tt
  else irq_entry sr ;; isr ;; RETI.

Inductive Input : Type :=
| InTick               (* one period of ACLK *)
| InTxAck              (* an edge on EAP_TX_ACK (P1.2) *)
| InRx (b : Z)         (* a byte arrives on the UART *)
| InButton.            (* an edge on the button (P2.6) *)

Definition enabled (ctl : Reg) (bit : Z) : M C bool :=
  v <- rd ctl ;; ret (negb (Z.land v bit =? 0)).

(** Timer A1 counts up in continuous mode; the result is the new count. *)
Definition timer_count : M C Z :=
  t <- rd TA1R ;; wr TA1R (t + 1) ;; rd TA1R.

(** A capture/compare block requests its interrupt when the count [t]
    reaches the compare register and [CCIE] is set. *)
Definition compare (ccr ctl : Reg) (t : Z) (isr : M C unit) : M C unit :=
  d <- rd ccr ;;
  e <- enabled ctl CCIE ;;
  when (e && (t =? d)) (interrupt isr).

(** One input of the environment, served at once.  The compare of
    [TA1CCR0] has the higher priority of the two timer interrupts; the
    interrupt of [EAP_TX_ACK] is enabled once, in [Hal_init], and never
    disabled. *)
Definition hw_step (i : Input) : M C unit :=
  match i with
  | InTick =>
      t <- timer_count ;;
      compare TA1CCR0 TA1CCTL0 t timerIsr ;;
      compare TA1CCR1 TA1CCTL1 t (uartWatchdogIsr 2)
  | InTxAck =>
      bis P1IFG BIT2 ;;
      interrupt txAckIsr
  | InRx b =>
      wr UCA2RXBUF b ;;
      e <- enabled UCA2IE UCRXIE ;;
      when e (interrupt (rxIsr 2))
  | InButton =>
      bis P2IFG BIT6 ;;
      e <- enabled P2IE BIT6 ;;
      when e (interrupt buttonIsr)
  end.

Fixpoint hw_run (ins : list Input) : M C unit :=
  match ins with
  | [] => ret tt
  | i :: ins' => hw_step i ;; hw_run ins'
  end.

End Hal.

(** ** Runs used in the statements *)

Section Runs.
Context {C : Type} `{Codec C}.

(** A sequence of [postEvent] calls. *)
Fixpoint post_all (ids : list Z) : M C unit :=
  match ids with
  | [] => ret tt
  | id :: ids' => postEvent id ;; post_all ids'
  end.

(** Successive expiries of the tick: the [k]-th routine starts when the
    timer has moved on by [lat_k] since the previous one returned; the
    result lists the deadline each routine leaves in [TA1CCR0]. *)
Fixpoint tick_deadlines (lat : list Z) : M C (list Z) :=
  match lat with
  | [] => ret []
  | d :: lat' =>
      t <- rd TA1R ;;
      wr TA1R (t + d) ;;
      timerIsr ;;
      x <- rd TA1CCR0 ;;
      xs <- tick_deadlines lat' ;;
      ret (x :: xs)
  end.

(** The state in which the handlers of a drain run: after [DINT()], the
    read, the clear and [EINT()]. *)
Definition drain_state (m : Machine C) : Machine C :=
  exec EINT (exec drain_enter m).

End Runs.

(** ** Reading the log *)

Definition events_of (l : list Obs) : list Event := map snd l.

Definition is_call (id : Z) (o : Obs) : bool :=
  match snd o with
  | EvHandler i _ => i =? id
  | _ => false
  end.

(** How often the dispatcher called the handler of slot [id]. *)
Definition calls (id : Z) (l : list Obs) : nat :=
  length (List.filter (is_call id) l).

(** The dispatcher's calls, in the order in which they were made. *)
Fixpoint invocations (l : list Obs) : list (Z * Handler) :=
  match l with
  | [] => []
  | (_, EvHandler i f) :: l' => (i, f) :: invocations l'
  | _ :: l' => invocations l'
  end.

Definition is_event (e : Event) (o : Obs) : bool :=
  if Event_eq_dec (snd o) e then true else false.

Definition occurrences (e : Event) (l : list Obs) : nat :=
  length (List.filter (is_event e) l).

Definition is_tick (i : Input) : bool :=
  match i with InTick => true | _ => false end.

Definition ticks (ins : list Input) : Z :=
  Z.of_nat (length (List.filter is_tick ins)).

(** [m] with [l] appended to its log. *)
Definition logged {C} (l : list Obs) (m : Machine C) : Machine C :=
  mkMachine (hal m) (codec m) (log m ++ l).

(** What [c] appends to the log when it runs from [m]. *)
Definition trace {C A} (c : M C A) (m : Machine C) : list Obs :=
  drop (length (log m)) (log (exec c m)).

(** Interrupts are masked in the state [h]. *)
Definition masked (h : Hal) : Prop := Z.land (regs h SR) GIE = 0.

(** The codec calls no function of the SRT-HAL interface. *)
Definition silent (C : Type) `{Codec C} : Prop :=
  forall (c : C) (b : Z),
    snd (Em_Message_startRx c) = [] /\ snd (Em_Message_addByte b c) = []
    /\ snd (Em_Message_getByte c) = [] /\ snd (Em_Message_startTx c) = []
    /\ snd (Em_Message_restart c) = [].

(** [a] and [b] agree on the watchdog's registers, the timer and [GIE]. *)
Definition same_watch (a b : Hal) : Prop :=
  regs a TA1CCTL1 = regs b TA1CCTL1 /\ regs a TA1CCR1 = regs b TA1CCR1
  /\ regs a TA1R = regs b TA1R
  /\ Z.land (regs a SR) GIE = Z.land (regs b SR) GIE.

(** The watchdog was armed at timer value [t0], [k] ticks ago, and
    interrupts are enabled. *)
Definition armed (t0 k : Z) (h : Hal) : Prop :=
  regs h TA1CCTL1 = CCIE
  /\ regs h TA1CCR1 = wrap16 (t0 + UART_WATCHDOG_PERIOD)
  /\ wrap16 (regs h TA1R) = wrap16 (t0 + k)
  /\ Z.land (regs h SR) GIE = GIE.

(** The watchdog's interrupt is off, and interrupts are enabled. *)
Definition disarmed (h : Hal) : Prop :=
  regs h TA1CCTL1 = 0 /\ Z.land (regs h SR) GIE = GIE.

(** [c] run from [m] logs no restart and leaves the watchdog alone. *)
Definition quiet {C A} (c : M C A) (m : Machine C) : Prop :=
  exists h cc L,
    exec c m = mkMachine h cc (log m ++ L)
    /\ occurrences EvRestart L = 0%nat
    /\ same_watch h (hal m).

(** An edge on [EAP_TX_ACK] is among the inputs. *)
Definition has_ack (ins : list Input) : bool :=
  existsb (fun i => match i with InTxAck => true | _ => false end) ins.

(** The events that the functions of the SRT-HAL interface log. *)
Definition srt_event (e : Event) : Prop :=
  match e with
  | EvDelayCycles _ | EvRxAck _ => True
  | _ => False
  end.

(** What one slot contributes to a drain whose snapshot is [events], read
    off the state [h] in which the handlers run: nothing when its bit is
    clear or no handler is bound, else the call and what the called
    function logs. *)
Definition button_run (h : Hal) : list Event :=
  repeat (EvDelayCycles MCLK_TICKS_PER_MS) 100 ++
  match Z.land (regs h P2IN) BIT6 =? 0, appButtonHandler h with
  | true, Some f => [EvAppButton f]
  | _, _ => []
  end.

Definition handler_run (h : Hal) (id : Z) (f : Handler) : list Event :=
  EvHandler id f ::
  match f with
  | fn_buttonHandler => button_run h
  | _ => []
  end.

Definition slot_run (h : Hal) (events id : Z) : list Event :=
  if Z.testbit events id then
    match handlerTab h !! Z.to_nat id with
    | Some (Some f) => handler_run h id f
    | _ => []
    end
  else [].

(** The bound handler of a slot whose bit is set in [events]. *)
Definition slot_call (h : Hal) (events id : Z) : list (Z * Handler) :=
  if Z.testbit events id then
    match handlerTab h !! Z.to_nat id with
    | Some (Some f) => [(id, f)]
    | _ => []
    end
  else [].

(** The events [es], all logged in the state [h]. *)
Definition stamp (h : Hal) (es : list Event) : list Obs := map (pair h) es.

(** What a drain with snapshot [events] logs, and the calls it makes. *)
Definition drain_run (h : Hal) (events : Z) : list Event :=
  slot_run h events 0 ++ slot_run h events 1 ++ slot_run h events 2.

Definition drain_calls (h : Hal) (events : Z) : list (Z * Handler) :=
  slot_call h events 0 ++ slot_call h events 1 ++ slot_call h events 2.

(** ** A codec without traffic, and the machine after reset *)

(** A codec that has nothing to send, never completes a frame and calls
    nothing back. *)
#[export] Instance quiet_codec : Codec unit := {
  Em_Message_startRx := fun c => (tt, c, []);
  Em_Message_addByte := fun _ c => (false, c, []);
  Em_Message_getByte := fun c => (None, c, []);
  Em_Message_startTx := fun c => (0, c, []);
  Em_Message_restart := fun c => (tt, c, [])
}.

(** All registers and variables zero, no handler bound, interrupts
    enabled. *)
Definition hal_boot : Hal :=
  mkHal (fun r => match r with SR => GIE | _ => 0 end) None 0 0 [None; None; None].

Definition boot : Machine unit := mkMachine hal_boot tt [].

(** The same with the three slots bound: the button handler with an
    application function behind it, an application tick handler, and the
    codec's dispatch function. *)
Definition hal_ready : Hal :=
  mkHal (regs hal_boot) (Some (fn_app 0)) 0 0
    [Some fn_buttonHandler; Some (fn_app 1); Some fn_Em_Message_dispatch].

Definition ready : Machine unit := mkMachine hal_ready tt [].

(** ** The LEDs *)

Section Leds.
Context {C : Type} `{Codec C}.

Definition Hal_connected : M C unit := bis P1OUT BIT0.
Definition Hal_disconnected : M C unit := bic P1OUT BIT0.
Definition Hal_ledOn : M C unit := bis P1OUT BIT1.
Definition Hal_ledOff : M C unit := bic P1OUT BIT1.
(** [return LED_READ();], converted to [bool]. *)
Definition Hal_ledRead : M C bool :=
  v <- rd P1OUT ;; ret (negb (Z.land v BIT1 =? 0)).
Definition Hal_ledToggle : M C unit :=
  v <- rd P1OUT ;; wr P1OUT (Z.lxor v BIT1).

End Leds.

(** ** More readings of the log *)

(** The registers that the functions of the SRT-HAL interface write. *)
Definition srt_touched (r : Reg) : bool :=
  match r with
  | SR | P1OUT | P1IFG | UCA2IFG | UCA2IE | TA1CCR1 | TA1CCTL1 => true
  | _ => false
  end.

(** What calls of the SRT-HAL interface keep, from [b] to [a]. *)
Definition srt_frame (a b : Hal) : Prop :=
  (forall r, srt_touched r = false -> regs a r = regs b r)
  /\ wrap16 (regs a SR) = wrap16 (regs b SR)
  /\ (forall k, 0 <= k < 8 -> k <> 3 ->
        Z.testbit (regs a P1OUT) k = Z.testbit (regs b P1OUT) k)
  /\ (Z.testbit (regs b P1OUT) 3 = true -> Z.testbit (regs a P1OUT) 3 = true)
  /\ (Z.testbit (regs b UCA2IE) 0 = true -> Z.testbit (regs a UCA2IE) 0 = true)
  /\ appButtonHandler a = appButtonHandler b
  /\ handlerEvents a = handlerEvents b
  /\ clockTick a = clockTick b
  /\ handlerTab a = handlerTab b.

(** The cycles spent in [__delay_cycles]. *)
Definition busy_cycles (l : list Obs) : Z :=
  fold_right (fun o acc => match snd o with
                           | EvDelayCycles n => n + acc
                           | _ => acc
                           end) 0 l.

(** The bytes written to [EAP_TX_BUF], and those given to
    [Em_Message_addByte], in order. *)
Definition tx_writes (l : list Obs) : list Z :=
  flat_map (fun o => match snd o with EvTxBuf b => [b] | _ => [] end) l.

Definition added_bytes (l : list Obs) : list Z :=
  flat_map (fun o => match snd o with EvAddByte b => [b] | _ => [] end) l.

(** ** The interrupt vectors of the file *)

Inductive Vector : Type :=
| PORT2_VECTOR                   (* buttonIsr *)
| USCI_A2_VECTOR (UCA2IV : Z)    (* rxIsr *)
| TIMER1_A0_VECTOR               (* timerIsr *)
| PORT1_VECTOR                   (* txAckIsr *)
| TIMER1_A1_VECTOR (TA1IV : Z).  (* uartWatchdogIsr *)

(** The vectors whose routine reaches [WAKEUP()]. *)
Definition wakes (v : Vector) : bool :=
  match v with
  | USCI_A2_VECTOR iv => iv =? 2
  | TIMER1_A1_VECTOR iv => iv =? 2
  | _ => true
  end.

Section Routines.
Context {C : Type} `{Codec C}.

Definition routine (v : Vector) : M C unit :=
  match v with
  | PORT2_VECTOR => buttonIsr
  | USCI_A2_VECTOR iv => rxIsr iv
  | TIMER1_A0_VECTOR => timerIsr
  | PORT1_VECTOR => txAckIsr
  | TIMER1_A1_VECTOR iv => uartWatchdogIsr iv
  end.

(** What [n] successive calls of [Em_Message_getByte] supply, from the
    codec state [c]. *)
Fixpoint tx_bytes (n : nat) (c : C) : list Z :=
  match n with
  | O => []
  | S n' =>
      let r := Em_Message_getByte c in
      match fst (fst r) with
      | Some b => [wrap8 b]
      | None => []
      end ++ tx_bytes n' (snd (fst r))
  end.

(** What [Em_Message_addByte] answers for each of the bytes [bs], each
    preceded by a call of [Em_Message_startRx], from the codec state [c]. *)
Fixpoint rx_flags (bs : list Z) (c : C) : list bool :=
  match bs with
  | [] => []
  | b :: bs' =>
      let c1 := snd (fst (Em_Message_startRx c)) in
      let r := Em_Message_addByte (wrap8 b) c1 in
      fst (fst r) :: rx_flags bs' (snd (fst r))
  end.

End Routines.

(** ** The debug pins

    [P4OUT] is the only state the three debug functions touch: they are
    functions of its value.  [line] is a [uint8_t]. *)
Definition DEBUG1_ON (p4out : Z) : Z := wrap8 (Z.lor p4out BIT0).
Definition DEBUG1_OFF (p4out : Z) : Z := wrap8 (Z.land p4out (Z.lnot BIT0)).
Definition DEBUG2_ON (p4out : Z) : Z := wrap8 (Z.lor p4out BIT1).
Definition DEBUG2_OFF (p4out : Z) : Z := wrap8 (Z.land p4out (Z.lnot BIT1)).

Definition Hal_debugOn (line p4out : Z) : Z :=
  if wrap8 line =? 1 then DEBUG1_ON p4out
  else if wrap8 line =? 2 then DEBUG2_ON p4out
  else p4out.

Definition Hal_debugOff (line p4out : Z) : Z :=
  if wrap8 line =? 1 then DEBUG1_OFF p4out
  else if wrap8 line =? 2 then DEBUG2_OFF p4out
  else p4out.

Definition Hal_debugPulse (line p4out : Z) : Z :=
  if wrap8 line =? 1 then DEBUG1_OFF (DEBUG1_ON p4out)
  else if wrap8 line =? 2 then DEBUG2_OFF (DEBUG2_ON p4out)
  else p4out.

(** A command of the LEDs writes [P1OUT] and nothing else, and of [P1OUT]
    only bit [k]. *)
Definition only_bit {C} (k : Z) (c : M C unit) : Prop :=
  forall m : Machine C,
    log (exec c m) = log m /\ codec (exec c m) = codec m
    /\ appButtonHandler (hal (exec c m)) = appButtonHandler (hal m)
    /\ handlerEvents (hal (exec c m)) = handlerEvents (hal m)
    /\ clockTick (hal (exec c m)) = clockTick (hal m)
    /\ handlerTab (hal (exec c m)) = handlerTab (hal m)
    /\ (forall r, r <> P1OUT -> regs (hal (exec c m)) r = regs (hal m) r)
    /\ (forall j, 0 <= j < 8 -> j <> k ->
          Z.testbit (regs (hal (exec c m)) P1OUT) j = Z.testbit (regs (hal m) P1OUT) j).

(** ** The tick on the timer *)

(** The period of the tick in counts of the timer: with a [clockTick] of 0
    the compare register stays where it is and matches once in every round
    of the 16-bit counter. *)
Definition tick_period (p : Z) : Z := if p =? 0 then 2 ^ 16 else p.

(** [Em_Message_restart] does not call [Em_Hal_reset] back. *)
Definition restart_without_reset (C : Type) `{Codec C} : Prop :=
  forall c : C, ~ In CallReset (snd (Em_Message_restart c)).

(** The tick runs with period [p], the last deadline was set [j] counts
    ago, and interrupts are enabled. *)
Definition ticking (p j : Z) (h : Hal) : Prop :=
  clockTick h = p /\ regs h TA1CCTL0 = CCIE
  /\ regs h TA1CCR0 = wrap16 (regs h TA1R + (tick_period p - j))
  /\ Z.land (regs h SR) GIE = GIE.

(** ** A codec with traffic

    It sends the bytes of a list, takes a line feed for the end of a frame,
    and switches the watchdog and resets the link as a codec may. *)
#[export] Instance line_codec : Codec (list Z) := {
  Em_Message_startRx := fun c => (tt, c, [CallWatchOn]);
  Em_Message_addByte := fun b c => (b =? 10, c, if b =? 10 then [CallWatchOff] else []);
  Em_Message_getByte := fun c =>
    match c with
    | [] => (None, [], [CallWatchOff])
    | b :: c' => (Some b, c', [])
    end;
  Em_Message_startTx := fun c =>
    match c with
    | [] => (0, [], [])
    | b :: c' => (b, c', [CallWatchOn])
    end;
  Em_Message_restart := fun c => (tt, [], [CallReset])
}.

(** The machine after reset with the three slots bound and the bytes [bs]
    to send. *)
Definition sending (bs : list Z) : Machine (list Z) := mkMachine hal_ready bs [].

(** ** Interrupt requests as the device holds them

    A request is a flag in a register (SLAU208, 1.3): the hardware sets it
    whether or not the interrupt is enabled and whether or not [GIE] is
    set, and the request stays pending until it is accepted, which needs
    the flag, the enable bit and [GIE].  The flag of [TA1CCR0] is reset
    when the request is accepted; those of [TA1CCR1] and of the UART
    receiver are reset by the read of [TA1IV] and [UCA2IV] with which the
    routine starts, and which returns 2; the flags of the ports are left
    for the routine to clear.  The interrupt of [EAP_TX_ACK] is enabled
    once, in [Hal_init], and never disabled. *)

Definition CCIFG : Z := 0x0001.

Inductive Source : Type := PORT2 | USCI_A2 | TIMER1_A0 | PORT1 | TIMER1_A1.

Definition vector_of (s : Source) : Vector :=
  match s with
  | PORT2 => PORT2_VECTOR
  | USCI_A2 => USCI_A2_VECTOR 2
  | TIMER1_A0 => TIMER1_A0_VECTOR
  | PORT1 => PORT1_VECTOR
  | TIMER1_A1 => TIMER1_A1_VECTOR 2
  end.

(** The requests that the code masks and unmasks, arriving between them. *)
Inductive Act : Type :=
| Arrive (i : Input)     (* the hardware raises a request *)
| Mask                   (* DINT() *)
| Unmask.                (* EINT() *)

Definition ticks_of (acts : list Act) : Z :=
  Z.of_nat (length (List.filter (fun a => match a with Arrive InTick => true | _ => false end)
                      acts)).

Section Requests.
Context {C : Type} `{Codec C}.

(** The hardware latches the request of an input. *)
Definition latch (i : Input) : M C unit :=
  match i with
  | InTick =>
      t <- timer_count ;;
      d0 <- rd TA1CCR0 ;;
      when (t =? d0) (bis TA1CCTL0 CCIFG) ;;
      d1 <- rd TA1CCR1 ;;
      when (t =? d1) (bis TA1CCTL1 CCIFG)
  | InTxAck => bis P1IFG BIT2
  | InRx b => wr UCA2RXBUF b ;; bis UCA2IFG UCRXIFG
  | InButton => bis P2IFG BIT6
  end.

Definition pending (s : Source) : M C bool :=
  match s with
  | PORT2 => f <- enabled P2IFG BIT6 ;; e <- enabled P2IE BIT6 ;; ret (f && e)
  | USCI_A2 => f <- enabled UCA2IFG UCRXIFG ;; e <- enabled UCA2IE UCRXIE ;; ret (f && e)
  | TIMER1_A0 => f <- enabled TA1CCTL0 CCIFG ;; e <- enabled TA1CCTL0 CCIE ;; ret (f && e)
  | PORT1 => enabled P1IFG BIT2
  | TIMER1_A1 => f <- enabled TA1CCTL1 CCIFG ;; e <- enabled TA1CCTL1 CCIE ;; ret (f && e)
  end.

(** What accepting the request, and the routine's read of its vector
    register, reset. *)
Definition acknowledge (s : Source) : M C unit :=
  match s with
  | USCI_A2 => bic UCA2IFG UCRXIFG
  | TIMER1_A0 => bic TA1CCTL0 CCIFG
  | TIMER1_A1 => bic TA1CCTL1 CCIFG
  | PORT1 | PORT2 => ret tt
  end.

(** The request of [s] is accepted if it is pending and [GIE] is set, and
    its routine runs. *)
Definition serve (s : Source) : M C unit :=
  p <- pending s ;;
  sr <- rd SR ;;
  when (p && negb (Z.land sr GIE =? 0))
    (acknowledge s ;; interrupt (routine (vector_of s))).

(** The pending requests are served in the order [order]. *)
Fixpoint serve_in (order : list Source) : M C unit :=
  match order with
  | [] => ret tt
  | s :: order' => serve s ;; serve_in order'
  end.

Definition arrive (order : list Source) (i : Input) : M C unit :=
  latch i ;; serve_in order.

Fixpoint arrivals (order : list Source) (ins : list Input) : M C unit :=
  match ins with
  | [] => ret tt
  | i :: ins' => arrive order i ;; arrivals order ins'
  end.

Definition act (order : list Source) (a : Act) : M C unit :=
  match a with
  | Arrive i => arrive order i
  | Mask => DINT
  | Unmask => EINT ;; serve_in order
  end.

Fixpoint acts_run (order : list Source) (acts : list Act) : M C unit :=
  match acts with
  | [] => ret tt
  | a :: acts' => act order a ;; acts_run order acts'
  end.


End Requests.

(** The codec calls back only from [Em_Message_restart], and there only
    [Em_Hal_reset]. *)
Definition calm (C : Type) `{Codec C} : Prop :=
  forall (c : C) (b : Z),
    snd (Em_Message_startRx c) = [] /\ snd (Em_Message_addByte b c) = []
    /\ snd (Em_Message_getByte c) = [] /\ snd (Em_Message_startTx c) = []
    /\ Forall (fun x => x = CallReset) (snd (Em_Message_restart c)).

(** The registers in which requests are latched, and the counter. *)
Definition latch_touched (r : Reg) : bool :=
  match r with
  | TA1R | TA1CCTL0 | TA1CCTL1 | P1IFG | UCA2RXBUF | UCA2IFG | P2IFG => true
  | _ => false
  end.

(** What the latching of requests keeps, from [b] to [a]. *)
Definition latch_frame (a b : Hal) : Prop :=
  (forall r, latch_touched r = false -> regs a r = regs b r)
  /\ appButtonHandler a = appButtonHandler b
  /\ handlerEvents a = handlerEvents b
  /\ clockTick a = clockTick b
  /\ handlerTab a = handlerTab b.

(** Since [m0], with [SR] at [sr] throughout, the events [es] were logged
    and neither the codec nor the event mask changed. *)
Definition locked {C} (sr : Z) (m0 : Machine C) (es : list Event) (m : Machine C) : Prop :=
  regs (hal m) SR = sr
  /\ codec m = codec m0
  /\ handlerEvents (hal m) = handlerEvents (hal m0)
  /\ exists L, log m = log m0 ++ L /\ events_of L = es
               /\ Forall (fun o => regs (fst o) SR = sr) L.

(** ** The watchdog's request

    Armed [k] counts ago at counter value [t0]; due: the compare has
    matched and the request waits; off: the interrupt of [TA1CCR1] is
    disabled. *)
Inductive Phase : Type := Armed (k : Z) | Due | Off.

Definition in_phase (t0 : Z) (p : Phase) (h : Hal) : Prop :=
  match p with
  | Armed k =>
      regs h TA1CCTL1 = CCIE
      /\ regs h TA1CCR1 = wrap16 (t0 + UART_WATCHDOG_PERIOD)
      /\ wrap16 (regs h TA1R) = wrap16 (t0 + k)
      /\ 0 <= k < UART_WATCHDOG_PERIOD
  | Due => Z.testbit (regs h TA1CCTL1) 0 = true /\ Z.testbit (regs h TA1CCTL1) 4 = true
  | Off => Z.testbit (regs h TA1CCTL1) 4 = false
  end.

(** From phase [p] to phase [p'] in [n] counts of the timer with [r] calls
    of [Em_Message_restart]. *)
Definition moves (p p' : Phase) (n : Z) (r : nat) : Prop :=
  match p, p' with
  | Armed k, Armed k' => k' = k + n /\ r = 0%nat
  | Armed k, Due => UART_WATCHDOG_PERIOD <= k + n /\ r = 0%nat
  | Armed k, Off => UART_WATCHDOG_PERIOD <= k + n /\ r = 1%nat
  | Due, Due => r = 0%nat
  | Due, Off => r = 1%nat
  | Off, Off => r = 0%nat
  | _, _ => False
  end.

(** ** A codec that resets the link

    It has nothing to send and completes no frame; its restart counts the
    stalls and calls [Em_Hal_reset]. *)
#[export] Instance stalling_codec : Codec nat := {
  Em_Message_startRx := fun c => (tt, c, []);
  Em_Message_addByte := fun _ c => (false, c, []);
  Em_Message_getByte := fun c => (None, c, []);
  Em_Message_startTx := fun c => (0, c, []);
  Em_Message_restart := fun c => (tt, S c, [CallReset])
}.

Definition stalled : Machine nat := mkMachine hal_boot 0%nat [].

(** The sources in the order of their vectors in the device's interrupt
    table, highest priority first. *)
Definition by_priority : list Source := [USCI_A2; TIMER1_A0; TIMER1_A1; PORT1; PORT2].

(** * Properties *)

(** ** Bits *)

Lemma land_pow2 (v k : Z) :
  0 <= k -> Z.land v (2 ^ k) = if Z.testbit v k then 2 ^ k else 0.
Proof.
  intros Hk. apply Z.bits_inj'. intros i Hi.
  rewrite Z.land_spec, Z.pow2_bits_eqb by assumption.
  destruct (Z.eqb_spec k i) as [->|Hne].
  - destruct (Z.testbit v i) eqn:E.
    + now rewrite Z.pow2_bits_true.
    + now rewrite Z.bits_0.
  - rewrite andb_false_r. destruct (Z.testbit v k).
    + now rewrite Z.pow2_bits_false.
    + now rewrite Z.bits_0.
Qed.

Lemma land_pow2_eqb (v k : Z) :
  0 <= k -> (Z.land v (2 ^ k) =? 0) = negb (Z.testbit v k).
Proof.
  intros Hk. rewrite land_pow2 by assumption.
  destruct (Z.testbit v k); [|reflexivity].
  apply Z.eqb_neq. pose proof (Z.pow_pos_nonneg 2 k). lia.
Qed.

Lemma testbit_wrap16 (z i : Z) :
  Z.testbit (wrap16 z) i = (i <? 16) && Z.testbit z i.
Proof. unfold wrap16. now rewrite Z.testbit_mod_pow2. Qed.

Lemma testbit_wrap8 (z i : Z) :
  Z.testbit (wrap8 z) i = (i <? 8) && Z.testbit z i.
Proof. unfold wrap8. now rewrite Z.testbit_mod_pow2. Qed.

Lemma wrap16_idem (z : Z) : wrap16 (wrap16 z) = wrap16 z.
Proof. unfold wrap16. now rewrite Z.mod_mod. Qed.

Lemma wrap16_add_l (a b : Z) : wrap16 (wrap16 a + b) = wrap16 (a + b).
Proof. unfold wrap16. now rewrite Zplus_mod_idemp_l. Qed.

(** ** The monad *)

Section Laws.
Context {C : Type} `{Codec C}.

Lemma exec_bind {A B} (c : M C A) (k : A -> M C B) (m : Machine C) :
  exec (bind c k) m = exec (k (eval c m)) (exec c m).
Proof. unfold exec, eval, bind. now destruct (c m). Qed.

Lemma eval_bind {A B} (c : M C A) (k : A -> M C B) (m : Machine C) :
  eval (bind c k) m = eval (k (eval c m)) (exec c m).
Proof. unfold exec, eval, bind. now destruct (c m). Qed.

Lemma logged_nil (m : Machine C) : logged [] m = m.
Proof. destruct m. unfold logged. cbn. now rewrite app_nil_r. Qed.

Lemma logged_logged (l l' : list Obs) (m : Machine C) :
  logged l' (logged l m) = logged (l ++ l') m.
Proof. unfold logged. cbn. now rewrite app_assoc. Qed.

Lemma exec_Hal_delay_loop (n : nat) (m : Machine C) :
  exec (Hal_delay_loop n) m
  = logged (repeat (hal m, EvDelayCycles MCLK_TICKS_PER_MS) n) m.
Proof.
  revert m. induction n as [|n IH]; intros m.
  - cbn. now rewrite logged_nil.
  - cbn [Hal_delay_loop]. rewrite exec_bind, IH.
    unfold logged. cbn. now rewrite <- app_assoc.
Qed.

Lemma exec_Hal_delay (msecs : Z) (m : Machine C) :
  exec (Hal_delay msecs) m
  = logged (repeat (hal m, EvDelayCycles MCLK_TICKS_PER_MS)
              (Z.to_nat (wrap16 msecs))) m.
Proof. apply exec_Hal_delay_loop. Qed.

End Laws.

(** ** Reading logs *)

Lemma occurrences_app (e : Event) (l l' : list Obs) :
  occurrences e (l ++ l') = (occurrences e l + occurrences e l')%nat.
Proof. unfold occurrences. now rewrite List.filter_app, length_app. Qed.

Lemma occurrences_cons (e : Event) (o : Obs) (l : list Obs) :
  occurrences e (o :: l)
  = ((if is_event e o then 1 else 0) + occurrences e l)%nat.
Proof. unfold occurrences. cbn [List.filter]. now destruct (is_event e o). Qed.

Lemma occurrences_repeat_same (h : Hal) (e : Event) (n : nat) :
  occurrences e (repeat (h, e) n) = n.
Proof.
  unfold occurrences. induction n as [|n IH]; [reflexivity|].
  cbn [repeat List.filter]. unfold is_event at 1. cbn [snd].
  destruct (Event_eq_dec e e); [|congruence]. cbn [length]. now rewrite IH.
Qed.

Lemma occurrences_srt (e : Event) (l : list Obs) :
  ~ srt_event e -> Forall (fun o => srt_event (snd o)) l -> occurrences e l = 0%nat.
Proof.
  intros He. induction 1 as [|o l Ho _ IH]; [reflexivity|].
  rewrite occurrences_cons, IH. unfold is_event.
  destruct (Event_eq_dec (snd o) e) as [E|]; [|reflexivity].
  rewrite E in Ho. contradiction.
Qed.

Lemma trace_eq {C A} (c : M C A) (m : Machine C) (l : list Obs) :
  log (exec c m) = log m ++ l -> trace c m = l.
Proof. unfold trace. intros ->. now rewrite drop_app_length. Qed.

(** ** Steps of the code *)

Ltac run :=
  cbn -[Z.land Z.lor Z.lnot wrap16 wrap8 Z.to_nat repeat Z.add Z.quot Z.mul
        Z.shiftl Z.eqb Z.testbit Z.ltb].

Lemma masked_bic (v : Z) : Z.land (wrap16 (Z.land v (Z.lnot GIE))) GIE = 0.
Proof.
  change GIE with (2 ^ 3). rewrite land_pow2 by lia.
  rewrite testbit_wrap16, Z.land_spec, Z.lnot_spec by lia.
  change (Z.testbit (2 ^ 3) 3) with true. cbn. now rewrite andb_false_r.
Qed.

Section Steps.
Context {C : Type} `{Codec C}.

(** [Em_Hal_reset] leaves the codec alone, logs pin writes and delays only,
    all of them with interrupts masked, and gives [GIE] back as it found
    it. *)
Lemma Em_Hal_reset_effect (m : Machine C) :
  exists h L,
    exec Em_Hal_reset m = mkMachine h (codec m) (log m ++ L)
    /\ Forall (fun o => masked (fst o)) L
    /\ Forall (fun o => srt_event (snd o)) L
    /\ occurrences (EvDelayCycles MCLK_TICKS_PER_MS) L = 600%nat
    /\ Z.land (regs h SR) GIE = Z.land (regs (hal m) SR) GIE
    /\ handlerEvents h = handlerEvents (hal m).
Proof.
  unfold Em_Hal_reset, Em_Hal_reset_with, idle. rewrite !exec_bind, !exec_Hal_delay.
  run. unfold logged. run. rewrite <- !app_assoc.
  eexists _, _. split; [reflexivity|].
  split; [|split; [|split; [|split]]].
  - repeat (apply Forall_app; split);
      try (apply Forall_forall; intros o Ho; apply repeat_spec in Ho; subst o);
      repeat constructor; unfold masked; run; apply masked_bic.
  - repeat (apply Forall_app; split);
      try (apply Forall_forall; intros o Ho; apply repeat_spec in Ho; subst o);
      repeat constructor.
  - unfold MCLK_TICKS_PER_MS. cbn [app].
    rewrite ?occurrences_cons, ?occurrences_app, ?occurrences_repeat_same.
    reflexivity.
  - run. change GIE with (2 ^ 3). rewrite !land_pow2 by lia.
    rewrite testbit_wrap16, Z.lor_spec, testbit_wrap16, testbit_wrap8,
      !Z.land_spec, Z.lnot_spec by lia.
    change 8 with (2 ^ 3). rewrite !Z.pow2_bits_true by lia. cbn.
    now rewrite andb_false_r, andb_true_r.
  - reflexivity.
Qed.

Lemma srt_call_effect (c : SrtCall) (m : Machine C) :
  exists h L,
    exec (srt_call c) m = mkMachine h (codec m) (log m ++ L)
    /\ Forall (fun o => srt_event (snd o)) L
    /\ handlerEvents h = handlerEvents (hal m).
Proof.
  destruct c.
  - exists (hal (exec Em_Hal_watchOn m)), []. rewrite app_nil_r.
    split; [reflexivity|]. split; [constructor|reflexivity].
  - exists (hal (exec Em_Hal_watchOff m)), []. rewrite app_nil_r.
    split; [reflexivity|]. split; [constructor|reflexivity].
  - destruct (Em_Hal_reset_effect m) as (h & L & E & _ & Hs & _ & _ & He).
    exists h, L. split; [exact E|]. split; [exact Hs|exact He].
Qed.

Lemma srt_calls_effect (cs : list SrtCall) (m : Machine C) :
  exists h L,
    exec (srt_calls cs) m = mkMachine h (codec m) (log m ++ L)
    /\ Forall (fun o => srt_event (snd o)) L
    /\ handlerEvents h = handlerEvents (hal m).
Proof.
  revert m. induction cs as [|c cs IH]; intros m.
  - exists (hal m), []. rewrite app_nil_r. destruct m.
    split; [reflexivity|]. split; [constructor|reflexivity].
  - cbn [srt_calls]. rewrite exec_bind.
    destruct (srt_call_effect c m) as (h1 & L1 & E1 & S1 & V1). rewrite E1.
    destruct (IH (mkMachine h1 (codec m) (log m ++ L1)))
      as (h2 & L2 & E2 & S2 & V2).
    exists h2, (L1 ++ L2). rewrite E2. cbn [codec log hal] in *.
    rewrite <- app_assoc.
    split; [reflexivity|]. split; [apply Forall_app; split; assumption|].
    congruence.
Qed.

(** A call into the codec. *)
Lemma exec_extern {A} (e : Event) (f : C -> A * C * list SrtCall) (m : Machine C) :
  exec (extern e f) m
  = exec (srt_calls (snd (f (codec m))))
      (mkMachine (hal m) (snd (fst (f (codec m)))) (log m ++ [(hal m, e)])).
Proof. reflexivity. Qed.

Lemma eval_extern {A} (e : Event) (f : C -> A * C * list SrtCall) (m : Machine C) :
  eval (extern e f) m = fst (fst (f (codec m))).
Proof. reflexivity. Qed.

End Steps.

(** ** Link reset *)

(** C4, as the specification states it, fails: called with interrupts
    enabled, the second entry that [Em_Hal_reset] logs is a busy-wait delay,
    and it runs with interrupts masked. *)
Lemma C4_delay_runs_under_lock :
  Z.land (regs (hal boot) SR) GIE = GIE
  /\ exists h,
       trace Em_Hal_reset boot !! 1%nat = Some (h, EvDelayCycles MCLK_TICKS_PER_MS)
       /\ masked h.
Proof.
  split; [reflexivity|]. eexists. split; [vm_compute; reflexivity|].
  vm_compute. reflexivity.
Qed.

(** ** Periodic tick *)

Section Tick.
Context {C : Type} `{Codec C}.

(** C10: the period that [Hal_tickStart] stores is the tick count
    [32768 * msecs / 1000] cut to 16 bits: from 2000 ms on the count does
    not fit, and the stored period is shorter than the one asked for; for
    2000 ms it is 0. *)
Theorem C10_tick_period_wraps (m : Machine C) (msecs : Z) (f : option Handler) :
  0 <= msecs < 2 ^ 16 ->
  let stored := clockTick (hal (exec (Hal_tickStart msecs f) m)) in
  let asked := ACLK_TICKS_PER_SECOND * msecs / 1000 in
  stored = asked mod 2 ^ 16
  /\ ACLK_TICKS_PER_SECOND * msecs < 2 ^ 31
  /\ (2000 <= msecs -> 2 ^ 16 <= asked /\ stored < asked)
  /\ clockTick (hal (exec (Hal_tickStart 2000 f) m)) = 0.
Proof.
  intros Hr stored asked. unfold ACLK_TICKS_PER_SECOND in *.
  assert (Hs : stored = asked mod 2 ^ 16).
  { subst stored asked. cbn -[Z.quot Z.mul wrap16 Z.div Z.pow].
    unfold ACLK_TICKS_PER_SECOND.
    unfold wrap16 at 2. rewrite (Z.mod_small msecs) by lia.
    rewrite Z.quot_div_nonneg by lia. reflexivity. }
  split; [exact Hs|]. split; [lia|]. split; [|reflexivity].
  intros Hge. assert (2 ^ 16 <= asked).
  { subst asked. apply Z.div_le_lower_bound; lia. }
  split; [assumption|]. rewrite Hs.
  pose proof (Z.mod_pos_bound asked (2 ^ 16)). lia.
Qed.

Lemma tick_deadlines_from (lat : list Z) (m : Machine C) :
  eval (tick_deadlines lat) m
  = map (fun k => wrap16 (regs (hal m) TA1CCR0 + Z.of_nat k * clockTick (hal m)))
      (seq 1 (length lat)).
Proof.
  revert m. induction lat as [|d lat IH]; intros m; [reflexivity|].
  cbn [tick_deadlines]. rewrite !eval_bind.
  set (m1 := exec (wr TA1R (eval (rd TA1R) m + d)) (exec (rd TA1R) m)).
  set (m2 := exec timerIsr m1).
  rewrite IH.
  assert (E0 : regs (hal m2) TA1CCR0
               = wrap16 (regs (hal m) TA1CCR0 + clockTick (hal m))) by reflexivity.
  assert (E1 : clockTick (hal m2) = clockTick (hal m)) by reflexivity.
  change (exec (rd TA1CCR0) m2) with m2.
  change (eval (rd TA1CCR0) m2) with (regs (hal m2) TA1CCR0).
  rewrite E0, E1. cbn [eval ret fst length seq map].
  f_equal.
  - f_equal. lia.
  - rewrite <- (seq_shift (length lat) 1), map_map. apply map_ext. intros k.
    rewrite wrap16_add_l. f_equal. lia.
Qed.

(** C5: [Hal_tickStart] programs the first deadline one period after the
    timer value it reads, and every run of [timerIsr] adds one period to the
    deadline in [TA1CCR0], whatever the timer shows by then: the deadlines
    are start + period, start + 2 period, ... (in the 16 bits of the
    register), for every latency of the routine. *)
Theorem C5_tick_deadlines_arithmetic
    (m : Machine C) (msecs : Z) (f : option Handler) (lat : list Z) :
  let m1 := exec (Hal_tickStart msecs f) m in
  let start := regs (hal m) TA1R in
  let period := clockTick (hal m1) in
  regs (hal m1) TA1CCR0 = wrap16 (start + period)
  /\ eval (tick_deadlines lat) m1
     = map (fun k => wrap16 (start + Z.of_nat k * period)) (seq 2 (length lat))
  /\ forall m' : Machine C,
       regs (hal (exec timerIsr m')) TA1CCR0
       = wrap16 (regs (hal m') TA1CCR0 + clockTick (hal m')).
Proof.
  intros m1 start period.
  assert (E : regs (hal m1) TA1CCR0 = wrap16 (start + period)) by reflexivity.
  split; [exact E|]. split; [|intros m'; reflexivity].
  rewrite tick_deadlines_from, E. fold period.
  rewrite <- (seq_shift (length lat) 1), map_map. apply map_ext. intros k.
  rewrite wrap16_add_l. f_equal. lia.
Qed.

End Tick.

Lemma C10_tick_period_wraps_witness :
  clockTick (hal (exec (Hal_tickStart 3000 None) boot)) < 32768 * 3000 / 1000.
Proof.
  destruct (C10_tick_period_wraps boot 3000 None) as (_ & _ & Hw & _); [lia|].
  apply Hw. lia.
Defined.

(** ** Transport watchdog *)

Section Watchdog.
Context {C : Type} `{Codec C}.

Lemma uartWatchdogIsr_log (m : Machine C) :
  exists h1 h2 L,
    log (exec (uartWatchdogIsr 2) m)
    = log m ++ (h1, EvRestart) :: L ++ [(h2, EvWakeup)]
    /\ h1 = set_regs (rf_write TA1CCTL1 0 (regs (hal m))) (hal m)
    /\ Forall (fun o => srt_event (snd o)) L.
Proof.
  unfold uartWatchdogIsr. change (2 =? 2) with true. cbv iota.
  rewrite !exec_bind, exec_extern.
  set (m1 := exec UART_WATCH_DISABLE m).
  destruct (srt_calls_effect (snd (Em_Message_restart (codec m1)))
              (mkMachine (hal m1) (snd (fst (Em_Message_restart (codec m1))))
                 (log m1 ++ [(hal m1, EvRestart)])))
    as (h & L & E & Hs & _).
  rewrite E. run. rewrite <- !app_assoc. cbn [app].
  eexists _, _, L. split; [reflexivity|]. split; [reflexivity|exact Hs].
Qed.

(** C7: [Em_Hal_watchOn] sets the deadline in [TA1CCR1] to the timer value
    plus 8192 ticks, which is 250 ms of the 32768 Hz clock, and enables the
    compare interrupt; [Em_Hal_watchOff] clears [TA1CCTL1] and changes
    nothing else; the interrupt routine, entered for compare register 1,
    calls [Em_Message_restart] once, and [TA1CCTL1] is already 0 when it
    does. *)
Theorem C7_watchdog_arm_disarm_expire (m : Machine C) :
  (let m' := exec Em_Hal_watchOn m in
   regs (hal m') TA1CCR1 = wrap16 (regs (hal m) TA1R + UART_WATCHDOG_PERIOD)
   /\ regs (hal m') TA1CCTL1 = CCIE
   /\ UART_WATCHDOG_PERIOD * 1000 = 250 * ACLK_TICKS_PER_SECOND)
  /\ (let m' := exec Em_Hal_watchOff m in
      regs (hal m') TA1CCTL1 = 0
      /\ (forall r, regs (hal m') r
                     = if Reg_eq_dec r TA1CCTL1 then 0 else regs (hal m) r)
      /\ appButtonHandler (hal m') = appButtonHandler (hal m)
      /\ handlerEvents (hal m') = handlerEvents (hal m)
      /\ clockTick (hal m') = clockTick (hal m)
      /\ handlerTab (hal m') = handlerTab (hal m)
      /\ codec m' = codec m
      /\ log m' = log m)
  /\ (exists h rest,
        trace (uartWatchdogIsr 2) m = (h, EvRestart) :: rest
        /\ regs h TA1CCTL1 = 0
        /\ occurrences EvRestart rest = 0%nat
        /\ occurrences EvRestart (trace (uartWatchdogIsr 2) m) = 1%nat).
Proof.
  split; [|split].
  - cbv zeta. split; [reflexivity|]. split; reflexivity.
  - cbv zeta. split; [reflexivity|]. split.
    + intros r. cbn. unfold rf_write.
      destruct (Reg_eq_dec TA1CCTL1 r), (Reg_eq_dec r TA1CCTL1);
        congruence || reflexivity.
    + repeat (split; [reflexivity|]). reflexivity.
  - destruct (uartWatchdogIsr_log m) as (h1 & h2 & L & E & E1 & Hs).
    apply trace_eq in E. exists h1, (L ++ [(h2, EvWakeup)]).
    assert (Hr : occurrences EvRestart (L ++ [(h2, EvWakeup)]) = 0%nat).
    { rewrite occurrences_app, (occurrences_srt EvRestart L); auto. }
    split; [exact E|]. split; [subst h1; reflexivity|]. split; [exact Hr|].
    rewrite E, occurrences_cons, Hr. reflexivity.
Qed.

End Watchdog.

(** ** Event dispatcher *)

Lemma invocations_app (l l' : list Obs) :
  invocations (l ++ l') = invocations l ++ invocations l'.
Proof.
  induction l as [|[h e] l IH]; [reflexivity|].
  destruct e; cbn; rewrite ?IH; reflexivity.
Qed.

Lemma stamp_app (h : Hal) (es es' : list Event) :
  stamp h (es ++ es') = stamp h es ++ stamp h es'.
Proof. apply map_app. Qed.

Lemma stamp_repeat (h : Hal) (e : Event) (n : nat) :
  stamp h (repeat e n) = repeat (h, e) n.
Proof. induction n as [|n IH]; cbn; [reflexivity|]. f_equal. exact IH. Qed.

Lemma events_of_stamp (h : Hal) (es : list Event) : events_of (stamp h es) = es.
Proof.
  unfold events_of, stamp. rewrite map_map. cbn. apply map_id.
Qed.

Lemma invocations_repeat_delay (h : Hal) (n : Z) (k : nat) :
  invocations (repeat (h, EvDelayCycles n) k) = [].
Proof. induction k as [|k IH]; [reflexivity|exact IH]. Qed.

Lemma invocations_button_run (h h' : Hal) : invocations (stamp h (button_run h')) = [].
Proof.
  unfold button_run. rewrite stamp_app, invocations_app, stamp_repeat,
    invocations_repeat_delay.
  destruct (Z.land (regs h' P2IN) BIT6 =? 0), (appButtonHandler h'); reflexivity.
Qed.

Lemma invocations_slot_run (h h' : Hal) (events id : Z) :
  invocations (stamp h (slot_run h' events id)) = slot_call h' events id.
Proof.
  unfold slot_run, slot_call.
  destruct (Z.testbit events id); [|reflexivity].
  destruct (handlerTab h' !! Z.to_nat id) as [[f|]|]; try reflexivity.
  unfold handler_run. cbn [stamp map invocations]. f_equal.
  destruct f; try reflexivity. apply invocations_button_run.
Qed.

Lemma invocations_drain_run (h h' : Hal) (events : Z) :
  invocations (stamp h (drain_run h' events)) = drain_calls h' events.
Proof.
  unfold drain_run, drain_calls.
  now rewrite !stamp_app, !invocations_app, !invocations_slot_run.
Qed.

Lemma calls_invocations (id : Z) (l : list Obs) :
  calls id l = length (List.filter (fun p => fst p =? id) (invocations l)).
Proof.
  unfold calls. induction l as [|[h e] l IH]; [reflexivity|].
  destruct e; cbn [List.filter invocations is_call snd fst]; try exact IH.
  destruct (id0 =? id); cbn [length]; now rewrite IH.
Qed.

Lemma calls_slot (h : Hal) (events k id : Z) :
  length (List.filter (fun p => fst p =? id) (slot_call h events k))
  = match handlerTab h !! Z.to_nat k with
    | Some (Some _) => if Z.testbit events k && (k =? id) then 1%nat else 0%nat
    | _ => 0%nat
    end.
Proof.
  unfold slot_call. destruct (Z.testbit events k);
    destruct (handlerTab h !! Z.to_nat k) as [[f|]|]; try reflexivity.
  cbn. now destruct (k =? id).
Qed.

Section Dispatcher.
Context {C : Type} `{Codec C}.

Lemma exec_buttonHandler (m : Machine C) :
  exec buttonHandler m = logged (stamp (hal m) (button_run (hal m))) m.
Proof.
  unfold buttonHandler. rewrite exec_bind, exec_Hal_delay.
  change (Z.to_nat (wrap16 100)) with 100%nat.
  unfold button_run. rewrite stamp_app, stamp_repeat. unfold BUTTON_PRESSED.
  cbv beta iota zeta delta [exec eval bind ret gets modify emit rd fst snd logged].
  cbn [hal codec log].
  destruct (Z.land (regs (hal m) P2IN) BIT6 =? 0), (appButtonHandler (hal m));
    cbn [stamp map hal codec log]; rewrite <- ?app_assoc, ?app_nil_r; reflexivity.
Qed.

Lemma exec_call_handler (id : Z) (f : Handler) (m : Machine C) :
  exec (call_handler id f) m
  = logged (stamp (hal m) (handler_run (hal m) id f)) m.
Proof.
  unfold call_handler. rewrite exec_bind. destruct f; try reflexivity.
  rewrite exec_buttonHandler. unfold logged, handler_run, stamp. run.
  now rewrite <- app_assoc.
Qed.

(** One turn of the loop: slot [k] is tested with the mask [2 ^ k]. *)
Lemma dispatch_step (fuel : nat) (k events : Z) (m : Machine C) :
  0 <= k < NUM_HANDLERS ->
  dispatch_loop (S fuel) k (2 ^ k) events m
  = dispatch_loop fuel (k + 1) (2 ^ (k + 1)) events
      (logged (stamp (hal m) (slot_run (hal m) events k)) m).
Proof.
  intros Hk. cbn [dispatch_loop].
  assert (E : (k <? NUM_HANDLERS) = true) by (apply Z.ltb_lt; lia). rewrite E.
  assert (Ew : wrap8 (k + 1) = k + 1).
  { unfold wrap8, NUM_HANDLERS in *. apply Z.mod_small. lia. }
  assert (Em : wrap16 (Z.shiftl (2 ^ k) 1) = 2 ^ (k + 1)).
  { rewrite Z.shiftl_mul_pow2, Z.pow_add_r by lia.
    unfold wrap16, NUM_HANDLERS in *. apply Z.mod_small.
    assert (k = 0 \/ k = 1 \/ k = 2) as [->|[->| ->]] by lia; cbn; lia. }
  rewrite Ew, Em. unfold bind at 1.
  rewrite land_pow2_eqb, negb_involutive by lia.
  unfold slot_run. run.
  destruct (Z.testbit events k); [|now rewrite logged_nil].
  destruct (handlerTab (hal m) !! Z.to_nat k) as [[f|]|];
    try (now rewrite logged_nil).
  unfold bind. pose proof (exec_call_handler k f m) as Ec. unfold exec in Ec.
  destruct (call_handler k f m) as [u m']. cbn in Ec. now rewrite Ec.
Qed.

(** The whole loop: it leaves through its test, and it has logged the runs
    of slots 0, 1 and 2, in this order, changing nothing else. *)
Lemma dispatch_loop_run (events : Z) (m : Machine C) :
  dispatch_loop dispatch_fuel 0 1 events m
  = (true, logged (stamp (hal m) (drain_run (hal m) events)) m).
Proof.
  unfold dispatch_fuel. change 1 with (2 ^ 0) at 1.
  rewrite (dispatch_step 3 0) by (unfold NUM_HANDLERS; lia).
  rewrite (dispatch_step 2 (0 + 1)) by (unfold NUM_HANDLERS; lia).
  rewrite (dispatch_step 1 (0 + 1 + 1)) by (unfold NUM_HANDLERS; lia).
  cbn [dispatch_loop hal logged]. change (0 + 1 + 1 + 1 <? NUM_HANDLERS) with false.
  cbv iota. unfold ret. rewrite !logged_logged. unfold drain_run.
  now rewrite !stamp_app.
Qed.

Lemma exec_drain_rest (events : Z) (m : Machine C) :
  events <> 0 ->
  exec (drain_rest events) m
  = logged (stamp (hal (exec EINT m)) (drain_run (hal (exec EINT m)) events))
      (exec EINT m).
Proof.
  intros Hne. unfold drain_rest, drain_rest_with.
  assert (E : (events =? 0) = false) by now apply Z.eqb_neq. rewrite E.
  cbn [negb]. rewrite !exec_bind. change (exec (ret tt) (exec EINT m)) with (exec EINT m).
  unfold exec at 1 2. unfold eval. rewrite dispatch_loop_run. reflexivity.
Qed.

Lemma trace_drain_rest (events : Z) (m : Machine C) :
  events <> 0 ->
  trace (drain_rest events) m
  = stamp (hal (exec EINT m)) (drain_run (hal (exec EINT m)) events).
Proof.
  intros Hne. apply trace_eq. now rewrite exec_drain_rest.
Qed.

End Dispatcher.

Lemma unmasked_bis (v : Z) : Z.land (wrap16 (Z.lor v GIE)) GIE = GIE.
Proof.
  change GIE with (2 ^ 3). rewrite land_pow2 by lia.
  rewrite testbit_wrap16, Z.lor_spec, Z.pow2_bits_true by lia.
  now rewrite orb_true_r.
Qed.

Lemma post_bit (e i k : Z) :
  0 <= i -> 0 <= k < 16 ->
  Z.testbit (wrap16 (Z.lor e (Z.shiftl 1 i))) k = Z.testbit e k || (i =? k).
Proof.
  intros Hi Hk. rewrite testbit_wrap16, Z.lor_spec, Z.shiftl_1_l,
    Z.pow2_bits_eqb by lia.
  assert (E : (k <? 16) = true) by (apply Z.ltb_lt; lia). now rewrite E.
Qed.

Lemma post_twice (e i : Z) :
  wrap16 (Z.lor (wrap16 (Z.lor e (Z.shiftl 1 i))) (Z.shiftl 1 i))
  = wrap16 (Z.lor e (Z.shiftl 1 i)).
Proof.
  apply Z.bits_inj'. intros k Hk.
  rewrite !testbit_wrap16, !Z.lor_spec, testbit_wrap16, Z.lor_spec.
  destruct (k <? 16), (Z.testbit e k), (Z.testbit (Z.shiftl 1 i) k); reflexivity.
Qed.

Lemma in_drain_calls (h : Hal) (events k : Z) (f : Handler) :
  In (k, f) (drain_calls h events)
  <-> (k = 0 \/ k = 1 \/ k = 2) /\ Z.testbit events k = true
      /\ handlerTab h !! Z.to_nat k = Some (Some f).
Proof.
  unfold drain_calls, slot_call. rewrite !in_app_iff. split.
  - intros [Hin|[Hin|Hin]];
      [destruct (Z.testbit events 0) eqn:Eb;
         destruct (handlerTab h !! Z.to_nat 0) as [[g|]|] eqn:Et
      |destruct (Z.testbit events 1) eqn:Eb;
         destruct (handlerTab h !! Z.to_nat 1) as [[g|]|] eqn:Et
      |destruct (Z.testbit events 2) eqn:Eb;
         destruct (handlerTab h !! Z.to_nat 2) as [[g|]|] eqn:Et];
      cbn in Hin; try contradiction;
      destruct Hin as [Hin|[]]; inversion Hin; subst; auto.
  - intros ([->|[->| ->]] & Eb & Et); rewrite Eb, Et; cbn; auto.
Qed.

Section Drains.
Context {C : Type} `{Codec C}.

Lemma drain_run_ext (h h' : Hal) (events : Z) :
  handlerTab h = handlerTab h' -> regs h P2IN = regs h' P2IN ->
  appButtonHandler h = appButtonHandler h' ->
  drain_run h events = drain_run h' events.
Proof.
  intros Et Ep Ea. unfold drain_run, slot_run, handler_run, button_run.
  now rewrite Et, Ep, Ea.
Qed.

Lemma drain_state_frame (m : Machine C) :
  handlerTab (hal (drain_state m)) = handlerTab (hal m)
  /\ regs (hal (drain_state m)) P2IN = regs (hal m) P2IN
  /\ appButtonHandler (hal (drain_state m)) = appButtonHandler (hal m)
  /\ handlerEvents (hal (drain_state m)) = 0
  /\ log (drain_state m) = log m
  /\ codec (drain_state m) = codec m.
Proof. repeat (split; [reflexivity|]). reflexivity. Qed.

Lemma drain_state_unmasked (m : Machine C) :
  Z.land (regs (hal (drain_state m)) SR) GIE = GIE.
Proof. unfold drain_state. run. apply unmasked_bis. Qed.

Lemma exec_Hal_idleLoop_body (m : Machine C) :
  handlerEvents (hal m) <> 0 ->
  exec Hal_idleLoop_body m
  = logged (stamp (hal (drain_state m))
              (drain_run (hal m) (handlerEvents (hal m))))
      (drain_state m).
Proof.
  intros Hne. unfold Hal_idleLoop_body. rewrite exec_bind.
  change (eval drain_enter m) with (handlerEvents (hal m)).
  rewrite exec_drain_rest by assumption. fold (drain_state m).
  destruct (drain_state_frame m) as (Et & Ep & Ea & _).
  now rewrite (drain_run_ext _ (hal m)).
Qed.

Lemma exec_Hal_idleLoop_body_idle (m : Machine C) :
  handlerEvents (hal m) = 0 ->
  exec Hal_idleLoop_body m = exec SLEEP (exec drain_enter m).
Proof.
  intros E0. unfold Hal_idleLoop_body. rewrite exec_bind.
  change (eval drain_enter m) with (handlerEvents (hal m)). now rewrite E0.
Qed.

Lemma trace_Hal_idleLoop_body (m : Machine C) :
  handlerEvents (hal m) <> 0 ->
  trace Hal_idleLoop_body m
  = stamp (hal (drain_state m)) (drain_run (hal m) (handlerEvents (hal m))).
Proof. intros Hne. apply trace_eq. now rewrite exec_Hal_idleLoop_body. Qed.

Lemma trace_Hal_idleLoop_body_idle (m : Machine C) :
  handlerEvents (hal m) = 0 ->
  events_of (trace Hal_idleLoop_body m) = [EvSleep].
Proof.
  intros E0. erewrite trace_eq; [|rewrite exec_Hal_idleLoop_body_idle by assumption;
    reflexivity]. reflexivity.
Qed.

(** A turn of the idle loop leaves the mask empty and the table, the button
    input and the application's button handler as they were. *)
Lemma Hal_idleLoop_body_frame (m : Machine C) :
  handlerEvents (hal (exec Hal_idleLoop_body m)) = 0
  /\ handlerTab (hal (exec Hal_idleLoop_body m)) = handlerTab (hal m)
  /\ regs (hal (exec Hal_idleLoop_body m)) P2IN = regs (hal m) P2IN
  /\ appButtonHandler (hal (exec Hal_idleLoop_body m)) = appButtonHandler (hal m).
Proof.
  destruct (Z.eq_dec (handlerEvents (hal m)) 0) as [E0|Hne].
  - rewrite exec_Hal_idleLoop_body_idle by assumption.
    repeat (split; [reflexivity|]). reflexivity.
  - rewrite exec_Hal_idleLoop_body by assumption.
    repeat (split; [reflexivity|]). reflexivity.
Qed.

Lemma drain_calls_sorted (h : Hal) (events : Z) :
  StronglySorted Z.lt (map fst (drain_calls h events)).
Proof.
  unfold drain_calls, slot_call.
  destruct (Z.testbit events 0), (Z.testbit events 1), (Z.testbit events 2);
    destruct (handlerTab h !! Z.to_nat 0) as [[?|]|];
    destruct (handlerTab h !! Z.to_nat 1) as [[?|]|];
    destruct (handlerTab h !! Z.to_nat 2) as [[?|]|];
    cbn [app map fst]; repeat constructor; lia.
Qed.

(** How often a drain calls the handler of a slot. *)
Lemma calls_drain (h h' : Hal) (events id : Z) :
  0 <= id < NUM_HANDLERS ->
  calls id (stamp h (drain_run h' events))
  = match handlerTab h' !! Z.to_nat id with
    | Some (Some _) => if Z.testbit events id then 1%nat else 0%nat
    | _ => 0%nat
    end.
Proof.
  intros Hid. rewrite calls_invocations, invocations_drain_run.
  unfold drain_calls. rewrite !List.filter_app, !length_app, !calls_slot.
  unfold NUM_HANDLERS in Hid.
  assert (id = 0 \/ id = 1 \/ id = 2) as [->|[->| ->]] by lia;
    cbn [Z.eqb andb];
    destruct (handlerTab h' !! Z.to_nat 0) as [[?|]|];
    destruct (handlerTab h' !! Z.to_nat 1) as [[?|]|];
    destruct (handlerTab h' !! Z.to_nat 2) as [[?|]|];
    rewrite ?andb_false_r, ?andb_true_r;
    destruct (Z.testbit events 0), (Z.testbit events 1), (Z.testbit events 2);
    reflexivity.
Qed.

Lemma calls_Hal_idleLoop_body (m : Machine C) (id : Z) :
  0 <= id < NUM_HANDLERS ->
  calls id (trace Hal_idleLoop_body m)
  = match handlerTab (hal m) !! Z.to_nat id with
    | Some (Some _) =>
        if Z.testbit (handlerEvents (hal m)) id then 1%nat else 0%nat
    | _ => 0%nat
    end.
Proof.
  intros Hid. destruct (Z.eq_dec (handlerEvents (hal m)) 0) as [E0|Hne].
  - unfold calls. pose proof (trace_Hal_idleLoop_body_idle m E0) as Et.
    destruct (trace Hal_idleLoop_body m) as [|[h e] [|o l]]; try discriminate.
    cbn in Et. injection Et as ->. rewrite E0, Z.bits_0.
    now destruct (handlerTab (hal m) !! Z.to_nat id) as [[?|]|].
  - rewrite trace_Hal_idleLoop_body by assumption. now apply calls_drain.
Qed.

(** *** [postEvent] *)

Lemma postEvent_mask (id : Z) (m : Machine C) :
  handlerEvents (hal (exec (postEvent id) m))
  = wrap16 (Z.lor (handlerEvents (hal m)) (Z.shiftl 1 id)).
Proof. reflexivity. Qed.

Lemma postEvent_masked (id : Z) (m : Machine C) :
  masked (hal m) -> masked (hal (exec (postEvent id) m)).
Proof.
  unfold masked. intros Hm. run. change 8 with GIE. rewrite Hm.
  change (wrap8 0) with 0. rewrite Z.lor_0_r, wrap16_idem. apply masked_bic.
Qed.

(** With interrupts masked no routine is served. *)
Lemma interrupt_masked (isr : M C unit) (m : Machine C) :
  masked (hal m) -> exec (interrupt isr) m = m.
Proof.
  unfold masked. intros Hm. unfold interrupt. rewrite exec_bind.
  change (eval (rd SR) m) with (regs (hal m) SR). now rewrite Hm.
Qed.

Lemma post_all_frame (ids : list Z) (m : Machine C) :
  handlerTab (hal (exec (post_all ids) m)) = handlerTab (hal m)
  /\ regs (hal (exec (post_all ids) m)) P2IN = regs (hal m) P2IN
  /\ appButtonHandler (hal (exec (post_all ids) m)) = appButtonHandler (hal m).
Proof.
  revert m. induction ids as [|i ids IH]; intros m.
  - repeat split; reflexivity.
  - cbn [post_all]. rewrite exec_bind.
    destruct (IH (exec (postEvent i) m)) as (E1 & E2 & E3).
    rewrite E1, E2, E3. repeat split; reflexivity.
Qed.

Lemma post_all_mask (ids : list Z) (m : Machine C) (k : Z) :
  Forall (fun i => 0 <= i) ids -> 0 <= k < 16 ->
  Z.testbit (handlerEvents (hal (exec (post_all ids) m))) k
  = Z.testbit (handlerEvents (hal m)) k || existsb (Z.eqb k) ids.
Proof.
  intros Hids Hk. revert m. induction Hids as [|i ids Hi _ IH]; intros m.
  - cbn. now rewrite orb_false_r.
  - cbn [post_all existsb]. rewrite exec_bind, IH, postEvent_mask, post_bit by lia.
    rewrite (Z.eqb_sym k i). now rewrite orb_assoc.
Qed.

End Drains.

Section DispatcherClaims.
Context {C : Type} `{Codec C}.

(** C6: a turn of the idle loop that finds a non-empty mask logs the runs
    of slots 0, 1 and 2 one after the other, each slot's call followed by
    everything its handler logs before the next slot's call; the handlers
    run with interrupts enabled; the slots called are in strictly ascending
    order.  With bits 0 and 2 set and both slots bound, the log of the drain
    is the whole run of handler 0 followed by the run of handler 2. *)
Theorem C6_handlers_in_ascending_order (m : Machine C) :
  let events := handlerEvents (hal m) in
  events <> 0 ->
  exists h,
    trace Hal_idleLoop_body m
    = stamp h (slot_run (hal m) events 0 ++ slot_run (hal m) events 1
               ++ slot_run (hal m) events 2)
    /\ Z.land (regs h SR) GIE = GIE
    /\ invocations (trace Hal_idleLoop_body m) = drain_calls (hal m) events
    /\ StronglySorted Z.lt (map fst (invocations (trace Hal_idleLoop_body m)))
    /\ (forall f0 f2,
          events = 5 ->
          handlerTab (hal m) !! 0%nat = Some (Some f0) ->
          handlerTab (hal m) !! 2%nat = Some (Some f2) ->
          events_of (trace Hal_idleLoop_body m)
          = handler_run (hal m) 0 f0 ++ handler_run (hal m) 2 f2).
Proof.
  intros events Hne. exists (hal (drain_state m)).
  pose proof (trace_Hal_idleLoop_body m Hne) as Et. fold events in Et.
  split; [exact Et|]. split; [apply drain_state_unmasked|].
  rewrite Et, invocations_drain_run.
  split; [reflexivity|]. split; [apply drain_calls_sorted|].
  intros f0 f2 E5 E0 E2. rewrite events_of_stamp, E5.
  unfold drain_run, slot_run. change (Z.to_nat 0) with 0%nat.
  change (Z.to_nat 2) with 2%nat. rewrite E0, E2.
  change (Z.testbit 5 0) with true. change (Z.testbit 5 1) with false.
  change (Z.testbit 5 2) with true. reflexivity.
Qed.

(** C9: when the bit of a slot is set and the slot holds no handler, the
    turn of the idle loop completes, the slot contributes nothing to its
    log, no call is made for it, and every other slot whose bit is set and
    which holds a handler is called once. *)
Theorem C9_unbound_slot_is_skipped (m : Machine C) (id : Z) :
  0 <= id < NUM_HANDLERS ->
  Z.testbit (handlerEvents (hal m)) id = true ->
  handlerTab (hal m) !! Z.to_nat id = Some None ->
  let events := handlerEvents (hal m) in
  let t := trace Hal_idleLoop_body m in
  slot_run (hal m) events id = []
  /\ t = stamp (hal (drain_state m)) (drain_run (hal m) events)
  /\ calls id t = 0%nat
  /\ (forall f, ~ In (id, f) (invocations t))
  /\ (forall k f,
        0 <= k < NUM_HANDLERS ->
        Z.testbit events k = true ->
        handlerTab (hal m) !! Z.to_nat k = Some (Some f) ->
        calls k t = 1%nat /\ In (k, f) (invocations t))
  /\ (forall m' : Machine C,
        eval (dispatch_loop dispatch_fuel 0 1 events) m' = true).
Proof.
  intros Hid Hbit Hnone events t.
  assert (Hne : events <> 0).
  { intros E0. subst events. rewrite E0, Z.bits_0 in Hbit. discriminate. }
  assert (Et : t = stamp (hal (drain_state m)) (drain_run (hal m) events)).
  { apply trace_Hal_idleLoop_body. exact Hne. }
  split; [unfold slot_run; now rewrite Hnone, Tauto.if_same|].
  split; [exact Et|].
  split; [subst t; rewrite calls_Hal_idleLoop_body, Hnone by assumption;
          reflexivity|].
  split.
  - intros f Hin. rewrite Et, invocations_drain_run in Hin.
    apply in_drain_calls in Hin as (_ & _ & Hf). congruence.
  - split.
    + intros k f Hk Hb Hf. split.
      * subst t. rewrite calls_Hal_idleLoop_body, Hf by assumption.
        fold events. now rewrite Hb.
      * rewrite Et, invocations_drain_run. apply in_drain_calls.
        unfold NUM_HANDLERS in Hk. split; [lia|]. split; assumption.
    + intros m'. unfold eval. now rewrite dispatch_loop_run.
Qed.

(** C2: after a turn of the idle loop, post any identifiers any number of
    times; the next turn calls the handler bound to a slot once when it
    was posted, however often, and not at all when it was not.  A
    [postEvent] for a bit that is set leaves the mask as it is. *)
Theorem C2_posts_coalesce (m : Machine C) (ids : list Z) (id : Z) (f : Handler) :
  Forall (fun i => 0 <= i < NUM_HANDLERS) ids ->
  0 <= id < NUM_HANDLERS ->
  handlerTab (hal m) !! Z.to_nat id = Some (Some f) ->
  let m1 := exec Hal_idleLoop_body m in
  let m2 := exec (post_all ids) m1 in
  calls id (trace Hal_idleLoop_body m2)
  = (if existsb (Z.eqb id) ids then 1 else 0)%nat
  /\ (In id ids -> In (id, f) (invocations (trace Hal_idleLoop_body m2)))
  /\ handlerEvents (hal (exec (postEvent id) (exec (postEvent id) m2)))
     = handlerEvents (hal (exec (postEvent id) m2)).
Proof.
  intros Hids Hid Hf m1 m2.
  destruct (Hal_idleLoop_body_frame m) as (E0 & Et & _).
  destruct (post_all_frame ids m1) as (Et2 & _).
  assert (Hpos : Forall (fun i => 0 <= i) ids).
  { eapply Forall_impl; [exact Hids|]. cbn. intros; lia. }
  assert (Hb : Z.testbit (handlerEvents (hal m2)) id = existsb (Z.eqb id) ids).
  { subst m2. rewrite post_all_mask by (try assumption; unfold NUM_HANDLERS in *; lia).
    fold m1. unfold m1 at 1. now rewrite E0, Z.bits_0. }
  assert (Hf2 : handlerTab (hal m2) !! Z.to_nat id = Some (Some f)).
  { subst m2. rewrite Et2. subst m1. now rewrite Et. }
  split; [|split].
  - rewrite calls_Hal_idleLoop_body, Hf2, Hb by assumption. reflexivity.
  - intros Hin.
    assert (Hex : existsb (Z.eqb id) ids = true).
    { apply existsb_exists. exists id. split; [exact Hin|apply Z.eqb_refl]. }
    rewrite Hex in Hb.
    assert (Hne : handlerEvents (hal m2) <> 0).
    { intros Ez. rewrite Ez, Z.bits_0 in Hb. discriminate. }
    rewrite trace_Hal_idleLoop_body, invocations_drain_run by assumption.
    apply in_drain_calls. unfold NUM_HANDLERS in Hid.
    split; [lia|]. split; assumption.
  - rewrite !postEvent_mask. apply post_twice.
Qed.


End DispatcherClaims.

Lemma testbit_bic_byte (v : Z) : Z.testbit (wrap8 (Z.land v (Z.lnot BIT3))) 3 = false.
Proof.
  rewrite testbit_wrap8, Z.land_spec, Z.lnot_spec by lia.
  change (Z.testbit BIT3 3) with true. cbn. now rewrite andb_false_r.
Qed.

Lemma testbit_bis_byte (v : Z) : Z.testbit (wrap8 (Z.lor v BIT3)) 3 = true.
Proof.
  rewrite testbit_wrap8, Z.lor_spec.
  change (Z.testbit BIT3 3) with true. now rewrite orb_true_r.
Qed.

(** ** Receive path *)

Section Receive.
Context {C : Type} `{Codec C}.

Lemma rxIsr_log (m : Machine C) :
  let b := regs (hal m) UCA2RXBUF in
  let c1 := snd (fst (Em_Message_startRx (codec m))) in
  let complete := fst (fst (Em_Message_addByte b c1)) in
  exists h0 L1 h1 h2 h3 L2 h4 h5,
    log (exec (rxIsr 2) m)
    = log m ++ (h0, EvStartRx) :: L1
        ++ (h1, EvRxAck false) :: (h2, EvRxAck true) :: (h3, EvAddByte b) :: L2
        ++ (if complete then [(h4, EvPost DISPATCH_HANDLER_ID)] else [])
        ++ [(h5, EvWakeup)]
    /\ Forall (fun o => srt_event (snd o)) L1
    /\ Forall (fun o => srt_event (snd o)) L2
    /\ Z.testbit (regs h1 P1OUT) 3 = false
    /\ Z.testbit (regs h2 P1OUT) 3 = true
    /\ Z.testbit (regs h3 P1OUT) 3 = true
    /\ handlerEvents (hal (exec (rxIsr 2) m))
       = if complete
         then wrap16 (Z.lor (handlerEvents (hal m)) (Z.shiftl 1 DISPATCH_HANDLER_ID))
         else handlerEvents (hal m).
Proof.
  intros b c1 complete. unfold rxIsr. change (2 =? 2) with true. cbv iota.
  rewrite exec_bind. change (exec (rd UCA2RXBUF) m) with m.
  change (eval (rd UCA2RXBUF) m) with b.
  rewrite exec_bind, exec_extern. fold c1.
  destruct (srt_calls_effect (snd (Em_Message_startRx (codec m)))
              (mkMachine (hal m) c1 (log m ++ [(hal m, EvStartRx)])))
    as (ha & L1 & Ea & S1 & Va).
  rewrite Ea. cbn [hal codec log] in *.
  rewrite exec_bind. set (mb := exec EAP_RX_ACK_CLR _).
  rewrite exec_bind. set (mc := exec EAP_RX_ACK_SET _).
  rewrite exec_bind, exec_extern, eval_extern.
  change (codec mc) with c1. fold complete.
  destruct (srt_calls_effect (snd (Em_Message_addByte b c1))
              (mkMachine (hal mc) (snd (fst (Em_Message_addByte b c1)))
                 (log mc ++ [(hal mc, EvAddByte b)])))
    as (hd & L2 & Ed & S2 & Vd).
  rewrite Ed. cbn [hal codec log] in *.
  exists (hal m), L1, (hal mb), (hal mc), (hal mc), L2, hd.
  assert (Vc : handlerEvents hd = handlerEvents (hal m)).
  { rewrite Vd. subst mc mb. cbn. exact Va. }
  destruct complete.
  - eexists. split; [|split; [exact S1|split; [exact S2|]]].
    + run. rewrite <- !app_assoc. cbn [app]. reflexivity.
    + split; [apply testbit_bic_byte|]. split; [apply testbit_bis_byte|].
      split; [apply testbit_bis_byte|]. run. now rewrite Vc.
  - eexists. split; [|split; [exact S1|split; [exact S2|]]].
    + run. rewrite <- !app_assoc. cbn [app]. reflexivity.
    + split; [apply testbit_bic_byte|]. split; [apply testbit_bis_byte|].
      split; [apply testbit_bis_byte|]. run. exact Vc.
Qed.

(** C8: entered for a received byte, [rxIsr] calls [Em_Message_startRx],
    drives [EAP_RX_ACK] low and then high, and calls [Em_Message_addByte]
    with the byte of the receive buffer, in this order; [postEvent] for the
    dispatch slot follows exactly when [Em_Message_addByte] returned true. *)
Theorem C8_receive_interrupt (m : Machine C) :
  let b := regs (hal m) UCA2RXBUF in
  let c1 := snd (fst (Em_Message_startRx (codec m))) in
  let complete := fst (fst (Em_Message_addByte b c1)) in
  exists h0 L1 h1 h2 h3 L2 h4 h5,
    trace (rxIsr 2) m
    = (h0, EvStartRx) :: L1
        ++ (h1, EvRxAck false) :: (h2, EvRxAck true) :: (h3, EvAddByte b) :: L2
        ++ (if complete then [(h4, EvPost DISPATCH_HANDLER_ID)] else [])
        ++ [(h5, EvWakeup)]
    /\ Forall (fun o => srt_event (snd o)) L1
    /\ Forall (fun o => srt_event (snd o)) L2
    /\ Z.testbit (regs h1 P1OUT) 3 = false
    /\ Z.testbit (regs h2 P1OUT) 3 = true
    /\ occurrences (EvPost DISPATCH_HANDLER_ID) (trace (rxIsr 2) m)
       = (if complete then 1 else 0)%nat
    /\ handlerEvents (hal (exec (rxIsr 2) m))
       = if complete
         then wrap16 (Z.lor (handlerEvents (hal m)) (Z.shiftl 1 DISPATCH_HANDLER_ID))
         else handlerEvents (hal m).
Proof.
  intros b c1 complete.
  destruct (rxIsr_log m) as (h0 & L1 & h1 & h2 & h3 & L2 & h4 & h5 & E & S1 & S2
                             & B1 & B2 & _ & V).
  fold b c1 complete in E, V. apply trace_eq in E.
  exists h0, L1, h1, h2, h3, L2, h4, h5.
  split; [exact E|]. split; [exact S1|]. split; [exact S2|].
  split; [exact B1|]. split; [exact B2|]. split; [|exact V].
  rewrite E, occurrences_cons, occurrences_app, !occurrences_cons,
    occurrences_app, occurrences_app.
  rewrite (occurrences_srt _ L1), (occurrences_srt _ L2) by (cbn; tauto).
  now destruct complete.
Qed.

End Receive.

(** ** The watchdog over time *)

Lemma gie_reti (sr : Z) :
  Z.land (wrap16 (wrap16 (Z.land (wrap16 sr) (Z.lnot LPM3_bits)))) GIE
  = Z.land sr GIE.
Proof.
  change GIE with (2 ^ 3). rewrite !land_pow2 by lia.
  rewrite !testbit_wrap16, Z.land_spec, testbit_wrap16, Z.lnot_spec by lia.
  change (Z.testbit LPM3_bits 3) with false. cbn. now rewrite andb_true_r.
Qed.

Lemma wrap16_inj (t a b : Z) :
  wrap16 (t + a) = wrap16 (t + b) -> - 2 ^ 16 < a - b < 2 ^ 16 -> a = b.
Proof.
  unfold wrap16. intros E Hr.
  pose proof (Z.div_mod (t + a) (2 ^ 16)) as Ha.
  pose proof (Z.div_mod (t + b) (2 ^ 16)) as Hb.
  change (2 ^ 16) with 65536 in *. lia.
Qed.

Lemma ticks_cons (i : Input) (ins : list Input) :
  ticks (i :: ins) = (if is_tick i then 1 else 0) + ticks ins.
Proof.
  unfold ticks. cbn [List.filter]. destruct (is_tick i); cbn [length]; lia.
Qed.

Lemma ticks_nonneg (ins : list Input) : 0 <= ticks ins.
Proof. unfold ticks. lia. Qed.

Section WatchdogRun.
Context {C : Type} `{Codec C}.

Lemma exec_interrupt (isr : M C unit) (m : Machine C) :
  Z.land (regs (hal m) SR) GIE = GIE ->
  exec (interrupt isr) m
  = exec RETI (exec isr (exec (irq_entry (regs (hal m) SR)) m)).
Proof.
  intros Hg. unfold interrupt. rewrite exec_bind.
  change (eval (rd SR) m) with (regs (hal m) SR). rewrite Hg.
  change (GIE =? 0) with false. cbv iota. change (exec (rd SR) m) with m.
  now rewrite !exec_bind.
Qed.

Lemma exec_extern_silent {A} (e : Event) (f : C -> A * C * list SrtCall)
    (m : Machine C) :
  snd (f (codec m)) = [] ->
  exec (extern e f) m
  = mkMachine (hal m) (snd (fst (f (codec m)))) (log m ++ [(hal m, e)]).
Proof. intros Hs. rewrite exec_extern, Hs. reflexivity. Qed.

Ltac served :=
  run; rewrite <- ?app_assoc; cbn [app];
  eexists _, _, _; split; [reflexivity|]; split; [reflexivity|];
  unfold same_watch; run; repeat (split; [reflexivity|]); apply gie_reti.

(** Served with interrupts enabled, the routines other than the watchdog's
    log no restart and leave the watchdog, the timer and [GIE] alone. *)
Lemma interrupt_timerIsr (m : Machine C) :
  Z.land (regs (hal m) SR) GIE = GIE ->
  exists h c L,
    exec (interrupt timerIsr) m = mkMachine h c (log m ++ L)
    /\ occurrences EvRestart L = 0%nat
    /\ same_watch h (hal m).
Proof. intros Hg. rewrite exec_interrupt by assumption. served. Qed.

Lemma interrupt_buttonIsr (m : Machine C) :
  Z.land (regs (hal m) SR) GIE = GIE ->
  exists h c L,
    exec (interrupt buttonIsr) m = mkMachine h c (log m ++ L)
    /\ occurrences EvRestart L = 0%nat
    /\ same_watch h (hal m).
Proof. intros Hg. rewrite exec_interrupt by assumption. served. Qed.

Lemma interrupt_txAckIsr (m : Machine C) :
  silent C ->
  Z.land (regs (hal m) SR) GIE = GIE ->
  exists h c L,
    exec (interrupt txAckIsr) m = mkMachine h c (log m ++ L)
    /\ occurrences EvRestart L = 0%nat
    /\ same_watch h (hal m).
Proof.
  intros Hs Hg. rewrite exec_interrupt by assumption.
  set (m1 := exec (irq_entry (regs (hal m) SR)) m).
  unfold txAckIsr. rewrite exec_bind.
  change (exec EAP_TX_ACK_TST m1) with m1.
  destruct (eval EAP_TX_ACK_TST m1).
  - unfold when. rewrite 3!exec_bind, exec_extern_silent, eval_extern
      by apply (Hs (codec m1) 0).
    destruct (fst (fst (Em_Message_getByte (codec m1)))); subst m1; served.
  - subst m1; served.
Qed.

Lemma interrupt_rxIsr (m : Machine C) :
  silent C ->
  Z.land (regs (hal m) SR) GIE = GIE ->
  exists h c L,
    exec (interrupt (rxIsr 2)) m = mkMachine h c (log m ++ L)
    /\ occurrences EvRestart L = 0%nat
    /\ same_watch h (hal m).
Proof.
  intros Hs Hg. rewrite exec_interrupt by assumption.
  set (m1 := exec (irq_entry (regs (hal m) SR)) m).
  unfold rxIsr. change (2 =? 2) with true. cbv iota.
  rewrite exec_bind. change (exec (rd UCA2RXBUF) m1) with m1.
  rewrite exec_bind, exec_extern_silent by apply (Hs (codec m1) 0).
  rewrite 3!exec_bind, exec_extern_silent, eval_extern by apply Hs.
  match goal with |- context [when ?b _] => destruct b end; subst m1; served.
Qed.

(** The watchdog's routine logs one restart and leaves its interrupt
    off. *)
Lemma interrupt_uartWatchdogIsr (m : Machine C) :
  silent C ->
  Z.land (regs (hal m) SR) GIE = GIE ->
  exists h c L,
    exec (interrupt (uartWatchdogIsr 2)) m = mkMachine h c (log m ++ L)
    /\ occurrences EvRestart L = 1%nat
    /\ disarmed h.
Proof.
  intros Hs Hg. rewrite exec_interrupt by assumption.
  set (m1 := exec (irq_entry (regs (hal m) SR)) m).
  unfold uartWatchdogIsr. change (2 =? 2) with true. cbv iota.
  rewrite 2!exec_bind, exec_extern_silent by apply (Hs (codec m1) 0).
  subst m1. run. rewrite <- ?app_assoc; cbn [app].
  eexists _, _, _. split; [reflexivity|]. split; [reflexivity|].
  unfold disarmed. run. split; [reflexivity|]. rewrite gie_reti. exact Hg.
Qed.

End WatchdogRun.

Lemma Input_eq_tick (i : Input) : {i = InTick} + {i <> InTick}.
Proof. destruct i; [left; reflexivity|right; discriminate..]. Qed.

Section WatchdogSteps.
Context {C : Type} `{Codec C}.

Lemma quiet_ret (m : Machine C) : quiet (ret tt) m.
Proof.
  exists (hal m), (codec m), []. rewrite app_nil_r. destruct m.
  split; [reflexivity|]. split; [reflexivity|]. unfold same_watch. tauto.
Qed.

Lemma quiet_when (b : bool) (c : M C unit) (m : Machine C) :
  quiet c m -> quiet (when b c) m.
Proof. destruct b; [trivial|intros _; apply quiet_ret]. Qed.

Lemma exec_compare (ccr ctl : Reg) (t : Z) (isr : M C unit) (m : Machine C) :
  exec (compare ccr ctl t isr) m
  = exec (when (negb (Z.land (regs (hal m) ctl) CCIE =? 0) && (t =? regs (hal m) ccr))
            (interrupt isr)) m.
Proof. reflexivity. Qed.

Lemma hw_step_quiet (i : Input) (m : Machine C) :
  silent C -> i <> InTick ->
  Z.land (regs (hal m) SR) GIE = GIE ->
  quiet (hw_step i) m.
Proof.
  intros Hs Hi Hg. destruct i as [| |b|]; [congruence| | |]; cbn [hw_step].
  - unfold quiet. rewrite exec_bind.
    apply (interrupt_txAckIsr (exec (bis P1IFG BIT2) m) Hs Hg).
  - unfold quiet. rewrite 2!exec_bind.
    apply (quiet_when _ _ (exec (wr UCA2RXBUF b) m)).
    apply (interrupt_rxIsr (exec (wr UCA2RXBUF b) m) Hs Hg).
  - unfold quiet. rewrite 2!exec_bind.
    apply (quiet_when _ _ (exec (bis P2IFG BIT6) m)).
    apply (interrupt_buttonIsr (exec (bis P2IFG BIT6) m) Hg).
Qed.

Lemma timer_count_effect (m : Machine C) :
  eval timer_count m = wrap16 (regs (hal m) TA1R + 1)
  /\ regs (hal (exec timer_count m)) TA1R = wrap16 (regs (hal m) TA1R + 1)
  /\ regs (hal (exec timer_count m)) TA1CCTL1 = regs (hal m) TA1CCTL1
  /\ regs (hal (exec timer_count m)) TA1CCR1 = regs (hal m) TA1CCR1
  /\ regs (hal (exec timer_count m)) SR = regs (hal m) SR
  /\ log (exec timer_count m) = log m.
Proof. repeat (split; [reflexivity|]). reflexivity. Qed.

(** A tick while the watchdog is armed: the restart is logged at the tick
    that brings the timer to the deadline, and at no earlier one. *)
Lemma tick_armed (t0 k : Z) (m : Machine C) :
  silent C -> armed t0 k (hal m) -> 0 <= k < UART_WATCHDOG_PERIOD ->
  exists h c L,
    exec (hw_step InTick) m = mkMachine h c (log m ++ L)
    /\ ((k + 1 < UART_WATCHDOG_PERIOD /\ occurrences EvRestart L = 0%nat
         /\ armed t0 (k + 1) h)
        \/ (k + 1 = UART_WATCHDOG_PERIOD /\ occurrences EvRestart L = 1%nat
            /\ disarmed h)).
Proof.
  intros Hs (A1 & A2 & A3 & A4) Hk. cbn [hw_step]. rewrite 2!exec_bind.
  destruct (timer_count_effect m) as (Et & T1 & T2 & T3 & T4 & T5).
  rewrite Et. set (m1 := exec timer_count m) in *.
  set (t := wrap16 (regs (hal m) TA1R + 1)) in *.
  assert (Ht : t = wrap16 (t0 + (k + 1))).
  { subst t. rewrite <- wrap16_add_l, A3, wrap16_add_l. f_equal. lia. }
  assert (Hg1 : Z.land (regs (hal m1) SR) GIE = GIE) by (rewrite T4; exact A4).
  assert (Q : quiet (compare TA1CCR0 TA1CCTL0 t timerIsr) m1).
  { unfold quiet. rewrite exec_compare. apply quiet_when.
    apply interrupt_timerIsr. exact Hg1. }
  destruct Q as (h2 & c2 & L2 & E2 & O2 & (W1 & W2 & W3 & W4)).
  rewrite E2, T5. rewrite exec_compare. cbn [hal].
  rewrite W1, W2, T2, T3, A1, A2. change (negb (Z.land CCIE CCIE =? 0)) with true.
  cbn [andb]. rewrite Ht.
  destruct (Z.eqb_spec (wrap16 (t0 + (k + 1))) (wrap16 (t0 + UART_WATCHDOG_PERIOD)))
    as [Eq|Hne].
  - apply wrap16_inj in Eq; [|change UART_WATCHDOG_PERIOD with 8192 in *; lia].
    cbn [when].
    destruct (interrupt_uartWatchdogIsr (mkMachine h2 c2 (log m ++ L2)) Hs)
      as (h3 & c3 & L3 & E3 & O3 & D3).
    { cbn [hal]. rewrite W4. exact Hg1. }
    rewrite E3. cbn [log]. rewrite <- app_assoc.
    exists h3, c3, (L2 ++ L3). split; [reflexivity|]. right.
    split; [exact Eq|]. split; [rewrite occurrences_app, O2, O3; reflexivity|exact D3].
  - cbn [when]. exists h2, c2, L2. split; [reflexivity|]. left.
    assert (k + 1 <> UART_WATCHDOG_PERIOD) by congruence.
    split; [lia|]. split; [exact O2|].
    unfold armed. rewrite W1, W2, W3, W4, T1, T2, T3, A1, A2.
    fold t. rewrite Ht, wrap16_idem. repeat split. exact Hg1.
Qed.

Lemma tick_disarmed (m : Machine C) :
  disarmed (hal m) ->
  exists h c L,
    exec (hw_step InTick) m = mkMachine h c (log m ++ L)
    /\ occurrences EvRestart L = 0%nat /\ disarmed h.
Proof.
  intros (D1 & D2). cbn [hw_step]. rewrite 2!exec_bind.
  destruct (timer_count_effect m) as (Et & T1 & T2 & T3 & T4 & T5).
  rewrite Et. set (m1 := exec timer_count m) in *.
  set (t := wrap16 (regs (hal m) TA1R + 1)) in *.
  assert (Hg1 : Z.land (regs (hal m1) SR) GIE = GIE) by (rewrite T4; exact D2).
  assert (Q : quiet (compare TA1CCR0 TA1CCTL0 t timerIsr) m1).
  { unfold quiet. rewrite exec_compare. apply quiet_when.
    apply interrupt_timerIsr. exact Hg1. }
  destruct Q as (h2 & c2 & L2 & E2 & O2 & (W1 & W2 & W3 & W4)).
  rewrite E2, T5. rewrite exec_compare. cbn [hal].
  rewrite W1, T2, D1. change (negb (Z.land 0 CCIE =? 0)) with false.
  cbn [andb when]. exists h2, c2, L2. split; [reflexivity|].
  split; [exact O2|]. unfold disarmed. rewrite W1, W4, T2, D1. split; [reflexivity|exact Hg1].
Qed.

Lemma step_disarmed (i : Input) (m : Machine C) :
  silent C -> disarmed (hal m) ->
  exists h c L,
    exec (hw_step i) m = mkMachine h c (log m ++ L)
    /\ occurrences EvRestart L = 0%nat /\ disarmed h.
Proof.
  intros Hs D. destruct (Input_eq_tick i) as [->|Hi].
  - now apply tick_disarmed.
  - destruct D as (D1 & D2).
    destruct (hw_step_quiet i m Hs Hi D2) as (h & c & L & E & O & (W1 & _ & _ & W4)).
    exists h, c, L. split; [exact E|]. split; [exact O|].
    unfold disarmed. rewrite W1, W4. split; assumption.
Qed.

Lemma run_disarmed (ins : list Input) (m : Machine C) :
  silent C -> disarmed (hal m) ->
  exists h c L,
    exec (hw_run ins) m = mkMachine h c (log m ++ L)
    /\ occurrences EvRestart L = 0%nat /\ disarmed h.
Proof.
  intros Hs. revert m. induction ins as [|i ins IH]; intros m D.
  - exists (hal m), (codec m), []. rewrite app_nil_r. destruct m.
    split; [reflexivity|]. split; [reflexivity|exact D].
  - cbn [hw_run]. rewrite exec_bind.
    destruct (step_disarmed i m Hs D) as (h1 & c1 & L1 & E1 & O1 & D1).
    rewrite E1.
    destruct (IH (mkMachine h1 c1 (log m ++ L1)) D1) as (h2 & c2 & L2 & E2 & O2 & D2).
    rewrite E2. cbn [log]. rewrite <- app_assoc.
    exists h2, c2, (L1 ++ L2). split; [reflexivity|].
    split; [rewrite occurrences_app, O1, O2; reflexivity|exact D2].
Qed.

Lemma run_armed (ins : list Input) (t0 k : Z) (m : Machine C) :
  silent C -> armed t0 k (hal m) -> 0 <= k < UART_WATCHDOG_PERIOD ->
  exists h c L,
    exec (hw_run ins) m = mkMachine h c (log m ++ L)
    /\ occurrences EvRestart L
       = (if UART_WATCHDOG_PERIOD <=? k + ticks ins then 1%nat else 0%nat)
    /\ (k + ticks ins < UART_WATCHDOG_PERIOD -> armed t0 (k + ticks ins) h).
Proof.
  intros Hs. revert k m. induction ins as [|i ins IH]; intros k m A Hk.
  - exists (hal m), (codec m), []. rewrite app_nil_r. destruct m.
    change (ticks []) with 0. rewrite Z.add_0_r.
    split; [reflexivity|]. split; [|intros _; exact A].
    destruct (Z.leb_spec UART_WATCHDOG_PERIOD k); [lia|reflexivity].
  - cbn [hw_run]. rewrite exec_bind, ticks_cons.
    pose proof (ticks_nonneg ins) as Hn.
    destruct (Input_eq_tick i) as [->|Hi].
    + cbn [is_tick].
      destruct (tick_armed t0 k m Hs A Hk) as (h1 & c1 & L1 & E1 & [(Hlt & O1 & A1)|(Heq & O1 & D1)]).
      * rewrite E1.
        destruct (IH (k + 1) (mkMachine h1 c1 (log m ++ L1)) A1) as (h2 & c2 & L2 & E2 & O2 & A2); [lia|].
        rewrite E2. cbn [log]. rewrite <- app_assoc.
        exists h2, c2, (L1 ++ L2). split; [reflexivity|].
        rewrite occurrences_app, O1, O2. replace (k + (1 + ticks ins)) with (k + 1 + ticks ins) by lia.
        split; [reflexivity|exact A2].
      * rewrite E1.
        destruct (run_disarmed ins (mkMachine h1 c1 (log m ++ L1)) Hs D1) as (h2 & c2 & L2 & E2 & O2 & D2).
        rewrite E2. cbn [log]. rewrite <- app_assoc.
        exists h2, c2, (L1 ++ L2). split; [reflexivity|].
        rewrite occurrences_app, O1, O2.
        split; [|intros; lia].
        destruct (Z.leb_spec UART_WATCHDOG_PERIOD (k + (1 + ticks ins))); [reflexivity|lia].
    + assert (Et : is_tick i = false) by (destruct i; [congruence|reflexivity..]).
      rewrite Et. destruct A as (A1 & A2 & A3 & A4).
      destruct (hw_step_quiet i m Hs Hi A4) as (h1 & c1 & L1 & E1 & O1 & (W1 & W2 & W3 & W4)).
      rewrite E1.
      destruct (IH k (mkMachine h1 c1 (log m ++ L1))) as (h2 & c2 & L2 & E2 & O2 & A5); [|assumption|].
      { unfold armed. cbn [hal]. rewrite W1, W2, W3, W4. repeat split; assumption. }
      rewrite E2. cbn [log]. rewrite <- app_assoc.
      exists h2, c2, (L1 ++ L2). split; [reflexivity|].
      rewrite occurrences_app, O1, O2. split; [reflexivity|exact A5].
Qed.
End WatchdogSteps.

Lemma quiet_codec_silent : silent unit.
Proof. intros c b. repeat split; reflexivity. Qed.

(** C3, as the specification states it, fails: the watchdog is armed,
    8191 ticks pass, an edge of [EAP_TX_ACK] is served, and the next tick
    still calls [Em_Message_restart]. *)
Lemma C3_ack_one_tick_before_expiry_does_not_cancel :
  let ins := repeat InTick (Z.to_nat (UART_WATCHDOG_PERIOD - 1)) ++ [InTxAck; InTick] in
  has_ack ins = true
  /\ ticks ins = UART_WATCHDOG_PERIOD
  /\ occurrences EvRestart (trace (hw_run ins) (exec Em_Hal_watchOn boot)) = 1%nat.
Proof.
  set (ins := repeat InTick (Z.to_nat (UART_WATCHDOG_PERIOD - 1)) ++ [InTxAck; InTick]).
  assert (Ht : ticks ins = UART_WATCHDOG_PERIOD) by (vm_compute; reflexivity).
  assert (Ha : has_ack ins = true) by (vm_compute; reflexivity).
  clearbody ins. cbv zeta. split; [exact Ha|]. split; [exact Ht|].
  destruct (run_armed ins (regs hal_boot TA1R) 0 (exec Em_Hal_watchOn boot)
              quiet_codec_silent) as (h & c & L & E & O & _).
  - repeat split; reflexivity.
  - split; [lia|reflexivity].
  - rewrite (trace_eq _ _ L) by (rewrite E; reflexivity).
    rewrite O, Ht. reflexivity.
Qed.

(** ** The theorems at concrete machines *)

Lemma C2_posts_coalesce_witness :
  let t := trace Hal_idleLoop_body
             (exec (post_all [1; 2; 1; 1]) (exec Hal_idleLoop_body ready)) in
  calls 1 t = 1%nat /\ In (1, fn_app 1) (invocations t).
Proof.
  destruct (C2_posts_coalesce ready [1; 2; 1; 1] 1 (fn_app 1)) as (Hc & Hi & _).
  - repeat constructor; unfold NUM_HANDLERS; lia.
  - unfold NUM_HANDLERS. lia.
  - reflexivity.
  - split; [exact Hc|]. apply Hi. simpl. tauto.
Defined.

Lemma C6_handlers_in_ascending_order_witness :
  let m := exec (post_all [2; 0]) ready in
  events_of (trace Hal_idleLoop_body m)
  = handler_run (hal m) 0 fn_buttonHandler
    ++ handler_run (hal m) 2 fn_Em_Message_dispatch.
Proof.
  destruct (C6_handlers_in_ascending_order (exec (post_all [2; 0]) ready))
    as (h & _ & _ & _ & _ & Hex).
  - vm_compute. discriminate.
  - apply Hex; reflexivity.
Defined.

Lemma C9_unbound_slot_is_skipped_witness :
  let m := exec (post_all [1; 2]) (exec (Hal_tickStart 100 None) ready) in
  calls 1 (trace Hal_idleLoop_body m) = 0%nat
  /\ calls 2 (trace Hal_idleLoop_body m) = 1%nat.
Proof.
  destruct (C9_unbound_slot_is_skipped
              (exec (post_all [1; 2]) (exec (Hal_tickStart 100 None) ready)) 1)
    as (_ & _ & H1 & _ & H2 & _).
  - unfold NUM_HANDLERS. lia.
  - reflexivity.
  - reflexivity.
  - split; [exact H1|].
    destruct (H2 2 fn_Em_Message_dispatch) as [Hc _].
    + unfold NUM_HANDLERS. lia.
    + reflexivity.
    + reflexivity.
    + exact Hc.
Defined.

(** * Further properties *)

(** ** Bits, again *)

Lemma sr_roundtrip (sr : Z) :
  wrap16 (Z.lor (wrap16 (Z.land sr (Z.lnot GIE))) (wrap8 (Z.land sr 8)))
  = wrap16 sr.
Proof.
  apply Z.bits_inj'. intros k Hk.
  rewrite !testbit_wrap16, Z.lor_spec, testbit_wrap16, testbit_wrap8,
    !Z.land_spec, Z.lnot_spec by lia.
  change GIE with (2 ^ 3). change 8 with (2 ^ 3).
  rewrite Z.pow2_bits_eqb by lia.
  destruct (Z.eqb_spec 3 k) as [<-|Hne]; cbn.
  - now rewrite andb_false_r, andb_true_r.
  - rewrite andb_false_r, andb_true_r, andb_false_r, orb_false_r.
    destruct (k <? 16); reflexivity.
Qed.

Lemma land_wrap16_low (x b : Z) : 0 <= b < 2 ^ 16 -> Z.land (wrap16 x) b = Z.land x b.
Proof.
  intros Hb. apply Z.bits_inj'. intros k Hk.
  rewrite !Z.land_spec, testbit_wrap16.
  destruct (Z.ltb_spec k 16) as [Hlt|Hge]; [reflexivity|].
  cbn. rewrite (Z.bits_above_log2 b k); [now rewrite andb_false_r|lia|].
  destruct (Z.eq_dec b 0) as [->|Hnz]; [change (Z.log2 0) with 0; lia|].
  apply Z.log2_lt_pow2; [lia|].
  pose proof (Z.pow_le_mono_r 2 16 k). lia.
Qed.

Lemma byte_bic_other (v b k : Z) :
  0 <= k < 8 -> Z.testbit b k = false ->
  Z.testbit (wrap8 (Z.land v (Z.lnot b))) k = Z.testbit v k.
Proof.
  intros Hk Hb. rewrite testbit_wrap8, Z.land_spec, Z.lnot_spec, Hb by lia.
  assert (E : (k <? 8) = true) by (apply Z.ltb_lt; lia).
  now rewrite E, andb_true_r.
Qed.

Lemma byte_bis_other (v b k : Z) :
  0 <= k < 8 -> Z.testbit b k = false ->
  Z.testbit (wrap8 (Z.lor v b)) k = Z.testbit v k.
Proof.
  intros Hk Hb. rewrite testbit_wrap8, Z.lor_spec, Hb by lia.
  assert (E : (k <? 8) = true) by (apply Z.ltb_lt; lia).
  now rewrite E, orb_false_r.
Qed.

Lemma byte_bis_set (v b k : Z) :
  0 <= k < 8 -> Z.testbit b k = true ->
  Z.testbit (wrap8 (Z.lor v b)) k = true.
Proof.
  intros Hk Hb. rewrite testbit_wrap8, Z.lor_spec, Hb by lia.
  assert (E : (k <? 8) = true) by (apply Z.ltb_lt; lia).
  now rewrite E, orb_true_r.
Qed.

Lemma byte_bic_clear (v b k : Z) :
  0 <= k -> Z.testbit b k = true ->
  Z.testbit (wrap8 (Z.land v (Z.lnot b))) k = false.
Proof.
  intros Hk Hb. rewrite testbit_wrap8, Z.land_spec, Z.lnot_spec, Hb by lia.
  cbn. now rewrite andb_false_r, andb_false_r.
Qed.

Lemma bit3_cases (k : Z) : 0 <= k < 8 -> k <> 3 -> Z.testbit BIT3 k = false.
Proof.
  intros Hk Hne.
  assert (k = 0 \/ k = 1 \/ k = 2 \/ k = 4 \/ k = 5 \/ k = 6 \/ k = 7)
    as [->|[->|[->|[->|[->|[->| ->]]]]]] by lia; reflexivity.
Qed.

(** ** What the SRT-HAL interface keeps *)

Lemma srt_frame_refl (h : Hal) : srt_frame h h.
Proof. unfold srt_frame. repeat split; auto. Qed.

Lemma srt_frame_trans (a b c : Hal) :
  srt_frame a b -> srt_frame b c -> srt_frame a c.
Proof.
  intros (A1 & A2 & A3 & A3' & A4 & A5 & A6 & A7 & A8)
         (B1 & B2 & B3 & B3' & B4 & B5 & B6 & B7 & B8).
  unfold srt_frame. split; [|split; [|split; [|split; [|split]]]].
  - intros r Hr. now rewrite A1, B1.
  - congruence.
  - intros k Hk Hne. now rewrite A3, B3.
  - auto.
  - auto.
  - repeat split; congruence.
Qed.

Section SrtFrame.
Context {C : Type} `{Codec C}.

(** The shape of the reset pulse and the state it leaves. *)
Lemma Em_Hal_reset_shape (m : Machine C) :
  exists h h1 h2,
    exec Em_Hal_reset m
    = mkMachine h (codec m)
        (log m ++ (h1, EvRxAck false) :: repeat (h1, EvDelayCycles MCLK_TICKS_PER_MS) 100
               ++ (h2, EvRxAck true) :: repeat (h2, EvDelayCycles MCLK_TICKS_PER_MS) 500)
    /\ srt_frame h (hal m)
    /\ masked h1 /\ masked h2
    /\ Z.testbit (regs h1 P1OUT) 3 = false
    /\ Z.testbit (regs h2 P1OUT) 3 = true
    /\ Z.testbit (regs h P1OUT) 3 = true
    /\ Z.testbit (regs h UCA2IFG) 0 = false
    /\ Z.testbit (regs h UCA2IFG) 1 = false
    /\ Z.testbit (regs h P1IFG) 2 = false
    /\ Z.testbit (regs h UCA2IE) 0 = true.
Proof.
  unfold Em_Hal_reset, Em_Hal_reset_with, idle. rewrite !exec_bind, !exec_Hal_delay.
  change (Z.to_nat (wrap16 100)) with 100%nat.
  change (Z.to_nat (wrap16 500)) with 500%nat.
  run. unfold logged. run. rewrite <- !app_assoc. cbn [app].
  eexists _, _, _. split; [reflexivity|].
  split; [|split; [|split]].
  - unfold srt_frame. split; [|split; [|split; [|split; [|split]]]].
    + intros r Hr. destruct r; try discriminate Hr; reflexivity.
    + run. now rewrite sr_roundtrip, wrap16_idem.
    + intros k Hk Hne. run.
      rewrite byte_bis_other, byte_bic_other by (auto using bit3_cases).
      reflexivity.
    + intros _. run. now apply byte_bis_set.
    + intros _. run. now apply byte_bis_set.
    + repeat split; reflexivity.
  - unfold masked. run. apply masked_bic.
  - unfold masked. run. apply masked_bic.
  - run. split; [now apply byte_bic_clear|]. split; [now apply byte_bis_set|].
    split; [now apply byte_bis_set|].
    split; [rewrite byte_bic_other by (lia || reflexivity); now apply byte_bic_clear|].
    split; [now apply byte_bic_clear|]. split; [now apply byte_bic_clear|].
    now apply byte_bis_set.
Qed.

Lemma srt_call_frame (c : SrtCall) (m : Machine C) :
  exists h L,
    exec (srt_call c) m = mkMachine h (codec m) (log m ++ L)
    /\ Forall (fun o => srt_event (snd o)) L
    /\ srt_frame h (hal m).
Proof.
  destruct c.
  - exists (hal (exec Em_Hal_watchOn m)), []. rewrite app_nil_r.
    split; [reflexivity|]. split; [constructor|].
    unfold srt_frame. split.
    + intros r Hr. destruct r; try discriminate Hr; reflexivity.
    + repeat split; auto.
  - exists (hal (exec Em_Hal_watchOff m)), []. rewrite app_nil_r.
    split; [reflexivity|]. split; [constructor|].
    unfold srt_frame. split.
    + intros r Hr. destruct r; try discriminate Hr; reflexivity.
    + repeat split; auto.
  - destruct (Em_Hal_reset_shape m) as (h & h1 & h2 & E & F & _).
    eexists h, _. split; [exact E|]. split; [|exact F].
    constructor; [exact I|]. apply Forall_app. split.
    + apply List.Forall_forall. intros o Ho. apply repeat_spec in Ho. now subst o.
    + constructor; [exact I|].
      apply List.Forall_forall. intros o Ho. apply repeat_spec in Ho. now subst o.
Qed.

Lemma srt_calls_frame (cs : list SrtCall) (m : Machine C) :
  exists h L,
    exec (srt_calls cs) m = mkMachine h (codec m) (log m ++ L)
    /\ Forall (fun o => srt_event (snd o)) L
    /\ srt_frame h (hal m).
Proof.
  revert m. induction cs as [|c cs IH]; intros m.
  - exists (hal m), []. rewrite app_nil_r. destruct m.
    split; [reflexivity|]. split; [constructor|apply srt_frame_refl].
  - cbn [srt_calls]. rewrite exec_bind.
    destruct (srt_call_frame c m) as (h1 & L1 & E1 & S1 & F1). rewrite E1.
    destruct (IH (mkMachine h1 (codec m) (log m ++ L1)))
      as (h2 & L2 & E2 & S2 & F2).
    exists h2, (L1 ++ L2). rewrite E2. cbn [codec log hal] in *.
    rewrite <- app_assoc.
    split; [reflexivity|]. split; [apply Forall_app; split; assumption|].
    eapply srt_frame_trans; eassumption.
Qed.

(** A call into the codec, with what it keeps. *)
Lemma extern_frame {A} (e : Event) (f : C -> A * C * list SrtCall) (m : Machine C) :
  exists h L,
    exec (extern e f) m
    = mkMachine h (snd (fst (f (codec m)))) (log m ++ (hal m, e) :: L)
    /\ Forall (fun o => srt_event (snd o)) L
    /\ srt_frame h (hal m).
Proof.
  destruct (srt_calls_frame (snd (f (codec m)))
              (mkMachine (hal m) (snd (fst (f (codec m)))) (log m ++ [(hal m, e)])))
    as (h & L & E & S & F).
  exists h, L. split; [|split; assumption].
  rewrite exec_extern, E. cbn [hal codec log]. now rewrite <- app_assoc.
Qed.

End SrtFrame.

(** ** Reading logs, again *)

Lemma tx_writes_app (l l' : list Obs) : tx_writes (l ++ l') = tx_writes l ++ tx_writes l'.
Proof. apply flat_map_app. Qed.

Lemma added_bytes_app (l l' : list Obs) :
  added_bytes (l ++ l') = added_bytes l ++ added_bytes l'.
Proof. apply flat_map_app. Qed.

Lemma tx_writes_cons (o : Obs) (l : list Obs) :
  tx_writes (o :: l)
  = match snd o with EvTxBuf b => [b] | _ => [] end ++ tx_writes l.
Proof. reflexivity. Qed.

Lemma added_bytes_cons (o : Obs) (l : list Obs) :
  added_bytes (o :: l)
  = match snd o with EvAddByte b => [b] | _ => [] end ++ added_bytes l.
Proof. reflexivity. Qed.

Lemma tx_writes_srt (l : list Obs) :
  Forall (fun o => srt_event (snd o)) l -> tx_writes l = [].
Proof.
  induction 1 as [|[h e] l He _ IH]; [reflexivity|].
  cbn in *. destruct e; try contradiction; exact IH.
Qed.

Lemma added_bytes_srt (l : list Obs) :
  Forall (fun o => srt_event (snd o)) l -> added_bytes l = [].
Proof.
  induction 1 as [|[h e] l He _ IH]; [reflexivity|].
  cbn in *. destruct e; try contradiction; exact IH.
Qed.

Lemma busy_cycles_app (l l' : list Obs) :
  busy_cycles (l ++ l') = busy_cycles l + busy_cycles l'.
Proof.
  induction l as [|[h e] l IH]; [reflexivity|].
  cbn [app]. unfold busy_cycles in *. cbn [fold_right snd].
  destruct e; rewrite IH; lia.
Qed.

Lemma busy_cycles_repeat (h : Hal) (n : Z) (k : nat) :
  busy_cycles (repeat (h, EvDelayCycles n) k) = n * Z.of_nat k.
Proof.
  induction k as [|k IH]; [cbn; lia|].
  cbn [repeat]. unfold busy_cycles in *. cbn [fold_right snd]. rewrite IH. lia.
Qed.

(** The bits of [SR] after the return from a routine that called
    [WAKEUP()]. *)
Lemma awake_reti (sr : Z) :
  Z.land (wrap16 (wrap16 (Z.land (wrap16 sr) (Z.lnot LPM3_bits)))) LPM3_bits = 0.
Proof.
  apply Z.bits_inj'. intros k Hk.
  rewrite Z.land_spec, !testbit_wrap16, Z.land_spec, testbit_wrap16,
    Z.lnot_spec, Z.bits_0 by lia.
  destruct (Z.testbit LPM3_bits k); cbn; now rewrite ?andb_false_r.
Qed.

(** ** The routines, served *)

Lemma gie_wrap16 (x : Z) : Z.land (wrap16 x) GIE = Z.land x GIE.
Proof. apply land_wrap16_low. unfold GIE. lia. Qed.

Section Served.
Context {C : Type} `{Codec C}.

Lemma txAckIsr_served (m : Machine C) :
  Z.land (regs (hal m) SR) GIE = GIE ->
  let r := Em_Message_getByte (codec m) in
  exists h L,
    exec (hw_step InTxAck) m = mkMachine h (snd (fst r)) (log m ++ L)
    /\ tx_writes L = match fst (fst r) with Some b => [wrap8 b] | None => [] end
    /\ regs h UCA2TXBUF = match fst (fst r) with
                          | Some b => wrap8 b
                          | None => regs (hal m) UCA2TXBUF
                          end
    /\ Z.land (regs h SR) GIE = GIE
    /\ Z.land (regs h SR) LPM3_bits = 0
    /\ Z.testbit (regs h P1IFG) 2 = false
    /\ handlerEvents h = handlerEvents (hal m).
Proof.
  intros Hg r. cbn [hw_step]. rewrite exec_bind.
  set (m0 := exec (bis P1IFG BIT2) m).
  assert (Hg0 : Z.land (regs (hal m0) SR) GIE = GIE) by exact Hg.
  rewrite (exec_interrupt _ m0 Hg0).
  set (m1 := exec (irq_entry (regs (hal m0) SR)) m0).
  unfold txAckIsr. rewrite exec_bind. change (exec EAP_TX_ACK_TST m1) with m1.
  assert (Ht : eval EAP_TX_ACK_TST m1 = true).
  { subst m1 m0. run. change BIT2 with (2 ^ 2).
    rewrite land_pow2_eqb, negb_involutive by lia. now apply byte_bis_set. }
  rewrite Ht. unfold when. rewrite 2!exec_bind, eval_extern.
  destruct (extern_frame EvGetByte Em_Message_getByte m1) as (h & L & E & S & F).
  rewrite E. change (codec m1) with (codec m). fold r.
  destruct F as (F1 & F2 & F3 & F3' & F4 & F5 & F6 & F7 & F8).
  pose proof (F1 IRQ_SR eq_refl) as Fi. pose proof (F1 UCA2TXBUF eq_refl) as Ft.
  destruct (fst (fst r)) as [b|].
  - eexists _, _. split.
    { run. rewrite <- ?app_assoc. cbn [app]. rewrite <- ?app_assoc. reflexivity. }
    split.
    { repeat (rewrite tx_writes_cons || rewrite tx_writes_app).
      rewrite (tx_writes_srt L S). reflexivity. }
    run. rewrite Fi. subst m1 m0. run.
    split; [reflexivity|]. split; [rewrite gie_reti; exact Hg|].
    split; [apply awake_reti|]. split; [now apply byte_bic_clear|exact F6].
  - eexists _, _. split.
    { run. rewrite <- ?app_assoc. cbn [app]. rewrite <- ?app_assoc. reflexivity. }
    split.
    { repeat (rewrite tx_writes_cons || rewrite tx_writes_app).
      rewrite (tx_writes_srt L S). reflexivity. }
    run. rewrite Fi, Ft. subst m1 m0. run.
    split; [reflexivity|]. split; [rewrite gie_reti; exact Hg|].
    split; [apply awake_reti|]. split; [now apply byte_bic_clear|exact F6].
Qed.


Lemma tx_run (n : nat) (m : Machine C) :
  Z.land (regs (hal m) SR) GIE = GIE ->
  exists h c L,
    exec (hw_run (repeat InTxAck n)) m = mkMachine h c (log m ++ L)
    /\ tx_writes L = tx_bytes n (codec m)
    /\ Z.land (regs h SR) GIE = GIE.
Proof.
  revert m. induction n as [|n IH]; intros m Hg.
  - exists (hal m), (codec m), []. rewrite app_nil_r. destruct m.
    split; [reflexivity|]. split; [reflexivity|exact Hg].
  - cbn [repeat hw_run tx_bytes]. rewrite exec_bind.
    destruct (txAckIsr_served m Hg) as (h1 & L1 & E1 & W1 & _ & G1 & _).
    rewrite E1.
    destruct (IH (mkMachine h1 (snd (fst (Em_Message_getByte (codec m))))
                    (log m ++ L1)) G1) as (h2 & c2 & L2 & E2 & W2 & G2).
    rewrite E2. cbn [log codec]. rewrite <- app_assoc.
    exists h2, c2, (L1 ++ L2). split; [reflexivity|].
    split; [|exact G2]. rewrite tx_writes_app, W1. cbn [codec] in W2.
    now rewrite W2.
Qed.

Lemma rxIsr_served (b : Z) (m : Machine C) :
  Z.land (regs (hal m) SR) GIE = GIE ->
  Z.testbit (regs (hal m) UCA2IE) 0 = true ->
  let c1 := snd (fst (Em_Message_startRx (codec m))) in
  let r := Em_Message_addByte (wrap8 b) c1 in
  exists h L,
    exec (hw_step (InRx b)) m = mkMachine h (snd (fst r)) (log m ++ L)
    /\ added_bytes L = [wrap8 b]
    /\ Z.land (regs h SR) GIE = GIE
    /\ Z.land (regs h SR) LPM3_bits = 0
    /\ Z.testbit (regs h UCA2IE) 0 = true
    /\ Z.testbit (regs h P1OUT) 3 = true
    /\ handlerEvents h
       = (if fst (fst r)
          then wrap16 (Z.lor (handlerEvents (hal m)) (Z.shiftl 1 DISPATCH_HANDLER_ID))
          else handlerEvents (hal m))
    /\ handlerTab h = handlerTab (hal m)
    /\ regs h P2IN = regs (hal m) P2IN
    /\ appButtonHandler h = appButtonHandler (hal m).
Proof.
  intros Hg He c1 r. cbn [hw_step]. rewrite 2!exec_bind.
  set (m0 := exec (wr UCA2RXBUF b) m).
  assert (Hen : eval (enabled UCA2IE UCRXIE) m0 = true).
  { subst m0. run. change UCRXIE with (2 ^ 0).
    rewrite land_pow2_eqb, negb_involutive by lia. exact He. }
  change (exec (enabled UCA2IE UCRXIE) m0) with m0. rewrite Hen. unfold when.
  assert (Hg0 : Z.land (regs (hal m0) SR) GIE = GIE) by exact Hg.
  rewrite (exec_interrupt _ m0 Hg0).
  set (m1 := exec (irq_entry (regs (hal m0) SR)) m0).
  unfold rxIsr. change (2 =? 2) with true. cbv iota.
  rewrite exec_bind. change (exec (rd UCA2RXBUF) m1) with m1.
  change (eval (rd UCA2RXBUF) m1) with (wrap8 b).
  rewrite exec_bind.
  destruct (extern_frame EvStartRx Em_Message_startRx m1) as (ha & La & Ea & Sa & Fa).
  rewrite Ea. change (codec m1) with (codec m). fold c1.
  rewrite exec_bind. set (mb := exec EAP_RX_ACK_CLR _).
  rewrite exec_bind. set (mc := exec EAP_RX_ACK_SET _).
  rewrite exec_bind, eval_extern.
  destruct (extern_frame (EvAddByte (wrap8 b)) (Em_Message_addByte (wrap8 b)) mc)
    as (hd & Ld & Ed & Sd & Fd).
  rewrite Ed. change (codec mc) with c1. fold r.
  assert (Fc : srt_frame (hal mc) ha).
  { subst mc mb. unfold srt_frame. split; [|split; [|split; [|split; [|split]]]].
    - intros q Hq. destruct q; try discriminate Hq; reflexivity.
    - reflexivity.
    - intros k Hk Hne. run.
      rewrite byte_bis_other, byte_bic_other by (auto using bit3_cases).
      reflexivity.
    - intros _. run. now apply byte_bis_set.
    - auto.
    - repeat split; reflexivity. }
  assert (B3 : Z.testbit (regs hd P1OUT) 3 = true).
  { destruct Fd as (_ & _ & _ & Fd3 & _). apply Fd3.
    subst mc mb. run. now apply byte_bis_set. }
  assert (F : srt_frame hd (hal m1)).
  { eapply srt_frame_trans; [exact Fd|]. eapply srt_frame_trans; eassumption. }
  destruct F as (F1 & F2 & F3 & F3' & F4 & F5 & F6 & F7 & F8).
  pose proof (F1 IRQ_SR eq_refl) as Fi. pose proof (F1 P2IN eq_refl) as Fp.
  assert (Hlog : log mc = log m ++ (hal m1, EvStartRx) :: La
                          ++ [(hal mb, EvRxAck false); (hal mc, EvRxAck true)]).
  { subst mc mb. run. rewrite <- ?app_assoc. cbn [app]. now rewrite <- ?app_assoc. }
  rewrite Hlog.
  destruct (fst (fst r)).
  - eexists _, _. split.
    { run. rewrite <- ?app_assoc. cbn [app]. rewrite <- ?app_assoc.
      reflexivity. }
    split; [repeat (rewrite added_bytes_cons || rewrite added_bytes_app);
            rewrite (added_bytes_srt La Sa), (added_bytes_srt Ld Sd); reflexivity|].
    run. rewrite Fi. subst m1 m0. run.
    split; [rewrite gie_reti; exact Hg|]. split; [apply awake_reti|].
    split; [apply F4; exact He|]. split; [exact B3|].
    split; [now rewrite F6|]. split; [exact F8|]. split; [exact Fp|exact F5].
  - eexists _, _. split.
    { run. rewrite <- ?app_assoc. cbn [app]. rewrite <- ?app_assoc.
      reflexivity. }
    split; [repeat (rewrite added_bytes_cons || rewrite added_bytes_app);
            rewrite (added_bytes_srt La Sa), (added_bytes_srt Ld Sd); reflexivity|].
    run. rewrite Fi. subst m1 m0. run.
    split; [rewrite gie_reti; exact Hg|]. split; [apply awake_reti|].
    split; [apply F4; exact He|]. split; [exact B3|].
    split; [exact F6|]. split; [exact F8|]. split; [exact Fp|exact F5].
Qed.


Lemma rx_run (bs : list Z) (m : Machine C) :
  Z.land (regs (hal m) SR) GIE = GIE ->
  Z.testbit (regs (hal m) UCA2IE) 0 = true ->
  exists h c L,
    exec (hw_run (map InRx bs)) m = mkMachine h c (log m ++ L)
    /\ added_bytes L = map wrap8 bs
    /\ Z.testbit (handlerEvents h) 2
       = Z.testbit (handlerEvents (hal m)) 2
         || existsb (fun x => x) (rx_flags bs (codec m))
    /\ handlerTab h = handlerTab (hal m)
    /\ regs h P2IN = regs (hal m) P2IN
    /\ appButtonHandler h = appButtonHandler (hal m).
Proof.
  revert m. induction bs as [|b bs IH]; intros m Hg He.
  - exists (hal m), (codec m), []. rewrite app_nil_r. destruct m.
    split; [reflexivity|]. split; [reflexivity|].
    split; [cbn; now rewrite orb_false_r|]. repeat split; reflexivity.
  - cbn [map hw_run rx_flags existsb]. rewrite exec_bind.
    destruct (rxIsr_served b m Hg He)
      as (h1 & L1 & E1 & A1 & G1 & _ & U1 & _ & V1 & T1 & P1 & B1).
    rewrite E1.
    set (c1 := snd (fst (Em_Message_addByte (wrap8 b)
                           (snd (fst (Em_Message_startRx (codec m))))))) in *.
    destruct (IH (mkMachine h1 c1 (log m ++ L1)) G1 U1)
      as (h2 & c2 & L2 & E2 & A2 & V2 & T2 & P2 & B2).
    rewrite E2. cbn [log codec hal] in *. rewrite <- app_assoc.
    exists h2, c2, (L1 ++ L2). split; [reflexivity|].
    split; [now rewrite added_bytes_app, A1, A2|].
    split; [|repeat split; congruence].
    rewrite V2, V1.
    destruct (fst (fst (Em_Message_addByte (wrap8 b)
                          (snd (fst (Em_Message_startRx (codec m))))))).
    + rewrite post_bit by (unfold DISPATCH_HANDLER_ID; lia).
      unfold DISPATCH_HANDLER_ID. change (2 =? 2) with true.
      cbn [orb]. rewrite !orb_true_r. reflexivity.
    + reflexivity.
Qed.

Lemma Em_Hal_startSend_effect (m : Machine C) :
  let r := Em_Message_startTx (codec m) in
  exists h L,
    exec Em_Hal_startSend m = mkMachine h (snd (fst r)) (log m ++ L)
    /\ tx_writes L = [wrap8 (fst (fst r))]
    /\ regs h UCA2TXBUF = wrap8 (fst (fst r))
    /\ Z.land (regs h SR) GIE = Z.land (regs (hal m) SR) GIE.
Proof.
  intros r. unfold Em_Hal_startSend. rewrite exec_bind, eval_extern.
  destruct (extern_frame EvStartTx Em_Message_startTx m) as (h & L & E & S & F).
  rewrite E. fold r. destruct F as (_ & F2 & _).
  eexists _, _. split.
  { run. rewrite <- ?app_assoc. cbn [app]. rewrite <- ?app_assoc. reflexivity. }
  split.
  { repeat (rewrite tx_writes_cons || rewrite tx_writes_app).
    rewrite (tx_writes_srt L S). reflexivity. }
  run. split; [reflexivity|].
  now rewrite <- (gie_wrap16 (regs h SR)), F2, gie_wrap16.
Qed.

End Served.

Section Transport.
Context {C : Type} `{Codec C}.

(** X1: a message goes out in order.  [Em_Hal_startSend] writes the byte
    that [Em_Message_startTx] returns to [EAP_TX_BUF]; each following edge
    of [EAP_TX_ACK] writes the byte that [Em_Message_getByte] supplies, and
    nothing when it supplies none: the bytes written are the codec's, one
    per edge, in the codec's order. *)
Theorem transmit_in_order (m : Machine C) (n : nat) :
  Z.land (regs (hal m) SR) GIE = GIE ->
  let r := Em_Message_startTx (codec m) in
  tx_writes (trace (Em_Hal_startSend ;; hw_run (repeat InTxAck n)) m)
  = wrap8 (fst (fst r)) :: tx_bytes n (snd (fst r)).
Proof.
  intros Hg r.
  destruct (Em_Hal_startSend_effect m) as (h1 & L1 & E1 & W1 & _ & G1).
  fold r in E1, W1. rewrite Hg in G1.
  destruct (tx_run n (mkMachine h1 (snd (fst r)) (log m ++ L1)) G1)
    as (h2 & c2 & L2 & E2 & W2 & _).
  rewrite (trace_eq _ _ (L1 ++ L2)).
  - rewrite tx_writes_app, W1, W2. reflexivity.
  - rewrite exec_bind, E1, E2. cbn [log]. now rewrite <- app_assoc.
Qed.

(** X2: received bytes reach the codec in order, and a frame is dispatched
    once.  With the receive interrupt enabled, every byte that arrives is
    given to [Em_Message_addByte], once and in the order of arrival; the
    turn of the idle loop that follows calls the handler of the dispatch
    slot once when [Em_Message_addByte] answered true for at least one of
    them (or the bit was pending), and not at all otherwise. *)
Theorem receive_in_order_one_dispatch (m : Machine C) (bs : list Z) (f : Handler) :
  Z.land (regs (hal m) SR) GIE = GIE ->
  Z.testbit (regs (hal m) UCA2IE) 0 = true ->
  handlerTab (hal m) !! Z.to_nat DISPATCH_HANDLER_ID = Some (Some f) ->
  let m' := exec (hw_run (map InRx bs)) m in
  added_bytes (trace (hw_run (map InRx bs)) m) = map wrap8 bs
  /\ calls DISPATCH_HANDLER_ID (trace Hal_idleLoop_body m')
     = if Z.testbit (handlerEvents (hal m)) 2
          || existsb (fun x => x) (rx_flags bs (codec m))
       then 1%nat else 0%nat.
Proof.
  intros Hg He Hf m'.
  destruct (rx_run bs m Hg He) as (h & c & L & E & A & V & T & _).
  split.
  - rewrite (trace_eq _ _ L) by (rewrite E; reflexivity). exact A.
  - rewrite calls_Hal_idleLoop_body by (unfold NUM_HANDLERS, DISPATCH_HANDLER_ID; lia).
    subst m'. rewrite E. cbn [hal]. rewrite T, Hf.
    unfold DISPATCH_HANDLER_ID. now rewrite V.
Qed.

End Transport.

(** ** Sleep and wake-up *)

Lemma lpm3_wrap16 (x : Z) : Z.land (wrap16 x) LPM3_bits = Z.land x LPM3_bits.
Proof. apply land_wrap16_low. unfold LPM3_bits, SCG1, SCG0, CPUOFF. lia. Qed.

Lemma awake_bic (x : Z) : Z.land (wrap16 (Z.land x (Z.lnot LPM3_bits))) LPM3_bits = 0.
Proof.
  apply Z.bits_inj'. intros k Hk.
  rewrite Z.land_spec, testbit_wrap16, Z.land_spec, Z.lnot_spec, Z.bits_0 by lia.
  destruct (Z.testbit LPM3_bits k); cbn; now rewrite ?andb_false_r.
Qed.

Lemma gie_bic_lpm3 (x : Z) :
  Z.land (wrap16 (Z.land x (Z.lnot LPM3_bits))) GIE = Z.land x GIE.
Proof.
  change GIE with (2 ^ 3). rewrite !land_pow2 by lia.
  rewrite testbit_wrap16, Z.land_spec, Z.lnot_spec by lia.
  change (Z.testbit LPM3_bits 3) with false. cbn. now rewrite andb_true_r.
Qed.

Lemma lor_sub (x a b : Z) : Z.land a b = b -> Z.land (Z.lor x a) b = b.
Proof.
  intros E. rewrite Z.land_lor_distr_l, E. apply Z.bits_inj'. intros k _.
  rewrite Z.lor_spec, Z.land_spec. destruct (Z.testbit x k), (Z.testbit b k); reflexivity.
Qed.

Section Wake.
Context {C : Type} `{Codec C}.

(** A routine that reaches [WAKEUP()] leaves the stacked [SR] without the
    low-power bits; the others return at once. *)
Lemma routine_irq_sr (v : Vector) (m : Machine C) :
  if wakes v
  then regs (hal (exec (routine v) m)) IRQ_SR
       = wrap16 (Z.land (regs (hal m) IRQ_SR) (Z.lnot LPM3_bits))
  else exec (routine v) m = m.
Proof.
  destruct v as [|iv| | |iv]; cbn [wakes routine].
  - reflexivity.
  - unfold rxIsr. destruct (iv =? 2); [|now destruct m].
    rewrite exec_bind. change (exec (rd UCA2RXBUF) m) with m.
    rewrite exec_bind.
    destruct (extern_frame EvStartRx Em_Message_startRx m) as (ha & La & Ea & _ & Fa).
    rewrite Ea. rewrite 3!exec_bind, eval_extern.
    set (mc := exec EAP_RX_ACK_SET _).
    destruct (extern_frame (EvAddByte (eval (rd UCA2RXBUF) m))
                (Em_Message_addByte (eval (rd UCA2RXBUF) m)) mc)
      as (hd & Ld & Ed & _ & Fd).
    rewrite Ed. destruct Fa as (Fa & _). destruct Fd as (Fd & _).
    pose proof (Fa IRQ_SR eq_refl) as Ia. pose proof (Fd IRQ_SR eq_refl) as Id.
    assert (Ic : regs hd IRQ_SR = regs (hal m) IRQ_SR).
    { rewrite Id. subst mc. run. exact Ia. }
    match goal with |- context [when ?b _] => destruct b end; run; now rewrite Ic.
  - reflexivity.
  - unfold txAckIsr. rewrite exec_bind. change (exec EAP_TX_ACK_TST m) with m.
    destruct (eval EAP_TX_ACK_TST m); [|reflexivity].
    unfold when. rewrite 2!exec_bind, eval_extern.
    destruct (extern_frame EvGetByte Em_Message_getByte m) as (h & L & E & _ & F).
    rewrite E. destruct F as (F & _). pose proof (F IRQ_SR eq_refl) as Fi.
    destruct (fst (fst (Em_Message_getByte (codec m)))); run; now rewrite Fi.
  - unfold uartWatchdogIsr. destruct (iv =? 2); [|now destruct m].
    rewrite 2!exec_bind.
    destruct (extern_frame EvRestart Em_Message_restart (exec UART_WATCH_DISABLE m))
      as (h & L & E & _ & F).
    rewrite E. destruct F as (F & _). pose proof (F IRQ_SR eq_refl) as Fi.
    run. now rewrite Fi.
Qed.

(** X3: no wake-up is lost.  Whatever the processor's mode, an interrupt
    that is accepted returns with [GIE] set, and with the low-power bits of
    [SR] clear when its routine reaches [WAKEUP()]: the button's, the
    tick's and the handshake edge's always, the receive and watchdog
    routines when the interrupt vector register reads 2.  For any other
    vector value these two return without a wake-up and the processor goes
    back to the mode it was in. *)
Theorem accepted_interrupt_wakes (v : Vector) (m : Machine C) :
  Z.land (regs (hal m) SR) GIE = GIE ->
  let m' := exec (interrupt (routine v)) m in
  Z.land (regs (hal m') SR) GIE = GIE
  /\ Z.land (regs (hal m') SR) LPM3_bits
     = if wakes v then 0 else Z.land (regs (hal m) SR) LPM3_bits.
Proof.
  intros Hg m'. subst m'. rewrite exec_interrupt by assumption.
  set (m1 := exec (irq_entry (regs (hal m) SR)) m).
  assert (I1 : regs (hal m1) IRQ_SR = wrap16 (regs (hal m) SR)) by reflexivity.
  pose proof (routine_irq_sr v m1) as R.
  assert (E : regs (hal (exec RETI (exec (routine v) m1))) SR
              = wrap16 (regs (hal (exec (routine v) m1)) IRQ_SR)) by reflexivity.
  rewrite E. destruct (wakes v).
  - rewrite R, I1, wrap16_idem. split.
    + now rewrite gie_bic_lpm3, gie_wrap16.
    + apply awake_bic.
  - rewrite R, I1. split.
    + now rewrite !gie_wrap16.
    + now rewrite !lpm3_wrap16.
Qed.

Lemma no_sleep_slot (h h' : Hal) (events id : Z) :
  occurrences EvSleep (stamp h' (slot_run h events id)) = 0%nat.
Proof.
  unfold slot_run. destruct (Z.testbit events id); [|reflexivity].
  destruct (handlerTab h !! Z.to_nat id) as [[f|]|]; [|reflexivity|reflexivity].
  unfold handler_run, button_run.
  destruct f; [|reflexivity|reflexivity].
  destruct (Z.land (regs h P2IN) BIT6 =? 0), (appButtonHandler h); reflexivity.
Qed.

Lemma no_sleep_drain (h h' : Hal) (events : Z) :
  occurrences EvSleep (stamp h' (drain_run h events)) = 0%nat.
Proof.
  unfold drain_run, stamp. rewrite !map_app, !occurrences_app.
  fold (stamp h' (slot_run h events 0)). fold (stamp h' (slot_run h events 1)).
  fold (stamp h' (slot_run h events 2)). now rewrite !no_sleep_slot.
Qed.

(** X4: the idle loop goes to sleep only with an empty mask, and then with
    interrupts enabled.  A turn that finds the mask empty logs [SLEEP()]
    alone and leaves [GIE] and the low-power bits set; a turn that finds a
    bit set logs no [SLEEP()] and leaves the low-power bits as they
    were. *)
Theorem idle_loop_sleeps_iff_mask_empty (m : Machine C) :
  let m' := exec Hal_idleLoop_body m in
  Z.land (regs (hal m') SR) GIE = GIE
  /\ if handlerEvents (hal m) =? 0
     then events_of (trace Hal_idleLoop_body m) = [EvSleep]
          /\ Z.land (regs (hal m') SR) LPM3_bits = LPM3_bits
     else occurrences EvSleep (trace Hal_idleLoop_body m) = 0%nat
          /\ Z.land (regs (hal m') SR) LPM3_bits
             = Z.land (regs (hal m) SR) LPM3_bits.
Proof.
  intros m'. subst m'. destruct (handlerEvents (hal m) =? 0) eqn:E0.
  - apply Z.eqb_eq in E0. rewrite exec_Hal_idleLoop_body_idle by assumption.
    split; [|split].
    + unfold SLEEP. run. rewrite gie_wrap16. apply lor_sub. reflexivity.
    + now apply trace_Hal_idleLoop_body_idle.
    + unfold SLEEP. run. rewrite lpm3_wrap16. apply lor_sub. reflexivity.
  - apply Z.eqb_neq in E0. rewrite trace_Hal_idleLoop_body by assumption.
    rewrite exec_Hal_idleLoop_body by assumption. cbn [logged hal].
    split; [apply drain_state_unmasked|]. split.
    + apply no_sleep_drain.
    + unfold drain_state, drain_enter. run.
      rewrite lpm3_wrap16, Z.land_lor_distr_l.
      change (Z.land GIE LPM3_bits) with 0. rewrite Z.lor_0_r, lpm3_wrap16.
      rewrite <- Z.land_assoc. now change (Z.land (Z.lnot GIE) LPM3_bits) with LPM3_bits.
Qed.

End Wake.

(** ** The link reset, the lock and the delay *)

Section ResetPulse.
Context {C : Type} `{Codec C}.

(** X5: the reset pulse and the state of the link after it.
    [Em_Hal_reset] drives [EAP_RX_ACK] (P1.3) low, waits 100 delays of one
    millisecond, drives it high, and waits 500 more; nothing else is
    logged.  It returns with the line high, the receive and transmit flags
    of the UART and the flag of [EAP_TX_ACK] clear, the receive interrupt
    enabled, the 16 bits of [SR] as the caller had them, and every other
    register, the variables of the file and the codec untouched. *)
Theorem reset_pulse_and_link_state (m : Machine C) :
  let m' := exec Em_Hal_reset m in
  (exists h1 h2,
      trace Em_Hal_reset m
      = (h1, EvRxAck false) :: repeat (h1, EvDelayCycles MCLK_TICKS_PER_MS) 100
        ++ (h2, EvRxAck true) :: repeat (h2, EvDelayCycles MCLK_TICKS_PER_MS) 500
      /\ Z.testbit (regs h1 P1OUT) 3 = false
      /\ Z.testbit (regs h2 P1OUT) 3 = true)
  /\ busy_cycles (trace Em_Hal_reset m) = 600 * MCLK_TICKS_PER_MS
  /\ Z.testbit (regs (hal m') P1OUT) 3 = true
  /\ Z.testbit (regs (hal m') UCA2IFG) 0 = false
  /\ Z.testbit (regs (hal m') UCA2IFG) 1 = false
  /\ Z.testbit (regs (hal m') P1IFG) 2 = false
  /\ Z.testbit (regs (hal m') UCA2IE) 0 = true
  /\ wrap16 (regs (hal m') SR) = wrap16 (regs (hal m) SR)
  /\ (forall r, In r [IRQ_SR; TA1R; TA1CCR0; TA1CCTL0; TA1CCR1; TA1CCTL1; P2IN;
                      P2DIR; P2REN; P2OUT; P2IES; P2IFG; P2IE; UCA2RXBUF; UCA2TXBUF] ->
        regs (hal m') r = regs (hal m) r)
  /\ (forall k, 0 <= k < 8 -> k <> 3 ->
        Z.testbit (regs (hal m') P1OUT) k = Z.testbit (regs (hal m) P1OUT) k)
  /\ appButtonHandler (hal m') = appButtonHandler (hal m)
  /\ handlerEvents (hal m') = handlerEvents (hal m)
  /\ clockTick (hal m') = clockTick (hal m)
  /\ handlerTab (hal m') = handlerTab (hal m)
  /\ codec m' = codec m.
Proof.
  intros m'. subst m'.
  destruct (Em_Hal_reset_shape m)
    as (h & h1 & h2 & E & F & _ & _ & B1 & B2 & B3 & B4 & B5 & B6 & B7).
  rewrite (trace_eq Em_Hal_reset m _ (f_equal log E)), E. cbn [hal codec].
  destruct F as (F1 & F2 & F3 & _ & _ & F5 & F6 & F7 & F8).
  split; [exists h1, h2; split; [reflexivity|split; assumption]|].
  split.
  { change ((h1, EvRxAck false) :: repeat (h1, EvDelayCycles MCLK_TICKS_PER_MS) 100
            ++ (h2, EvRxAck true) :: repeat (h2, EvDelayCycles MCLK_TICKS_PER_MS) 500)
      with ([(h1, EvRxAck false)] ++ repeat (h1, EvDelayCycles MCLK_TICKS_PER_MS) 100
            ++ [(h2, EvRxAck true)] ++ repeat (h2, EvDelayCycles MCLK_TICKS_PER_MS) 500).
    rewrite !busy_cycles_app, !busy_cycles_repeat. reflexivity. }
  do 5 (split; [assumption|]). split; [exact F2|].
  split.
  { intros r Hr. assert (Hd : srt_touched r = false \/ r = TA1CCR1 \/ r = TA1CCTL1).
    { cbn in Hr. intuition (subst; auto). }
    destruct Hd as [Hd|Hd]; [now apply F1|].
    pose proof (f_equal (fun x => regs (hal x) r) E) as Er. cbn [hal] in Er.
    rewrite <- Er. unfold Em_Hal_reset, Em_Hal_reset_with, idle.
    rewrite !exec_bind, !exec_Hal_delay. destruct Hd as [-> | ->]; reflexivity. }
  split; [exact F3|]. do 4 (split; [assumption|]). reflexivity.
Qed.

(** X6: critical sections nest.  [Em_Hal_lock] returns the [GIE] bit of
    [SR] as it finds it, 0 or 8, and leaves interrupts masked.  A second
    section opened inside the first returns key 0, so its unlock leaves
    interrupts masked; the unlock of the outer section then restores the 16
    bits of [SR] that the first lock found.  [Em_Hal_unlock] can only set
    bits: whatever the key, it never masks interrupts. *)
Theorem critical_sections_nest (m : Machine C) (key : Z) :
  let k1 := eval Em_Hal_lock m in
  let m1 := exec Em_Hal_lock m in
  let k2 := eval Em_Hal_lock m1 in
  let m2 := exec (Em_Hal_unlock k2) (exec Em_Hal_lock m1) in
  k1 = Z.land (regs (hal m) SR) GIE
  /\ masked (hal m1)
  /\ k2 = 0
  /\ masked (hal m2)
  /\ wrap16 (regs (hal (exec (Em_Hal_unlock k1) m2)) SR) = wrap16 (regs (hal m) SR)
  /\ Z.testbit (regs (hal (exec (Em_Hal_unlock key) m)) SR) 3
     = Z.testbit (regs (hal m) SR) 3 || Z.testbit key 3.
Proof.
  cbv zeta.
  assert (K : forall x, wrap8 (Z.land x 8) = Z.land x GIE).
  { intros x. change 8 with (2 ^ 3). change GIE with (2 ^ 3).
    rewrite land_pow2 by lia. now destruct (Z.testbit x 3). }
  assert (M1 : masked (hal (exec Em_Hal_lock m))).
  { unfold masked, Em_Hal_lock. run. apply masked_bic. }
  split; [unfold Em_Hal_lock; run; apply K|].
  split; [exact M1|].
  assert (K2 : eval Em_Hal_lock (exec Em_Hal_lock m) = 0).
  { unfold masked in M1. unfold Em_Hal_lock at 1. run. rewrite K.
    unfold Em_Hal_lock. run. apply masked_bic. }
  split; [exact K2|]. rewrite K2.
  split.
  { unfold masked, Em_Hal_unlock, Em_Hal_lock. run.
    rewrite Z.lor_0_r, wrap16_idem. apply masked_bic. }
  split.
  { unfold Em_Hal_unlock, Em_Hal_lock. run.
    rewrite Z.lor_0_r, wrap16_idem.
    apply Z.bits_inj'. intros k Hk.
    repeat (rewrite testbit_wrap16 || rewrite testbit_wrap8 || rewrite Z.lor_spec
            || rewrite Z.land_spec || rewrite Z.lnot_spec by lia).
    change GIE with (2 ^ 3). change 8 with (2 ^ 3).
    rewrite Z.pow2_bits_eqb by lia.
    destruct (Z.eqb_spec 3 k) as [<-|Hne]; cbn.
    - now rewrite !andb_false_r, andb_true_r.
    - rewrite !andb_false_r, !andb_true_r, ?orb_false_r.
      destruct (k <? 16), (Z.testbit (regs (hal m) SR) k); reflexivity. }
  unfold Em_Hal_unlock. run. now rewrite testbit_wrap16, Z.lor_spec.
Qed.

(** X7: [Hal_delay(msecs)] burns 1000 cycles for each of the [msecs]
    milliseconds of its 16-bit argument, none for 0, and changes nothing:
    neither the registers and variables nor the codec, and interrupts stay
    as they were throughout. *)
Theorem delay_burns_msecs (m : Machine C) (msecs : Z) :
  busy_cycles (trace (Hal_delay msecs) m) = MCLK_TICKS_PER_MS * wrap16 msecs
  /\ Forall (fun o => fst o = hal m) (trace (Hal_delay msecs) m)
  /\ hal (exec (Hal_delay msecs) m) = hal m
  /\ codec (exec (Hal_delay msecs) m) = codec m.
Proof.
  rewrite (trace_eq (Hal_delay msecs) m _ (f_equal log (exec_Hal_delay msecs m))),
    exec_Hal_delay.
  split; [|split; [|split; reflexivity]].
  - rewrite busy_cycles_repeat. rewrite Z2Nat.id; [lia|].
    unfold wrap16. apply Z.mod_pos_bound. lia.
  - apply List.Forall_forall. intros o Ho. apply repeat_spec in Ho. now subst o.
Qed.

End ResetPulse.

(** ** The LEDs and the debug pins *)

Lemma testbit_BIT0 (k : Z) : 0 <= k -> Z.testbit BIT0 k = (k =? 0).
Proof. intros Hk. change BIT0 with (2 ^ 0). rewrite Z.pow2_bits_eqb by lia. apply Z.eqb_sym. Qed.

Lemma testbit_BIT1 (k : Z) : 0 <= k -> Z.testbit BIT1 k = (k =? 1).
Proof. intros Hk. change BIT1 with (2 ^ 1). rewrite Z.pow2_bits_eqb by lia. apply Z.eqb_sym. Qed.

Section LedProps.
Context {C : Type} `{Codec C}.

Lemma only_bit_write (k : Z) (c : M C unit) (f : Z -> Z) :
  (forall m, exec c m
             = mkMachine (set_regs (rf_write P1OUT (f (regs (hal m) P1OUT)) (regs (hal m)))
                            (hal m)) (codec m) (log m)) ->
  (forall v j, 0 <= j < 8 -> j <> k -> Z.testbit (wrap8 (f v)) j = Z.testbit v j) ->
  only_bit k c.
Proof.
  intros E Hf m. rewrite E. cbn [hal codec log set_regs appButtonHandler handlerEvents
    clockTick handlerTab regs].
  do 6 (split; [reflexivity|]). split.
  - intros r Hr. unfold rf_write. destruct (Reg_eq_dec P1OUT r); [congruence|reflexivity].
  - intros j Hj Hne. unfold rf_write. cbn. now apply Hf.
Qed.

(** X8: the LED functions keep to their own pin.  [Hal_ledOn],
    [Hal_ledOff] and [Hal_ledToggle] change bit 1 of [P1OUT] and nothing
    else, [Hal_connected] and [Hal_disconnected] bit 0 and nothing else: in
    particular none of them moves [EAP_RX_ACK], which is bit 3 of the same
    port, or the other LED. *)
Theorem leds_keep_to_their_pin :
  only_bit (C:=C) 1 Hal_ledOn /\ only_bit (C:=C) 1 Hal_ledOff
  /\ only_bit (C:=C) 1 Hal_ledToggle
  /\ only_bit (C:=C) 0 Hal_connected /\ only_bit (C:=C) 0 Hal_disconnected.
Proof.
  split; [|split; [|split; [|split]]].
  - apply (only_bit_write 1 _ (fun v => Z.lor v BIT1)); [reflexivity|].
    intros v j Hj Hne. apply byte_bis_other; [assumption|].
    rewrite testbit_BIT1 by lia. now apply Z.eqb_neq.
  - apply (only_bit_write 1 _ (fun v => Z.land v (Z.lnot BIT1))); [reflexivity|].
    intros v j Hj Hne. apply byte_bic_other; [assumption|].
    rewrite testbit_BIT1 by lia. now apply Z.eqb_neq.
  - apply (only_bit_write 1 _ (fun v => Z.lxor v BIT1)); [reflexivity|].
    intros v j Hj Hne. rewrite testbit_wrap8, Z.lxor_spec, testbit_BIT1 by lia.
    assert (E : (j <? 8) = true) by (apply Z.ltb_lt; lia).
    assert (E1 : (j =? 1) = false) by now apply Z.eqb_neq.
    now rewrite E, E1, xorb_false_r.
  - apply (only_bit_write 0 _ (fun v => Z.lor v BIT0)); [reflexivity|].
    intros v j Hj Hne. apply byte_bis_other; [assumption|].
    rewrite testbit_BIT0 by lia. now apply Z.eqb_neq.
  - apply (only_bit_write 0 _ (fun v => Z.land v (Z.lnot BIT0))); [reflexivity|].
    intros v j Hj Hne. apply byte_bic_other; [assumption|].
    rewrite testbit_BIT0 by lia. now apply Z.eqb_neq.
Qed.

Lemma eval_Hal_ledRead (m : Machine C) :
  eval Hal_ledRead m = Z.testbit (regs (hal m) P1OUT) 1.
Proof.
  unfold Hal_ledRead. run. change BIT1 with (2 ^ 1).
  rewrite land_pow2_eqb by lia. apply negb_involutive.
Qed.

(** X9: [Hal_ledRead] reads back what the LED functions did: true after
    [Hal_ledOn], false after [Hal_ledOff], the opposite of before after
    [Hal_ledToggle]; and toggling twice leaves the byte in [P1OUT] as it
    was.  It reads the output latch and changes nothing. *)
Theorem led_read_back (m : Machine C) :
  eval Hal_ledRead (exec Hal_ledOn m) = true
  /\ eval Hal_ledRead (exec Hal_ledOff m) = false
  /\ eval Hal_ledRead (exec Hal_ledToggle m) = negb (eval Hal_ledRead m)
  /\ regs (hal (exec (Hal_ledToggle ;; Hal_ledToggle) m)) P1OUT
     = wrap8 (regs (hal m) P1OUT)
  /\ exec Hal_ledRead m = m.
Proof.
  rewrite !eval_Hal_ledRead.
  split; [|split; [|split; [|split]]].
  - unfold Hal_ledOn. run. apply byte_bis_set; [lia|reflexivity].
  - unfold Hal_ledOff. run. apply byte_bic_clear; [lia|reflexivity].
  - unfold Hal_ledToggle. run. rewrite testbit_wrap8, Z.lxor_spec.
    change (Z.testbit BIT1 1) with true. cbn.
    now destruct (Z.testbit (regs (hal m) P1OUT) 1).
  - unfold Hal_ledToggle. run. apply Z.bits_inj'. intros k Hk.
    rewrite !testbit_wrap8, Z.lxor_spec, testbit_wrap8, Z.lxor_spec.
    destruct (k <? 8), (Z.testbit (regs (hal m) P1OUT) k), (Z.testbit BIT1 k); reflexivity.
  - now destruct m.
Qed.

End LedProps.

(** X10: a debug pulse is on followed by off, and leaves the pin of its
    line low and the other pins of port 4 as they were; for a line other
    than 1 and 2 the three debug functions change nothing. *)
Theorem debug_pulse_leaves_pin_low (line p4out : Z) :
  Hal_debugPulse line p4out = Hal_debugOff line (Hal_debugOn line p4out)
  /\ (wrap8 line = 1 \/ wrap8 line = 2 ->
      Z.testbit (Hal_debugOn line p4out) (wrap8 line - 1) = true
      /\ Z.testbit (Hal_debugOff line p4out) (wrap8 line - 1) = false
      /\ Z.testbit (Hal_debugPulse line p4out) (wrap8 line - 1) = false
      /\ forall k, 0 <= k < 8 -> k <> wrap8 line - 1 ->
           Z.testbit (Hal_debugOn line p4out) k = Z.testbit p4out k
           /\ Z.testbit (Hal_debugOff line p4out) k = Z.testbit p4out k
           /\ Z.testbit (Hal_debugPulse line p4out) k = Z.testbit p4out k)
  /\ (wrap8 line <> 1 -> wrap8 line <> 2 ->
      Hal_debugOn line p4out = p4out /\ Hal_debugOff line p4out = p4out
      /\ Hal_debugPulse line p4out = p4out).
Proof.
  unfold Hal_debugPulse, Hal_debugOff, Hal_debugOn.
  split; [|split].
  - destruct (wrap8 line =? 1); [reflexivity|]. destruct (wrap8 line =? 2); reflexivity.
  - intros [E|E]; rewrite E; cbn [Z.eqb Pos.eqb Z.sub Z.add Z.opp Z.pos_sub Z.succ_double
      Z.pred_double Z.double Pos.pred_double].
    + unfold DEBUG1_ON, DEBUG1_OFF. split; [|split; [|split]].
      * apply byte_bis_set; [lia|reflexivity].
      * apply byte_bic_clear; [lia|reflexivity].
      * apply byte_bic_clear; [lia|reflexivity].
      * intros k Hk Hne.
        assert (Hb : Z.testbit BIT0 k = false)
          by (rewrite testbit_BIT0 by lia; now apply Z.eqb_neq).
        now rewrite !byte_bic_other, !byte_bis_other by assumption.
    + unfold DEBUG2_ON, DEBUG2_OFF. split; [|split; [|split]].
      * apply byte_bis_set; [lia|reflexivity].
      * apply byte_bic_clear; [lia|reflexivity].
      * apply byte_bic_clear; [lia|reflexivity].
      * intros k Hk Hne.
        assert (Hb : Z.testbit BIT1 k = false)
          by (rewrite testbit_BIT1 by lia; now apply Z.eqb_neq).
        now rewrite !byte_bic_other, !byte_bis_other by assumption.
  - intros H1 H2. apply Z.eqb_neq in H1, H2. now rewrite H1, H2.
Qed.

(** ** The button *)

Lemma testbit_BIT6 (k : Z) : 0 <= k -> Z.testbit BIT6 k = (k =? 6).
Proof. intros Hk. change BIT6 with (2 ^ 6). rewrite Z.pow2_bits_eqb by lia. apply Z.eqb_sym. Qed.

Section Button.
Context {C : Type} `{Codec C}.

(** What [buttonIsr] leaves when the edge is served. *)
Lemma buttonIsr_served (m : Machine C) :
  Z.land (regs (hal m) SR) GIE = GIE ->
  Z.testbit (regs (hal m) P2IE) 6 = true ->
  let m' := exec (hw_step InButton) m in
  handlerEvents (hal m') = wrap16 (Z.lor (handlerEvents (hal m)) 1)
  /\ Z.land (regs (hal m') SR) GIE = GIE
  /\ Z.testbit (regs (hal m') P2IE) 6 = true
  /\ Z.testbit (regs (hal m') P2IFG) 6 = false
  /\ handlerTab (hal m') = handlerTab (hal m)
  /\ appButtonHandler (hal m') = appButtonHandler (hal m)
  /\ regs (hal m') P2IN = regs (hal m) P2IN
  /\ codec m' = codec m.
Proof.
  intros Hg He m'. subst m'. cbn [hw_step]. rewrite 2!exec_bind.
  set (m0 := exec (bis P2IFG BIT6) m).
  assert (Hg0 : Z.land (regs (hal m0) SR) GIE = GIE) by exact Hg.
  assert (E : eval (enabled P2IE BIT6) m0 = true).
  { subst m0. unfold enabled. run. change BIT6 with (2 ^ 6).
    now rewrite land_pow2_eqb, negb_involutive by lia. }
  rewrite E. change (exec (enabled P2IE BIT6) m0) with m0. unfold when.
  rewrite (exec_interrupt _ m0 Hg0). subst m0. run.
  split; [reflexivity|]. split; [rewrite gie_reti; exact Hg|].
  split; [apply byte_bis_set; [lia|reflexivity]|].
  split; [apply byte_bic_clear; [lia|reflexivity]|].
  repeat (split; [reflexivity|]). reflexivity.
Qed.

Lemma button_run_once (n : nat) (m : Machine C) :
  Z.land (regs (hal m) SR) GIE = GIE ->
  Z.testbit (regs (hal m) P2IE) 6 = true ->
  let m' := exec (hw_run (repeat InButton n)) m in
  handlerEvents (hal m')
  = match n with O => handlerEvents (hal m) | S _ => wrap16 (Z.lor (handlerEvents (hal m)) 1) end
  /\ handlerTab (hal m') = handlerTab (hal m)
  /\ appButtonHandler (hal m') = appButtonHandler (hal m)
  /\ regs (hal m') P2IN = regs (hal m) P2IN.
Proof.
  revert m. induction n as [|n IH]; intros m Hg He; cbv zeta.
  - repeat (split; [reflexivity|]). reflexivity.
  - cbn [repeat hw_run]. rewrite exec_bind.
    destruct (buttonIsr_served m Hg He) as (E1 & G1 & I1 & _ & T1 & A1 & P1 & _).
    destruct (IH _ G1 I1) as (E2 & T2 & A2 & P2).
    rewrite T2, A2, P2, E2, E1. split; [|repeat (split; [assumption|]); assumption].
    destruct n; [reflexivity|]. change 1 with (Z.shiftl 1 0). apply post_twice.
Qed.

(** What [Hal_buttonEnable] leaves. *)
Lemma Hal_buttonEnable_effect (handler : option Handler) (m : Machine C) :
  let m' := exec (Hal_buttonEnable handler) m in
  handlerTab (hal m') = <[0%nat := Some fn_buttonHandler]> (handlerTab (hal m))
  /\ appButtonHandler (hal m') = handler
  /\ handlerEvents (hal m') = handlerEvents (hal m)
  /\ regs (hal m') SR = regs (hal m) SR
  /\ regs (hal m') P2IN = regs (hal m) P2IN
  /\ Z.testbit (regs (hal m') P2IE) 6 = true
  /\ Z.testbit (regs (hal m') P2IFG) 6 = false.
Proof.
  cbv zeta. unfold Hal_buttonEnable, Hal_buttonEnable_with, idle.
  rewrite !exec_bind, exec_Hal_delay.
  unfold logged. run.
  do 5 (split; [reflexivity|]).
  split; [apply byte_bis_set; [lia|reflexivity]|apply byte_bic_clear; [lia|reflexivity]].
Qed.

(** X11: from the button to the application.  After
    [Hal_buttonEnable(handler)], one edge on the button or several before
    the idle loop's next turn make that turn call [buttonHandler] once: it
    waits the 100 milliseconds of the debounce and then calls [handler],
    provided the pin still reads pressed (low) and [handler] is not null;
    otherwise it returns without a call.  Nothing else runs in that
    turn. *)
Theorem button_press_reaches_application
    (m : Machine C) (handler : option Handler) (n : nat) :
  Z.land (regs (hal m) SR) GIE = GIE ->
  handlerEvents (hal m) = 0 ->
  length (handlerTab (hal m)) = Z.to_nat NUM_HANDLERS ->
  let m1 := exec (Hal_buttonEnable handler) m in
  let m2 := exec (hw_run (repeat InButton (S n))) m1 in
  events_of (trace Hal_idleLoop_body m2)
  = EvHandler BUTTON_HANDLER_ID fn_buttonHandler
    :: repeat (EvDelayCycles MCLK_TICKS_PER_MS) 100
    ++ match Z.land (regs (hal m) P2IN) BIT6 =? 0, handler with
       | true, Some f => [EvAppButton f]
       | _, _ => []
       end.
Proof.
  intros Hg E0 Hlen m1 m2.
  destruct (Hal_buttonEnable_effect handler m) as (T1 & A1 & V1 & S1 & P1 & I1 & _).
  fold m1 in T1, A1, V1, S1, P1, I1.
  assert (Hg1 : Z.land (regs (hal m1) SR) GIE = GIE) by (rewrite S1; exact Hg).
  destruct (button_run_once (S n) m1 Hg1 I1) as (V2 & T2 & A2 & P2).
  fold m2 in V2, T2, A2, P2. rewrite V1, E0 in V2. change (wrap16 (Z.lor 0 1)) with 1 in V2.
  rewrite trace_Hal_idleLoop_body by (rewrite V2; discriminate).
  rewrite events_of_stamp, V2. unfold drain_run, slot_run.
  change (Z.testbit 1 0) with true. change (Z.testbit 1 1) with false.
  change (Z.testbit 1 2) with false. cbv iota. rewrite !app_nil_r.
  rewrite T2, T1. change (Z.to_nat 0) with 0%nat.
  rewrite list_lookup_insert_eq by (rewrite Hlen; cbv; lia).
  unfold handler_run, button_run. now rewrite P2, P1, A2, A1.
Qed.

End Button.

(** ** The tick on the timer *)

Lemma tick_period_pos (p : Z) : 0 <= p < 2 ^ 16 -> 0 < tick_period p <= 2 ^ 16.
Proof. intros Hp. unfold tick_period. destruct (Z.eqb_spec p 0); lia. Qed.

Lemma wrap16_tick_period (t p : Z) : wrap16 (t + tick_period p) = wrap16 (t + p).
Proof.
  unfold tick_period. destruct (Z.eqb_spec p 0) as [->|]; [|reflexivity].
  unfold wrap16. now rewrite Z.add_0_r, Z.add_mod, Z.mod_same, Z.add_0_r, Z.mod_mod by lia.
Qed.

Section TickRate.
Context {C : Type} `{Codec C}.
Hypothesis Hnr : restart_without_reset C.

(** Without [Em_Hal_reset] the calls of the SRT-HAL interface log
    nothing. *)
Lemma log_srt_calls_no_reset (cs : list SrtCall) (m : Machine C) :
  ~ In CallReset cs -> log (exec (srt_calls cs) m) = log m.
Proof.
  revert m. induction cs as [|c cs IH]; intros m Hn; [reflexivity|].
  cbn [srt_calls]. rewrite exec_bind, IH by (intros Hin; apply Hn; now right).
  destruct c; [reflexivity|reflexivity|]. exfalso. apply Hn. now left.
Qed.

(** Whatever the watchdog's compare does at a tick, it posts no event,
    spends no delay cycle and leaves the tick's registers, the counter and
    [GIE] alone. *)
Lemma watchdog_compare_frame (t : Z) (m : Machine C) :
  exists h c L,
    exec (compare TA1CCR1 TA1CCTL1 t (uartWatchdogIsr 2)) m = mkMachine h c (log m ++ L)
    /\ occurrences (EvPost TICK_HANDLER_ID) L = 0%nat
    /\ busy_cycles L = 0
    /\ clockTick h = clockTick (hal m)
    /\ regs h TA1CCTL0 = regs (hal m) TA1CCTL0
    /\ regs h TA1CCR0 = regs (hal m) TA1CCR0
    /\ regs h TA1R = regs (hal m) TA1R
    /\ Z.land (regs h SR) GIE = Z.land (regs (hal m) SR) GIE.
Proof.
  assert (Same : exists h c L,
             m = mkMachine h c (log m ++ L)
             /\ occurrences (EvPost TICK_HANDLER_ID) L = 0%nat
             /\ busy_cycles L = 0
             /\ clockTick h = clockTick (hal m)
             /\ regs h TA1CCTL0 = regs (hal m) TA1CCTL0
             /\ regs h TA1CCR0 = regs (hal m) TA1CCR0
             /\ regs h TA1R = regs (hal m) TA1R
             /\ Z.land (regs h SR) GIE = Z.land (regs (hal m) SR) GIE).
  { exists (hal m), (codec m), []. rewrite app_nil_r. destruct m.
    repeat (split; [reflexivity|]). reflexivity. }
  unfold compare. rewrite 2!exec_bind.
  change (exec (rd TA1CCR1) m) with m.
  change (exec (enabled TA1CCTL1 CCIE) m) with m.
  destruct (eval (enabled TA1CCTL1 CCIE) m && (t =? eval (rd TA1CCR1) m));
    [|exact Same].
  unfold when. destruct (Z.eq_dec (Z.land (regs (hal m) SR) GIE) 0) as [Hm|Hnz].
  { rewrite interrupt_masked by exact Hm. exact Same. }
  assert (Hg : Z.land (regs (hal m) SR) GIE = GIE).
  { revert Hnz. change GIE with (2 ^ 3). rewrite land_pow2 by lia.
    destruct (Z.testbit (regs (hal m) SR) 3); congruence. }
  clear Same. rewrite exec_interrupt by assumption.
  set (m1 := exec (irq_entry (regs (hal m) SR)) m).
  unfold uartWatchdogIsr. change (2 =? 2) with true. cbv iota.
  rewrite 2!exec_bind.
  set (md := exec UART_WATCH_DISABLE m1).
  assert (El : log (exec (extern EvRestart Em_Message_restart) md)
               = log md ++ [(hal md, EvRestart)]).
  { rewrite exec_extern, log_srt_calls_no_reset by apply Hnr. reflexivity. }
  destruct (extern_frame EvRestart Em_Message_restart md) as (h & L & E & S & F).
  rewrite E in El |- *. cbn [log] in El. apply app_inv_head in El.
  injection El as ->.
  destruct F as (F1 & _ & _ & _ & _ & _ & _ & F7 & _).
  pose proof (F1 IRQ_SR eq_refl) as Fi. pose proof (F1 TA1CCTL0 eq_refl) as Fa.
  pose proof (F1 TA1CCR0 eq_refl) as Fb. pose proof (F1 TA1R eq_refl) as Fc.
  eexists _, _, _. split.
  { subst md. run. rewrite <- ?app_assoc. cbn [app]. rewrite <- ?app_assoc. reflexivity. }
  split; [reflexivity|]. split; [reflexivity|].
  run. rewrite Fi, Fa, Fb, Fc. subst md m1. run.
  split; [exact F7|]. do 3 (split; [reflexivity|]). rewrite gie_reti. reflexivity.
Qed.

(** One tick while the tick runs: the event is posted at the tick that
    brings the counter to the deadline, and at no other. *)
Lemma tick_ticking (p j : Z) (m : Machine C) :
  ticking p j (hal m) -> 0 <= p < 2 ^ 16 -> 0 <= j < tick_period p ->
  exists h c L,
    exec (hw_step InTick) m = mkMachine h c (log m ++ L)
    /\ busy_cycles L = 0
    /\ ((j + 1 < tick_period p /\ occurrences (EvPost TICK_HANDLER_ID) L = 0%nat
         /\ ticking p (j + 1) h)
        \/ (j + 1 = tick_period p /\ occurrences (EvPost TICK_HANDLER_ID) L = 1%nat
            /\ ticking p 0 h)).
Proof.
  intros (A1 & A2 & A3 & A4) Hp Hj. pose proof (tick_period_pos p Hp) as Hpp.
  cbn [hw_step]. rewrite 2!exec_bind.
  set (m1 := exec timer_count m).
  set (t := eval timer_count m).
  assert (Et : t = wrap16 (regs (hal m) TA1R + 1)) by reflexivity.
  assert (T1 : regs (hal m1) TA1R = t) by reflexivity.
  assert (Hg1 : Z.land (regs (hal m1) SR) GIE = GIE) by exact A4.
  assert (Ee : eval (enabled TA1CCTL0 CCIE) m1 = true).
  { subst m1. unfold enabled. run. now rewrite A2. }
  assert (Ed : eval (rd TA1CCR0) m1 = wrap16 (regs (hal m) TA1R + (tick_period p - j)))
    by exact A3.
  assert (Em : (t =? eval (rd TA1CCR0) m1) = (j + 1 =? tick_period p)).
  { rewrite Ed, Et. destruct (Z.eqb_spec (j + 1) (tick_period p)) as [Ej|Ej].
    - apply Z.eqb_eq. f_equal. lia.
    - apply Z.eqb_neq. intros Eq. apply wrap16_inj in Eq; lia. }
  assert (E2 : exec (compare TA1CCR0 TA1CCTL0 t timerIsr) m1
               = if j + 1 =? tick_period p then exec (interrupt timerIsr) m1 else m1).
  { unfold compare. rewrite 2!exec_bind.
    change (exec (rd TA1CCR0) m1) with m1.
    change (exec (enabled TA1CCTL0 CCIE) m1) with m1.
    rewrite Ee, Em. now destruct (j + 1 =? tick_period p). }
  rewrite E2. clear E2.
  destruct (Z.eqb_spec (j + 1) (tick_period p)) as [Ej|Ej].
  - rewrite (exec_interrupt _ m1 Hg1).
    set (m2 := exec RETI (exec timerIsr (exec (irq_entry (regs (hal m1) SR)) m1))).
    destruct (watchdog_compare_frame t m2)
      as (h & c & L & E & P & B & W1 & W2 & W3 & W4 & W5).
    rewrite E.
    assert (L2 : exists h1 h2, log m2 = log m ++ [(h1, EvPost TICK_HANDLER_ID); (h2, EvWakeup)]).
    { eexists _, _. subst m2. run. rewrite <- ?app_assoc. reflexivity. }
    destruct L2 as (h1 & h2 & L2). rewrite L2, <- app_assoc.
    eexists h, c, _. split; [reflexivity|].
    split; [rewrite busy_cycles_app, B; reflexivity|]. right.
    split; [exact Ej|]. split.
    + cbn [app]. rewrite 2!occurrences_cons, P. reflexivity.
    + unfold ticking. rewrite W1, W2, W3, W4, W5. subst m2. run.
      split; [exact A1|]. split; [exact A2|]. split; [|rewrite gie_reti; exact A4].
      rewrite A1, A3, Z.sub_0_r, wrap16_tick_period.
      replace (tick_period p - j) with 1 by lia. reflexivity.
  - destruct (watchdog_compare_frame t m1)
      as (h & c & L & E & P & B & W1 & W2 & W3 & W4 & W5).
    rewrite E. exists h, c, L. split; [reflexivity|]. split; [exact B|]. left.
    split; [lia|]. split; [exact P|].
    unfold ticking. rewrite W1, W2, W3, W4, W5.
    split; [exact A1|]. split; [exact A2|]. split; [|exact A4].
    rewrite T1, Et, wrap16_add_l. change (regs (hal m1) TA1CCR0) with (regs (hal m) TA1CCR0).
    rewrite A3. f_equal. lia.
Qed.

(** A run of ticks while the tick runs. *)
Lemma run_ticking (k : nat) (p j : Z) (m : Machine C) :
  ticking p j (hal m) -> 0 <= p < 2 ^ 16 -> 0 <= j < tick_period p ->
  exists h c L,
    exec (hw_run (repeat InTick k)) m = mkMachine h c (log m ++ L)
    /\ occurrences (EvPost TICK_HANDLER_ID) L
       = Z.to_nat ((j + Z.of_nat k) / tick_period p)
    /\ busy_cycles L = 0
    /\ ticking p ((j + Z.of_nat k) mod tick_period p) h.
Proof.
  intros A Hp. pose proof (tick_period_pos p Hp) as Hpp.
  revert j m A. induction k as [|k IH]; intros j m A Hj.
  - exists (hal m), (codec m), []. rewrite app_nil_r. destruct m.
    change (Z.of_nat 0) with 0. rewrite Z.add_0_r, Z.div_small, Z.mod_small by lia.
    split; [reflexivity|]. split; [reflexivity|]. split; [reflexivity|exact A].
  - cbn [repeat hw_run]. rewrite exec_bind.
    destruct (tick_ticking p j m A Hp Hj)
      as (h1 & c1 & L1 & E1 & B1 & [(Hlt & P1 & A1)|(Heq & P1 & A1)]); rewrite E1.
    + destruct (IH (j + 1) (mkMachine h1 c1 (log m ++ L1)) A1 ltac:(lia))
        as (h2 & c2 & L2 & E2 & P2 & B2 & A2).
      rewrite E2. cbn [log]. rewrite <- app_assoc.
      exists h2, c2, (L1 ++ L2). split; [reflexivity|].
      replace (j + Z.of_nat (S k)) with (j + 1 + Z.of_nat k) by lia.
      split; [now rewrite occurrences_app, P1, P2|].
      split; [rewrite busy_cycles_app, B1, B2; reflexivity|exact A2].
    + destruct (IH 0 (mkMachine h1 c1 (log m ++ L1)) A1 ltac:(lia))
        as (h2 & c2 & L2 & E2 & P2 & B2 & A2).
      rewrite E2. cbn [log]. rewrite <- app_assoc.
      exists h2, c2, (L1 ++ L2). split; [reflexivity|].
      replace (j + Z.of_nat (S k)) with (0 + Z.of_nat k + 1 * tick_period p) by lia.
      rewrite Z.div_add, Z.mod_add by lia.
      split; [|split; [rewrite busy_cycles_app, B1, B2; reflexivity|exact A2]].
      rewrite occurrences_app, P1, P2.
      rewrite Z2Nat.inj_add; [apply Nat.add_comm| |lia].
      apply Z.div_pos; lia.
Qed.

(** What [Hal_tickStart] leaves. *)
Lemma Hal_tickStart_ticking (msecs : Z) (handler : option Handler) (m : Machine C) :
  Z.land (regs (hal m) SR) GIE = GIE ->
  ticking (wrap16 (Z.quot (ACLK_TICKS_PER_SECOND * wrap16 msecs) 1000)) 0
    (hal (exec (Hal_tickStart msecs handler) m)).
Proof.
  intros Hg. unfold ticking, Hal_tickStart. run.
  split; [reflexivity|]. split; [reflexivity|]. split; [|exact Hg].
  now rewrite Z.sub_0_r, wrap16_tick_period.
Qed.

End TickRate.

Section TickRateClaim.
Context {C : Type} `{Codec C}.

(** X14: the tick comes at its period.  After [Hal_tickStart(msecs, _)],
    with interrupts enabled and a codec whose [Em_Message_restart] does not
    call [Em_Hal_reset], no routine busy-waits while the timer counts, and
    [timerIsr] posts the tick's event once in every [p] counts of the
    timer, where [p] is the stored period [clockTick], or once in every
    65536 counts when that is 0: of [k] counts, [k / p] post the event,
    also when the watchdog expires in between. *)
Theorem tick_comes_at_its_period
    (m : Machine C) (msecs : Z) (handler : option Handler) (k : nat) :
  restart_without_reset C ->
  Z.land (regs (hal m) SR) GIE = GIE ->
  let m1 := exec (Hal_tickStart msecs handler) m in
  let p := wrap16 (Z.quot (ACLK_TICKS_PER_SECOND * wrap16 msecs) 1000) in
  clockTick (hal m1) = p
  /\ occurrences (EvPost TICK_HANDLER_ID) (trace (hw_run (repeat InTick k)) m1)
     = Z.to_nat (Z.of_nat k / tick_period p)
  /\ busy_cycles (trace (hw_run (repeat InTick k)) m1) = 0.
Proof.
  intros Hnr Hg m1 p. split; [reflexivity|].
  assert (Hp : 0 <= p < 2 ^ 16) by (apply Z.mod_pos_bound; lia).
  pose proof (tick_period_pos p Hp) as Hpp.
  destruct (run_ticking Hnr k p 0 m1 (Hal_tickStart_ticking msecs handler m Hg) Hp ltac:(lia))
    as (h & c & L & E & P & B & _).
  rewrite (trace_eq _ m1 L (f_equal log E)). split; [exact P|exact B].
Qed.

End TickRateClaim.

(** ** Reception and the handshake *)

Section Handshake.
Context {C : Type} `{Codec C}.

(** X15: the link reset opens reception.  While the receive interrupt of
    the UART is disabled, a byte that arrives is not served: [rxIsr] does
    not run, and neither the log nor the codec change.  [Em_Hal_reset]
    enables the interrupt, and the first byte after it is passed to the
    codec. *)
Theorem reset_opens_reception (m : Machine C) (b : Z) :
  Z.land (regs (hal m) SR) GIE = GIE ->
  Z.testbit (regs (hal m) UCA2IE) 0 = false ->
  trace (hw_step (InRx b)) m = []
  /\ codec (exec (hw_step (InRx b)) m) = codec m
  /\ handlerEvents (hal (exec (hw_step (InRx b)) m)) = handlerEvents (hal m)
  /\ added_bytes (trace (hw_step (InRx b)) (exec Em_Hal_reset m)) = [wrap8 b].
Proof.
  intros Hg He.
  assert (E1 : exec (hw_step (InRx b)) m = exec (wr UCA2RXBUF b) m).
  { cbn [hw_step]. rewrite 2!exec_bind.
    assert (E : eval (enabled UCA2IE UCRXIE) (exec (wr UCA2RXBUF b) m) = false).
    { unfold enabled. run. change UCRXIE with (2 ^ 0).
      now rewrite land_pow2_eqb, He by lia. }
    now rewrite E. }
  split; [apply trace_eq; rewrite E1; cbn; now rewrite app_nil_r|].
  rewrite E1. split; [reflexivity|]. split; [reflexivity|].
  destruct (Em_Hal_reset_shape m)
    as (h & h1 & h2 & E & F & _ & _ & _ & _ & _ & _ & _ & _ & B7).
  destruct F as (_ & F2 & _).
  set (m' := exec Em_Hal_reset m) in *.
  assert (Hg' : Z.land (regs (hal m') SR) GIE = GIE).
  { rewrite E. cbn [hal]. now rewrite <- gie_wrap16, F2, gie_wrap16. }
  assert (He' : Z.testbit (regs (hal m') UCA2IE) 0 = true) by (rewrite E; exact B7).
  clearbody m'. clear E.
  destruct (rxIsr_served b m' Hg' He') as (hz & L & Ez & A & _).
  assert (Et : trace (hw_step (InRx b)) m' = L).
  { apply trace_eq. rewrite Ez. reflexivity. }
  rewrite Et. exact A.
Qed.

End Handshake.

(** ** The properties at concrete inputs *)

Lemma transmit_in_order_witness :
  tx_writes (trace (Em_Hal_startSend ;; hw_run (repeat InTxAck 4)) (sending [65; 66; 67]))
  = [65; 66; 67].
Proof.
  rewrite (transmit_in_order (sending [65; 66; 67]) 4); reflexivity.
Defined.

Lemma receive_in_order_one_dispatch_witness :
  let m := exec Em_Hal_reset (sending []) in
  let m' := exec (hw_run (map InRx [72; 105; 10])) m in
  added_bytes (trace (hw_run (map InRx [72; 105; 10])) m) = [72; 105; 10]
  /\ calls DISPATCH_HANDLER_ID (trace Hal_idleLoop_body m') = 1%nat.
Proof.
  destruct (receive_in_order_one_dispatch (exec Em_Hal_reset (sending []))
              [72; 105; 10] fn_Em_Message_dispatch) as [Ha Hc].
  - vm_compute. reflexivity.
  - vm_compute. reflexivity.
  - vm_compute. reflexivity.
  - cbv zeta. split; [rewrite Ha; reflexivity|rewrite Hc; vm_compute; reflexivity].
Defined.

Lemma accepted_interrupt_wakes_witness :
  let m := exec SLEEP boot in
  Z.land (regs (hal m) SR) LPM3_bits = LPM3_bits
  /\ Z.land (regs (hal (exec (interrupt (routine (USCI_A2_VECTOR 2))) m)) SR) LPM3_bits = 0
  /\ Z.land (regs (hal (exec (interrupt (routine (USCI_A2_VECTOR 4))) m)) SR) LPM3_bits
     = LPM3_bits.
Proof.
  destruct (accepted_interrupt_wakes (USCI_A2_VECTOR 2) (exec SLEEP boot)) as [_ H2];
    [reflexivity|].
  destruct (accepted_interrupt_wakes (USCI_A2_VECTOR 4) (exec SLEEP boot)) as [_ H4];
    [reflexivity|].
  cbv zeta. split; [reflexivity|]. split; [rewrite H2; reflexivity|rewrite H4; reflexivity].
Defined.

Lemma debug_pulse_leaves_pin_low_witness :
  Z.testbit (Hal_debugPulse 1 255) 0 = false
  /\ Z.testbit (Hal_debugPulse 1 255) 1 = true
  /\ Hal_debugPulse 3 255 = 255.
Proof.
  destruct (debug_pulse_leaves_pin_low 1 255) as (_ & H12 & _).
  destruct (debug_pulse_leaves_pin_low 3 255) as (_ & _ & H3).
  destruct (H12 (or_introl eq_refl)) as (_ & _ & Hlow & Hk).
  destruct (Hk 1 ltac:(lia) ltac:(discriminate)) as (_ & _ & H1).
  destruct (H3 ltac:(discriminate) ltac:(discriminate)) as (_ & _ & Hp).
  split; [exact Hlow|]. split; [exact H1|exact Hp].
Defined.

Lemma button_press_reaches_application_witness :
  events_of (trace Hal_idleLoop_body
               (exec (hw_run (repeat InButton 3))
                  (exec (Hal_buttonEnable (Some (fn_app 7))) boot)))
  = EvHandler 0 fn_buttonHandler
    :: repeat (EvDelayCycles 1000) 100 ++ [EvAppButton (fn_app 7)].
Proof.
  rewrite (button_press_reaches_application boot (Some (fn_app 7)) 2); reflexivity.
Defined.



Lemma tick_comes_at_its_period_witness :
  clockTick (hal (exec (Hal_tickStart 1 None) boot)) = 32
  /\ occurrences (EvPost TICK_HANDLER_ID)
       (trace (hw_run (repeat InTick 100)) (exec (Hal_tickStart 1 None) boot)) = 3%nat.
Proof.
  destruct (tick_comes_at_its_period boot 1 None 100) as (Hp & Hn & _);
    [intros c []|reflexivity|].
  split; [rewrite Hp; reflexivity|rewrite Hn; reflexivity].
Defined.

Lemma reset_opens_reception_witness :
  trace (hw_step (InRx 72)) (sending []) = []
  /\ added_bytes (trace (hw_step (InRx 72)) (exec Em_Hal_reset (sending []))) = [72].
Proof.
  destruct (reset_opens_reception (sending []) 72) as (H1 & _ & _ & H2).
  - reflexivity.
  - reflexivity.
  - split; [exact H1|exact H2].
Defined.

(** * Requests that wait *)

Section Latched.
Context {C : Type} `{Codec C}.

Lemma serve_masked (s : Source) (m : Machine C) :
  masked (hal m) -> exec (serve s) m = m.
Proof.
  unfold masked. intros Hm. unfold serve. rewrite 2!exec_bind.
  assert (E1 : exec (pending s) m = m) by (destruct s; reflexivity).
  rewrite E1. change (exec (rd SR) m) with m.
  change (eval (rd SR) m) with (regs (hal m) SR). rewrite Hm.
  change (0 =? 0) with true. cbn [negb]. rewrite andb_false_r. reflexivity.
Qed.

Lemma serve_in_masked (order : list Source) (m : Machine C) :
  masked (hal m) -> exec (serve_in order) m = m.
Proof.
  intros Hm. induction order as [|s order IH]; [reflexivity|].
  cbn [serve_in]. now rewrite exec_bind, serve_masked.
Qed.

Lemma latch_effect (i : Input) (m : Machine C) :
  log (exec (latch i) m) = log m /\ codec (exec (latch i) m) = codec m
  /\ latch_frame (hal (exec (latch i) m)) (hal m).
Proof.
  assert (R : forall m' : Machine C,
             log m' = log m -> codec m' = codec m ->
             (forall r, latch_touched r = false -> regs (hal m') r = regs (hal m) r) ->
             appButtonHandler (hal m') = appButtonHandler (hal m) ->
             handlerEvents (hal m') = handlerEvents (hal m) ->
             clockTick (hal m') = clockTick (hal m) ->
             handlerTab (hal m') = handlerTab (hal m) ->
             log m' = log m /\ codec m' = codec m /\ latch_frame (hal m') (hal m)).
  { intros m' ? ? ? ? ? ? ?. unfold latch_frame. tauto. }
  destruct i as [| |b|]; cbn [latch].
  - rewrite !exec_bind.
    destruct (eval timer_count m =? eval (rd TA1CCR0) (exec timer_count m));
      destruct (eval timer_count m =? _);
      apply R; try reflexivity; intros r Hr; destruct r; try discriminate Hr; reflexivity.
  - apply R; try reflexivity. intros r Hr; destruct r; try discriminate Hr; reflexivity.
  - apply R; try reflexivity. intros r Hr; destruct r; try discriminate Hr; reflexivity.
  - apply R; try reflexivity. intros r Hr; destruct r; try discriminate Hr; reflexivity.
Qed.

Lemma arrive_masked (order : list Source) (i : Input) (m : Machine C) :
  masked (hal m) -> exec (arrive order i) m = exec (latch i) m.
Proof.
  intros Hm. unfold arrive. rewrite exec_bind. apply serve_in_masked.
  unfold masked. destruct (latch_effect i m) as (_ & _ & F & _).
  now rewrite (F SR eq_refl).
Qed.

(** While interrupts are masked, arrivals are latched and nothing is
    served. *)
Lemma arrivals_masked (order : list Source) (ins : list Input) (m : Machine C) :
  masked (hal m) ->
  log (exec (arrivals order ins) m) = log m
  /\ codec (exec (arrivals order ins) m) = codec m
  /\ latch_frame (hal (exec (arrivals order ins) m)) (hal m).
Proof.
  revert m. induction ins as [|i ins IH]; intros m Hm.
  - cbn. unfold latch_frame. tauto.
  - cbn [arrivals]. rewrite exec_bind, arrive_masked by assumption.
    destruct (latch_effect i m) as (L1 & C1 & F1 & A1 & V1 & K1 & T1).
    assert (Hm1 : masked (hal (exec (latch i) m))).
    { unfold masked. now rewrite (F1 SR eq_refl). }
    destruct (IH _ Hm1) as (L2 & C2 & F2 & A2 & V2 & K2 & T2).
    split; [congruence|]. split; [congruence|].
    split; [intros r Hr; now rewrite F2, F1|]. repeat split; congruence.
Qed.

End Latched.

(** ** The lock of the link reset *)

Section ResetLock.
Context {C : Type} `{Codec C}.

Lemma locked_start (m : Machine C) : locked (regs (hal m) SR) m [] m.
Proof.
  split; [reflexivity|]. split; [reflexivity|]. split; [reflexivity|].
  exists []. rewrite app_nil_r. split; [reflexivity|]. split; [reflexivity|constructor].
Qed.

(** A statement that logs nothing and leaves [SR], the codec and the mask
    alone. *)
Lemma locked_quiet (c : M C unit) (sr : Z) (m0 : Machine C) (es : list Event)
    (m : Machine C) :
  log (exec c m) = log m -> codec (exec c m) = codec m ->
  regs (hal (exec c m)) SR = regs (hal m) SR ->
  handlerEvents (hal (exec c m)) = handlerEvents (hal m) ->
  locked sr m0 es m -> locked sr m0 es (exec c m).
Proof.
  intros E1 E2 E3 E4 (S & K & V & L & EL & Ev & F).
  split; [congruence|]. split; [congruence|]. split; [congruence|].
  exists L. rewrite E1. split; [exact EL|]. split; assumption.
Qed.

Lemma locked_arrivals (order : list Source) (ins : list Input) (sr : Z)
    (m0 : Machine C) (es : list Event) (m : Machine C) :
  Z.land sr GIE = 0 ->
  locked sr m0 es m -> locked sr m0 es (exec (arrivals order ins) m).
Proof.
  intros Hsr Hl.
  assert (Hm : masked (hal m)).
  { unfold masked. destruct Hl as (-> & _). exact Hsr. }
  destruct (arrivals_masked order ins m Hm) as (L1 & C1 & F1 & _ & V1 & _).
  apply locked_quiet; try assumption. now apply F1.
Qed.

(** A statement that logs the events [es'], each with [SR] as before. *)
Lemma locked_logs (c : M C unit) (es' : list Event) (sr : Z) (m0 : Machine C)
    (es : list Event) (m : Machine C) :
  (exists L', log (exec c m) = log m ++ L' /\ events_of L' = es'
              /\ Forall (fun o => regs (fst o) SR = regs (hal m) SR) L') ->
  codec (exec c m) = codec m ->
  regs (hal (exec c m)) SR = regs (hal m) SR ->
  handlerEvents (hal (exec c m)) = handlerEvents (hal m) ->
  locked sr m0 es m -> locked sr m0 (es ++ es') (exec c m).
Proof.
  intros (L' & E1 & Ev' & F') E2 E3 E4 (S & K & V & L & EL & Ev & F).
  split; [congruence|]. split; [congruence|]. split; [congruence|].
  exists (L ++ L'). rewrite E1, EL, <- app_assoc. split; [reflexivity|].
  split.
  - unfold events_of in *. rewrite map_app. f_equal; assumption.
  - apply Forall_app. split; [exact F|]. rewrite <- S. exact F'.
Qed.

Lemma locked_delay (n : Z) (sr : Z) (m0 : Machine C) (es : list Event) (m : Machine C) :
  locked sr m0 es m ->
  locked sr m0 (es ++ repeat (EvDelayCycles MCLK_TICKS_PER_MS) (Z.to_nat (wrap16 n)))
    (exec (Hal_delay n) m).
Proof.
  apply locked_logs; rewrite exec_Hal_delay; try reflexivity.
  eexists. split; [reflexivity|]. split.
  - unfold events_of. rewrite map_repeat. reflexivity.
  - apply List.Forall_forall. intros o Ho. apply repeat_spec in Ho. now subst o.
Qed.

(** C4, as the code has it: [Em_Hal_lock] is the first statement of
    [Em_Hal_reset] and [Em_Hal_unlock] the last, and interrupts stay masked
    between them.  Whatever requests the hardware raises after any of the
    statements from the lock to [EAP_RX_INT_ENABLE()], none is served: the
    log holds the pulse on [EAP_RX_ACK] with its 100 and 500 delays of one
    millisecond and nothing else, every entry is logged with [GIE] clear,
    and neither the codec nor the event mask changes.  Only the unlock
    gives the caller's [SR] back. *)
Theorem C4_reset_holds_lock_throughout
    (m : Machine C) (order : list Source) (ins : nat -> list Input) :
  exists h L,
    exec (Em_Hal_reset_with (fun k => arrivals order (ins k))) m
    = mkMachine h (codec m) (log m ++ L)
    /\ events_of L
       = EvRxAck false :: repeat (EvDelayCycles MCLK_TICKS_PER_MS) 100
         ++ EvRxAck true :: repeat (EvDelayCycles MCLK_TICKS_PER_MS) 500
    /\ Forall (fun o => masked (fst o)) L
    /\ handlerEvents h = handlerEvents (hal m)
    /\ wrap16 (regs h SR) = wrap16 (regs (hal m) SR).
Proof.
  unfold Em_Hal_reset_with. rewrite exec_bind.
  set (key := eval Em_Hal_lock m). set (ml := exec Em_Hal_lock m).
  set (sr := regs (hal ml) SR).
  assert (Hsr : Z.land sr GIE = 0) by (subst sr ml; unfold Em_Hal_lock; run; apply masked_bic).
  assert (Hkey : wrap16 (Z.lor sr key) = wrap16 (regs (hal m) SR)).
  { subst sr key ml. unfold Em_Hal_lock. run. apply sr_roundtrip. }
  assert (Hc : codec ml = codec m) by reflexivity.
  assert (Hl : log ml = log m) by reflexivity.
  assert (Hv : handlerEvents (hal ml) = handlerEvents (hal m)) by reflexivity.
  pose proof (locked_start ml) as L0. fold sr in L0.
  clearbody key sr. revert L0. generalize ml at 2 3. intros m0 L0.
  rewrite exec_bind.
  apply (locked_arrivals order (ins 0%nat) _ _ _ _ Hsr) in L0.
  revert L0. generalize (exec (arrivals order (ins 0%nat)) m0). clear m0. intros m0 L0.
  rewrite 2!exec_bind.
  apply (locked_logs EAP_RX_ACK_CLR [EvRxAck false]) in L0;
    [|eexists; split; [reflexivity|]; split; [reflexivity|]; repeat constructor
     |reflexivity|reflexivity|reflexivity].
  apply (locked_arrivals order (ins 1%nat) _ _ _ _ Hsr) in L0.
  revert L0. generalize (exec (arrivals order (ins 1%nat)) (exec EAP_RX_ACK_CLR m0)).
  clear m0. intros m0 L0.
  rewrite 2!exec_bind.
  apply (locked_delay 100) in L0.
  apply (locked_arrivals order (ins 2%nat) _ _ _ _ Hsr) in L0.
  revert L0. generalize (exec (arrivals order (ins 2%nat)) (exec (Hal_delay 100) m0)).
  clear m0. intros m0 L0.
  rewrite 2!exec_bind.
  apply (locked_logs EAP_RX_ACK_SET [EvRxAck true]) in L0;
    [|eexists; split; [reflexivity|]; split; [reflexivity|]; repeat constructor
     |reflexivity|reflexivity|reflexivity].
  apply (locked_arrivals order (ins 3%nat) _ _ _ _ Hsr) in L0.
  revert L0. generalize (exec (arrivals order (ins 3%nat)) (exec EAP_RX_ACK_SET m0)).
  clear m0. intros m0 L0.
  rewrite 2!exec_bind.
  apply (locked_delay 500) in L0.
  apply (locked_arrivals order (ins 4%nat) _ _ _ _ Hsr) in L0.
  revert L0. generalize (exec (arrivals order (ins 4%nat)) (exec (Hal_delay 500) m0)).
  clear m0. intros m0 L0.
  rewrite 2!exec_bind.
  apply (locked_quiet EAP_RX_INT_CLR) in L0; [|reflexivity|reflexivity|reflexivity|reflexivity].
  apply (locked_arrivals order (ins 5%nat) _ _ _ _ Hsr) in L0.
  revert L0. generalize (exec (arrivals order (ins 5%nat)) (exec EAP_RX_INT_CLR m0)).
  clear m0. intros m0 L0.
  rewrite 2!exec_bind.
  apply (locked_quiet EAP_TX_INT_CLR) in L0; [|reflexivity|reflexivity|reflexivity|reflexivity].
  apply (locked_arrivals order (ins 6%nat) _ _ _ _ Hsr) in L0.
  revert L0. generalize (exec (arrivals order (ins 6%nat)) (exec EAP_TX_INT_CLR m0)).
  clear m0. intros m0 L0.
  rewrite 2!exec_bind.
  apply (locked_quiet EAP_TX_ACK_CLR) in L0; [|reflexivity|reflexivity|reflexivity|reflexivity].
  apply (locked_arrivals order (ins 7%nat) _ _ _ _ Hsr) in L0.
  revert L0. generalize (exec (arrivals order (ins 7%nat)) (exec EAP_TX_ACK_CLR m0)).
  clear m0. intros m0 L0.
  rewrite 2!exec_bind.
  apply (locked_quiet EAP_RX_INT_ENABLE) in L0; [|reflexivity|reflexivity|reflexivity|reflexivity].
  apply (locked_arrivals order (ins 8%nat) _ _ _ _ Hsr) in L0.
  revert L0. generalize (exec (arrivals order (ins 8%nat)) (exec EAP_RX_INT_ENABLE m0)).
  clear m0. intros m0 L0.
  destruct L0 as (S8 & K8 & V8 & L & EL & Ev & F).
  exists (hal (exec (Em_Hal_unlock key) m0)), L.
  split; [|split; [|split; [|split]]].
  - rewrite <- Hc, <- K8, <- Hl, <- EL. reflexivity.
  - rewrite Ev. change (Z.to_nat (wrap16 100)) with 100%nat.
    change (Z.to_nat (wrap16 500)) with 500%nat.
    cbn [app]. rewrite <- !app_assoc. reflexivity.
  - eapply List.Forall_impl; [|exact F]. intros o Ho. unfold masked. now rewrite Ho.
  - now rewrite <- Hv, <- V8.
  - unfold Em_Hal_unlock. run. rewrite S8, wrap16_idem. exact Hkey.
Qed.

End ResetLock.

(** ** A request raised in the dispatcher's critical section *)


Lemma flag_test (v k : Z) :
  0 <= k -> negb (Z.land v (2 ^ k) =? 0) = Z.testbit v k.
Proof. intros Hk. rewrite land_pow2_eqb by assumption. apply negb_involutive. Qed.

Lemma gie_set (sr : Z) : Z.land sr GIE <> 0 -> Z.land sr GIE = GIE.
Proof.
  change GIE with (2 ^ 3). rewrite land_pow2 by lia.
  destruct (Z.testbit sr 3); congruence.
Qed.

Section Deferred.
Context {C : Type} `{Codec C}.






End Deferred.




Section DeferredClaim.
Context {C : Type} `{Codec C}.




End DeferredClaim.

(** ** The watchdog's request over time *)

Lemma moves_refl (p : Phase) : moves p p 0 0.
Proof. destruct p; cbn; auto with zarith. Qed.

Lemma moves_trans (p p' p'' : Phase) (n n' : Z) (r r' : nat) :
  0 <= n -> 0 <= n' ->
  moves p p' n r -> moves p' p'' n' r' -> moves p p'' (n + n') (r + r').
Proof. destruct p, p', p''; cbn; intros; intuition (subst; lia). Qed.

Lemma in_phase_same (t0 : Z) (p : Phase) (h h' : Hal) :
  regs h TA1CCTL1 = regs h' TA1CCTL1 -> regs h TA1CCR1 = regs h' TA1CCR1 ->
  regs h TA1R = regs h' TA1R ->
  in_phase t0 p h' -> in_phase t0 p h.
Proof. intros E1 E2 E3. destruct p; cbn; now rewrite E1, ?E2, ?E3. Qed.

Lemma ticks_of_cons (a : Act) (acts : list Act) :
  ticks_of (a :: acts) = ticks_of [a] + ticks_of acts.
Proof.
  unfold ticks_of. cbn [List.filter].
  destruct a as [[| | |]| |]; cbn [length]; lia.
Qed.

Lemma ticks_of_nonneg (acts : list Act) : 0 <= ticks_of acts.
Proof. unfold ticks_of. lia. Qed.

Ltac watch_kept :=
  run; rewrite <- ?app_assoc; cbn [app];
  eexists _, _, _; split; [reflexivity|]; split; [reflexivity|];
  unfold same_watch; run; repeat (split; [reflexivity|]); apply gie_reti.

Section WatchdogRequest.
Context {C : Type} `{Codec C}.
Variable order : list Source.
Variable t0 : Z.
Hypothesis Hcalm : calm C.

(** [Em_Hal_reset] leaves the watchdog's control register alone. *)
Lemma resets_keep_watch (cs : list SrtCall) (m : Machine C) :
  Forall (fun x => x = CallReset) cs ->
  regs (hal (exec (srt_calls cs) m)) TA1CCTL1 = regs (hal m) TA1CCTL1.
Proof.
  intros Hr. revert m. induction Hr as [|c cs -> _ IH]; intros m; [reflexivity|].
  cbn [srt_calls srt_call]. rewrite exec_bind, IH.
  unfold Em_Hal_reset, Em_Hal_reset_with, idle.
  rewrite !exec_bind, !exec_Hal_delay. reflexivity.
Qed.

Lemma calm_txAckIsr (m : Machine C) :
  Z.land (regs (hal m) SR) GIE = GIE ->
  exists h c L,
    exec (interrupt txAckIsr) m = mkMachine h c (log m ++ L)
    /\ occurrences EvRestart L = 0%nat
    /\ same_watch h (hal m).
Proof.
  intros Hg. rewrite exec_interrupt by assumption.
  set (m1 := exec (irq_entry (regs (hal m) SR)) m).
  unfold txAckIsr. rewrite exec_bind.
  change (exec EAP_TX_ACK_TST m1) with m1.
  destruct (eval EAP_TX_ACK_TST m1).
  - unfold when. rewrite 3!exec_bind, exec_extern_silent, eval_extern
      by apply (Hcalm (codec m1) 0).
    destruct (fst (fst (Em_Message_getByte (codec m1)))); subst m1; watch_kept.
  - subst m1; watch_kept.
Qed.

Lemma calm_rxIsr (m : Machine C) :
  Z.land (regs (hal m) SR) GIE = GIE ->
  exists h c L,
    exec (interrupt (rxIsr 2)) m = mkMachine h c (log m ++ L)
    /\ occurrences EvRestart L = 0%nat
    /\ same_watch h (hal m).
Proof.
  intros Hg. rewrite exec_interrupt by assumption.
  set (m1 := exec (irq_entry (regs (hal m) SR)) m).
  unfold rxIsr. change (2 =? 2) with true. cbv iota.
  rewrite exec_bind. change (exec (rd UCA2RXBUF) m1) with m1.
  rewrite exec_bind, exec_extern_silent by apply (Hcalm (codec m1) 0).
  rewrite 3!exec_bind, exec_extern_silent, eval_extern by apply Hcalm.
  match goal with |- context [when ?b _] => destruct b end; subst m1; watch_kept.
Qed.

(** The watchdog's routine, served: one restart, and the interrupt is
    off when it returns, whatever resets the restart makes. *)
Lemma calm_uartWatchdogIsr (m : Machine C) :
  Z.land (regs (hal m) SR) GIE = GIE ->
  exists h c L,
    exec (interrupt (uartWatchdogIsr 2)) m = mkMachine h c (log m ++ L)
    /\ occurrences EvRestart L = 1%nat
    /\ regs h TA1CCTL1 = 0
    /\ Z.land (regs h SR) GIE = GIE.
Proof.
  intros Hg. rewrite exec_interrupt by assumption.
  set (m1 := exec (irq_entry (regs (hal m) SR)) m).
  unfold uartWatchdogIsr. change (2 =? 2) with true. cbv iota.
  rewrite 2!exec_bind.
  set (md := exec UART_WATCH_DISABLE m1).
  assert (Hk : regs (hal (exec (extern EvRestart Em_Message_restart) md)) TA1CCTL1 = 0).
  { rewrite exec_extern, resets_keep_watch; [reflexivity|]. apply Hcalm. exact 0. }
  destruct (extern_frame EvRestart Em_Message_restart md) as (h & L & E & S & F).
  rewrite E in Hk |- *. cbn [hal] in Hk.
  destruct F as (F1 & _). pose proof (F1 IRQ_SR eq_refl) as Fi.
  eexists _, _, _. split.
  { subst md m1. run. rewrite <- ?app_assoc. cbn [app]. rewrite <- ?app_assoc. reflexivity. }
  split.
  { rewrite occurrences_cons, occurrences_app, (occurrences_srt _ L) by (auto; exact S).
    reflexivity. }
  run. rewrite Fi. subst md m1. run.
  split; [exact Hk|]. rewrite gie_reti. exact Hg.
Qed.

Lemma pending_watchdog (m : Machine C) :
  eval (pending TIMER1_A1) m
  = Z.testbit (regs (hal m) TA1CCTL1) 0 && Z.testbit (regs (hal m) TA1CCTL1) 4.
Proof.
  cbn [pending]. unfold enabled. run.
  change CCIFG with (2 ^ 0). change CCIE with (2 ^ 4). now rewrite !flag_test by lia.
Qed.

Lemma not_served (s : Source) (m : Machine C) :
  eval (pending s) m && negb (Z.land (regs (hal m) SR) GIE =? 0) = false ->
  exec (serve s) m = m.
Proof.
  intros B. unfold serve. rewrite 2!exec_bind.
  assert (E1 : exec (pending s) m = m) by (destruct s; reflexivity).
  rewrite E1. change (exec (rd SR) m) with m.
  change (eval (rd SR) m) with (regs (hal m) SR). now rewrite B.
Qed.

Lemma is_served (s : Source) (m : Machine C) :
  eval (pending s) m && negb (Z.land (regs (hal m) SR) GIE =? 0) = true ->
  exec (serve s) m = exec (interrupt (routine (vector_of s))) (exec (acknowledge s) m).
Proof.
  intros B. unfold serve. rewrite 2!exec_bind.
  assert (E1 : exec (pending s) m = m) by (destruct s; reflexivity).
  rewrite E1. change (exec (rd SR) m) with m.
  change (eval (rd SR) m) with (regs (hal m) SR). rewrite B.
  unfold when. now rewrite exec_bind.
Qed.

(** One attempt to serve [s]: the phase changes only when the watchdog's
    own request is accepted. *)
Lemma serve_phase (s : Source) (p : Phase) (m : Machine C) :
  in_phase t0 p (hal m) ->
  exists h c L p',
    exec (serve s) m = mkMachine h c (log m ++ L)
    /\ in_phase t0 p' h
    /\ moves p p' 0 (occurrences EvRestart L)
    /\ Z.land (regs h SR) GIE = Z.land (regs (hal m) SR) GIE
    /\ (s = TIMER1_A1 -> Z.land (regs (hal m) SR) GIE = GIE -> p' <> Due)
    /\ (p <> Due -> p' <> Due).
Proof.
  intros Hp.
  destruct (eval (pending s) m && negb (Z.land (regs (hal m) SR) GIE =? 0)) eqn:B.
  - apply andb_true_iff in B as B'. destruct B' as [Bp Bg].
    assert (Hg : Z.land (regs (hal m) SR) GIE = GIE).
    { apply gie_set. apply negb_true_iff, Z.eqb_neq in Bg. exact Bg. }
    rewrite (is_served s m B).
    assert (Keep : forall ma : Machine C,
               log ma = log m ->
               regs (hal ma) TA1CCTL1 = regs (hal m) TA1CCTL1 ->
               regs (hal ma) TA1CCR1 = regs (hal m) TA1CCR1 ->
               regs (hal ma) TA1R = regs (hal m) TA1R ->
               Z.land (regs (hal ma) SR) GIE = Z.land (regs (hal m) SR) GIE ->
               s <> TIMER1_A1 ->
               (exists h c L, exec (interrupt (routine (vector_of s))) ma
                              = mkMachine h c (log ma ++ L)
                              /\ occurrences EvRestart L = 0%nat
                              /\ same_watch h (hal ma)) ->
               exists h c L p',
                 exec (interrupt (routine (vector_of s))) ma = mkMachine h c (log m ++ L)
                 /\ in_phase t0 p' h
                 /\ moves p p' 0 (occurrences EvRestart L)
                 /\ Z.land (regs h SR) GIE = Z.land (regs (hal m) SR) GIE
                 /\ (s = TIMER1_A1 -> Z.land (regs (hal m) SR) GIE = GIE -> p' <> Due)
                 /\ (p <> Due -> p' <> Due)).
    { intros ma El E1 E2 E3 E4 Hs (h & c & L & E & O & W1 & W2 & W3 & W4).
      exists h, c, L, p. rewrite E, El, O. split; [reflexivity|].
      split; [apply (in_phase_same t0 p h (hal m)); [congruence..|exact Hp]|].
      split; [apply moves_refl|]. split; [congruence|]. split; [|auto].
      intros ->. contradiction. }
    destruct s; cbn [acknowledge].
    + apply Keep; try reflexivity; [discriminate|]. now apply interrupt_buttonIsr.
    + apply Keep; try reflexivity; [discriminate|]. now apply calm_rxIsr.
    + apply Keep; try reflexivity; [discriminate|]. now apply interrupt_timerIsr.
    + apply Keep; try reflexivity; [discriminate|]. now apply calm_txAckIsr.
    + clear Keep. rewrite pending_watchdog in Bp. apply andb_true_iff in Bp as [B0 B4].
      destruct p as [k| |]; cbn [in_phase] in Hp.
      * destruct Hp as (A1 & _). rewrite A1 in B0. discriminate B0.
      * set (ma := exec (bic TA1CCTL1 CCIFG) m).
        assert (Hga : Z.land (regs (hal ma) SR) GIE = GIE) by exact Hg.
        destruct (calm_uartWatchdogIsr ma Hga) as (h & c & L & E & O & Z0 & G).
        exists h, c, L, Off. cbn [vector_of routine]. rewrite E, O.
        split; [reflexivity|]. split; [cbn [in_phase]; now rewrite Z0|].
        split; [reflexivity|]. split; [now rewrite G, Hg|].
        split; [discriminate|discriminate].
      * rewrite Hp in B4. discriminate B4.
  - rewrite (not_served s m B). exists (hal m), (codec m), [], p.
    rewrite app_nil_r. split; [now destruct m|]. split; [exact Hp|].
    split; [apply moves_refl|]. split; [reflexivity|]. split; [|auto].
    intros -> Hg ->. cbn [in_phase] in Hp. destruct Hp as (B0 & B4).
    rewrite pending_watchdog, B0, B4, Hg in B. discriminate B.
Qed.

Lemma serve_in_phase (p : Phase) (m : Machine C) :
  in_phase t0 p (hal m) ->
  exists h c L p',
    exec (serve_in order) m = mkMachine h c (log m ++ L)
    /\ in_phase t0 p' h
    /\ moves p p' 0 (occurrences EvRestart L)
    /\ Z.land (regs h SR) GIE = Z.land (regs (hal m) SR) GIE
    /\ (In TIMER1_A1 order -> Z.land (regs (hal m) SR) GIE = GIE -> p' <> Due)
    /\ (p <> Due -> p' <> Due).
Proof.
  revert p m. induction order as [|s o IH]; intros p m Hp.
  - exists (hal m), (codec m), [], p. rewrite app_nil_r.
    split; [now destruct m|]. split; [exact Hp|]. split; [apply moves_refl|].
    split; [reflexivity|]. split; [intros []|auto].
  - cbn [serve_in]. rewrite exec_bind.
    destruct (serve_phase s p m Hp) as (h1 & c1 & L1 & p1 & E1 & P1 & M1 & G1 & D1 & N1).
    rewrite E1.
    destruct (IH p1 (mkMachine h1 c1 (log m ++ L1)) P1)
      as (h2 & c2 & L2 & p2 & E2 & P2 & M2 & G2 & D2 & N2).
    rewrite E2. cbn [log hal] in *. rewrite <- app_assoc.
    exists h2, c2, (L1 ++ L2), p2. split; [reflexivity|]. split; [exact P2|].
    split.
    { rewrite occurrences_app. change 0 with (0 + 0).
      apply (moves_trans p p1 p2); [lia|lia|exact M1|exact M2]. }
    split; [congruence|]. split; [|auto].
    intros [->|Hin] Hg.
    + apply N2. now apply D1.
    + apply D2; [exact Hin|]. now rewrite G1.
Qed.

Lemma latch_tick_watch (m : Machine C) :
  regs (hal (exec (latch InTick) m)) TA1R = wrap16 (regs (hal m) TA1R + 1)
  /\ regs (hal (exec (latch InTick) m)) TA1CCR1 = regs (hal m) TA1CCR1
  /\ regs (hal (exec (latch InTick) m)) TA1CCTL1
     = if wrap16 (regs (hal m) TA1R + 1) =? regs (hal m) TA1CCR1
       then wrap16 (Z.lor (regs (hal m) TA1CCTL1) CCIFG)
       else regs (hal m) TA1CCTL1.
Proof.
  cbn [latch]. rewrite !exec_bind.
  change (eval timer_count m) with (wrap16 (regs (hal m) TA1R + 1)).
  set (t := wrap16 (regs (hal m) TA1R + 1)).
  set (m1 := exec timer_count m).
  change (exec (rd TA1CCR0) m1) with m1.
  set (m2 := exec (when (t =? eval (rd TA1CCR0) m1) (bis TA1CCTL0 CCIFG)) m1).
  change (exec (rd TA1CCR1) m2) with m2.
  assert (E2 : regs (hal m2) TA1R = t /\ regs (hal m2) TA1CCR1 = regs (hal m) TA1CCR1
               /\ regs (hal m2) TA1CCTL1 = regs (hal m) TA1CCTL1).
  { subst m2. destruct (t =? eval (rd TA1CCR0) m1); repeat split; reflexivity. }
  destruct E2 as (R1 & R2 & R3).
  change (eval (rd TA1CCR1) m2) with (regs (hal m2) TA1CCR1). rewrite R2.
  clearbody m2. destruct (t =? regs (hal m) TA1CCR1).
  - run. rewrite R3. repeat split; assumption.
  - run. repeat split; assumption.
Qed.

Lemma latch_phase (i : Input) (p : Phase) (m : Machine C) :
  in_phase t0 p (hal m) ->
  exists p',
    in_phase t0 p' (hal (exec (latch i) m))
    /\ moves p p' (ticks_of [Arrive i]) 0.
Proof.
  intros Hp.
  assert (Same : regs (hal (exec (latch i) m)) TA1CCTL1 = regs (hal m) TA1CCTL1 ->
                 regs (hal (exec (latch i) m)) TA1CCR1 = regs (hal m) TA1CCR1 ->
                 regs (hal (exec (latch i) m)) TA1R = regs (hal m) TA1R ->
                 ticks_of [Arrive i] = 0 ->
                 exists p', in_phase t0 p' (hal (exec (latch i) m))
                            /\ moves p p' (ticks_of [Arrive i]) 0).
  { intros E1 E2 E3 ->. exists p.
    split; [now apply (in_phase_same t0 p _ (hal m))|apply moves_refl]. }
  destruct i as [| |b|]; try (apply Same; reflexivity).
  clear Same. destruct (latch_tick_watch m) as (R1 & R2 & R3).
  change (ticks_of [Arrive InTick]) with 1.
  destruct p as [k| |]; cbn [in_phase] in Hp.
  - destruct Hp as (A1 & A2 & A3 & A4).
    assert (Ht : wrap16 (regs (hal m) TA1R + 1) = wrap16 (t0 + (k + 1))).
    { rewrite <- wrap16_add_l, A3, wrap16_add_l. f_equal. lia. }
    rewrite Ht, A2, A1 in R3.
    destruct (Z.eq_dec (k + 1) UART_WATCHDOG_PERIOD) as [Ek|Ek].
    + exists Due. rewrite Ek, Z.eqb_refl in R3. cbn [in_phase moves].
      rewrite R3. split; [split; reflexivity|]. split; [lia|reflexivity].
    + exists (Armed (k + 1)).
      assert (En : (wrap16 (t0 + (k + 1)) =? wrap16 (t0 + UART_WATCHDOG_PERIOD)) = false).
      { apply Z.eqb_neq. intros Eq. apply wrap16_inj in Eq; [contradiction|].
        change UART_WATCHDOG_PERIOD with 8192 in *. lia. }
      rewrite En in R3. cbn [in_phase moves].
      split; [|split; reflexivity].
      split; [exact R3|]. split; [now rewrite R2|].
      split; [now rewrite R1, wrap16_idem|lia].
  - exists Due. destruct Hp as (B0 & B4). cbn [in_phase moves].
    split; [|reflexivity]. rewrite R3.
    destruct (_ =? _); [|split; assumption].
    rewrite !testbit_wrap16, !Z.lor_spec, B0, B4. split; reflexivity.
  - exists Off. cbn [in_phase moves]. split; [|reflexivity]. rewrite R3.
    destruct (_ =? _); [|assumption].
    rewrite testbit_wrap16, Z.lor_spec, Hp. reflexivity.
Qed.

(** One act of the run.  Between acts a request of the watchdog that is
    due waits only while interrupts are masked. *)
Lemma act_phase (a : Act) (p : Phase) (m : Machine C) :
  In TIMER1_A1 order ->
  in_phase t0 p (hal m) ->
  (p = Due -> masked (hal m)) ->
  exists h c L p',
    exec (act order a) m = mkMachine h c (log m ++ L)
    /\ in_phase t0 p' h
    /\ (p' = Due -> masked h)
    /\ moves p p' (ticks_of [a]) (occurrences EvRestart L)
    /\ (a = Unmask -> Z.land (regs h SR) GIE = GIE).
Proof.
  intros Hin Hp Hd.
  assert (After : forall (m1 : Machine C) (p1 : Phase) (n : Z),
             0 <= n ->
             log m1 = log m ->
             in_phase t0 p1 (hal m1) -> moves p p1 n 0 ->
             (p1 = Due -> Z.land (regs (hal m1) SR) GIE = 0
                          \/ Z.land (regs (hal m1) SR) GIE = GIE) ->
             exists h c L p',
               exec (serve_in order) m1 = mkMachine h c (log m ++ L)
               /\ in_phase t0 p' h
               /\ (p' = Due -> masked h)
               /\ moves p p' n (occurrences EvRestart L)
               /\ Z.land (regs h SR) GIE = Z.land (regs (hal m1) SR) GIE).
  { intros m1 p1 n Hn El P1 M1 _.
    destruct (Z.eq_dec (Z.land (regs (hal m1) SR) GIE) 0) as [Hm|Hnz].
    - rewrite serve_in_masked by exact Hm. exists (hal m1), (codec m1), [], p1.
      rewrite app_nil_r, <- El. split; [now destruct m1|]. split; [exact P1|].
      split; [intros _; exact Hm|]. split; [exact M1|reflexivity].
    - apply gie_set in Hnz.
      destruct (serve_in_phase p1 m1 P1) as (h & c & L & p' & E & P' & M' & G & D & _).
      exists h, c, L, p'. rewrite E, El. split; [reflexivity|]. split; [exact P'|].
      split; [intros ->; exfalso; now apply (D Hin Hnz)|]. split; [|exact G].
      replace n with (n + 0) by lia. change (occurrences EvRestart L)
        with (0 + occurrences EvRestart L)%nat.
      apply (moves_trans p p1 p'); [lia|lia|exact M1|exact M']. }
  destruct a as [i| |]; cbn [act].
  - unfold arrive. rewrite exec_bind.
    destruct (latch_phase i p m Hp) as (p1 & P1 & M1).
    destruct (latch_effect i m) as (El & _ & _).
    destruct (After (exec (latch i) m) p1 (ticks_of [Arrive i])
                (ticks_of_nonneg _) El P1 M1) as (h & c & L & p' & E & P' & D' & M' & _).
    { intros _. destruct (Z.eq_dec (Z.land (regs (hal (exec (latch i) m)) SR) GIE) 0);
        [now left|right; now apply gie_set]. }
    exists h, c, L, p'. split; [exact E|]. split; [exact P'|]. split; [exact D'|].
    split; [exact M'|discriminate].
  - exists (hal (exec DINT m)), (codec m), [], p. rewrite app_nil_r.
    split; [reflexivity|].
    split; [apply (in_phase_same t0 p _ (hal m)); [reflexivity..|exact Hp]|].
    split; [intros _; unfold masked, DINT; run; apply masked_bic|].
    split; [apply moves_refl|discriminate].
  - rewrite exec_bind.
    assert (P1 : in_phase t0 p (hal (exec EINT m))).
    { apply (in_phase_same t0 p _ (hal m)); [reflexivity..|exact Hp]. }
    assert (G1 : Z.land (regs (hal (exec EINT m)) SR) GIE = GIE).
    { unfold EINT. run. apply unmasked_bis. }
    destruct (After (exec EINT m) p 0 ltac:(lia) eq_refl P1 (moves_refl p))
      as (h & c & L & p' & E & P' & D' & M' & G').
    { intros _. now right. }
    exists h, c, L, p'. split; [exact E|]. split; [exact P'|]. split; [exact D'|].
    split; [exact M'|]. intros _. now rewrite G', G1.
Qed.

(** A run of acts. *)
Lemma run_phase (acts : list Act) (p : Phase) (m : Machine C) :
  In TIMER1_A1 order ->
  in_phase t0 p (hal m) ->
  (p = Due -> masked (hal m)) ->
  exists h c L p',
    exec (acts_run order acts) m = mkMachine h c (log m ++ L)
    /\ in_phase t0 p' h
    /\ (p' = Due -> masked h)
    /\ moves p p' (ticks_of acts) (occurrences EvRestart L).
Proof.
  intros Hin. revert p m. induction acts as [|a acts IH]; intros p m Hp Hd.
  - exists (hal m), (codec m), [], p. rewrite app_nil_r.
    split; [now destruct m|]. split; [exact Hp|]. split; [exact Hd|apply moves_refl].
  - cbn [acts_run]. rewrite exec_bind.
    destruct (act_phase a p m Hin Hp Hd) as (h1 & c1 & L1 & p1 & E1 & P1 & D1 & M1 & _).
    rewrite E1.
    destruct (IH p1 (mkMachine h1 c1 (log m ++ L1)) P1 D1)
      as (h2 & c2 & L2 & p2 & E2 & P2 & D2 & M2).
    rewrite E2. cbn [log]. rewrite <- app_assoc.
    exists h2, c2, (L1 ++ L2), p2. split; [reflexivity|]. split; [exact P2|].
    split; [exact D2|]. rewrite occurrences_app, ticks_of_cons.
    apply (moves_trans p p1 p2); [apply ticks_of_nonneg|apply ticks_of_nonneg
                                 |exact M1|exact M2].
Qed.

End WatchdogRequest.

Section WatchdogClaim.
Context {C : Type} `{Codec C}.

Lemma exec_acts_run_app (order : list Source) (acts acts' : list Act) (m : Machine C) :
  exec (acts_run order (acts ++ acts')) m
  = exec (acts_run order acts') (exec (acts_run order acts) m).
Proof.
  revert m. induction acts as [|a acts IH]; intros m; [reflexivity|].
  cbn [app acts_run]. now rewrite !exec_bind, IH.
Qed.

(** C3, as the code has it.  The watchdog is armed by [Em_Hal_watchOn];
    requests arrive and the code masks and unmasks interrupts in any
    order; the codec calls back only from [Em_Message_restart], and there
    only [Em_Hal_reset].  Before the tick that brings the timer 8192
    counts past its value at arming, [Em_Message_restart] is not called,
    whatever edges of [EAP_TX_ACK] come.  From that tick on it is called
    exactly once: at once if interrupts are enabled, and otherwise the
    request waits, with interrupts masked, and is served when the code
    enables them.  If [Em_Hal_watchOff] runs before that tick, no restart
    follows.  [txAckIsr] does not touch the watchdog. *)
Theorem C3_watchdog_fires_once_at_deadline
    (m : Machine C) (order : list Source) (acts before acts1 acts2 : list Act) :
  calm C ->
  In TIMER1_A1 order ->
  let m1 := exec Em_Hal_watchOn m in
  let m' := exec (acts_run order acts) m1 in
  let restarts := occurrences EvRestart (trace (acts_run order acts) m1) in
  (ticks_of acts < UART_WATCHDOG_PERIOD -> restarts = 0%nat)
  /\ (UART_WATCHDOG_PERIOD <= ticks_of acts ->
      restarts = if eval (pending TIMER1_A1) m' then 0%nat else 1%nat)
  /\ (eval (pending TIMER1_A1) m' = true -> masked (hal m'))
  /\ (UART_WATCHDOG_PERIOD <= ticks_of before ->
      occurrences EvRestart (trace (acts_run order (before ++ [Unmask])) m1) = 1%nat)
  /\ (ticks_of acts1 < UART_WATCHDOG_PERIOD ->
      occurrences EvRestart
        (trace (acts_run order acts1 ;; Em_Hal_watchOff ;; acts_run order acts2) m1)
      = 0%nat)
  /\ quiet txAckIsr m.
Proof.
  intros Hc Hin m1 m' restarts.
  set (t0 := regs (hal m) TA1R).
  assert (A : in_phase t0 (Armed 0) (hal m1)).
  { cbn [in_phase]. split; [reflexivity|]. split; [reflexivity|].
    split; [now rewrite Z.add_0_r|]. change UART_WATCHDOG_PERIOD with 8192. lia. }
  assert (Hd : Armed 0 = Due -> masked (hal m1)) by discriminate.
  assert (Run : forall l : list Act,
             exists h c L p',
               exec (acts_run order l) m1 = mkMachine h c (log m1 ++ L)
               /\ trace (acts_run order l) m1 = L
               /\ in_phase t0 p' h /\ (p' = Due -> masked h)
               /\ moves (Armed 0) p' (ticks_of l) (occurrences EvRestart L)).
  { intros l. destruct (run_phase order t0 Hc l (Armed 0) m1 Hin A Hd)
      as (h & c & L & p' & E & P' & D' & M').
    exists h, c, L, p'. split; [exact E|]. split; [|tauto].
    apply trace_eq. rewrite E. reflexivity. }
  split; [|split; [|split; [|split; [|split]]]].
  - intros Hlt. subst restarts.
    destruct (Run acts) as (h & c & L & p' & E & Et & P' & D' & M'). rewrite Et.
    destruct p'; cbn [moves] in M'; lia.
  - intros Hge. subst restarts m'.
    destruct (Run acts) as (h & c & L & p' & E & Et & P' & D' & M'). rewrite Et, E.
    rewrite pending_watchdog. cbn [hal].
    destruct p' as [k| |]; cbn [moves in_phase] in M', P'.
    + destruct P' as (_ & _ & _ & Hk). lia.
    + destruct P' as (-> & ->). cbn [andb]. tauto.
    + rewrite P', andb_false_r. tauto.
  - subst m'. destruct (Run acts) as (h & c & L & p' & E & Et & P' & D' & M').
    rewrite E, pending_watchdog. cbn [hal]. intros B.
    apply andb_true_iff in B as [B0 B4].
    destruct p' as [k| |]; cbn [in_phase] in P'.
    + destruct P' as (A1 & _). rewrite A1 in B0. discriminate B0.
    + now apply D'.
    + rewrite P' in B4. discriminate B4.
  - intros Hge.
    destruct (Run before) as (h & c & L & p1 & E & Et & P1 & D1 & M1).
    destruct (act_phase order t0 Hc Unmask p1 (mkMachine h c (log m1 ++ L)) Hin P1 D1)
      as (h2 & c2 & L2 & p2 & E2 & P2 & D2 & M2 & G2).
    cbn [log] in E2. specialize (G2 eq_refl).
    assert (Ea : trace (acts_run order (before ++ [Unmask])) m1 = L ++ L2).
    { apply trace_eq. rewrite exec_acts_run_app, E. cbn [acts_run].
      rewrite exec_bind, E2. cbn [log]. now rewrite <- app_assoc. }
    rewrite Ea, occurrences_app.
    assert (Hn : p2 <> Due).
    { intros ->. specialize (D2 eq_refl). unfold masked in D2. rewrite D2 in G2.
      discriminate G2. }
    change (ticks_of [Unmask]) with 0 in M2.
    destruct p1 as [k1| |], p2 as [k2| |]; cbn [moves in_phase] in M1, M2, P1;
      try contradiction; lia.
  - intros Hlt.
    destruct (Run acts1) as (h & c & L & p1 & E & Et & P1 & D1 & M1).
    set (mo := exec Em_Hal_watchOff (mkMachine h c (log m1 ++ L))).
    assert (Po : in_phase t0 Off (hal mo)) by reflexivity.
    destruct (run_phase order t0 Hc acts2 Off mo Hin Po ltac:(discriminate))
      as (h2 & c2 & L2 & p2 & E2 & P2 & D2 & M2).
    change (log mo) with (log m1 ++ L) in E2.
    rewrite (trace_eq _ _ (L ++ L2)).
    + rewrite occurrences_app.
      destruct p1, p2; cbn [moves] in M1, M2; try contradiction; lia.
    + rewrite 2!exec_bind, E. fold mo. rewrite E2. cbn [log]. now rewrite <- app_assoc.
  - unfold quiet, txAckIsr. rewrite exec_bind.
    change (exec EAP_TX_ACK_TST m) with m.
    destruct (eval EAP_TX_ACK_TST m).
    + unfold when. rewrite 3!exec_bind, exec_extern_silent, eval_extern
        by apply (Hc (codec m) 0).
      destruct (fst (fst (Em_Message_getByte (codec m))));
        run; rewrite <- ?app_assoc; cbn [app];
        eexists _, _, _; (split; [reflexivity|]); (split; [reflexivity|]);
        unfold same_watch; run; repeat split.
    + run. eexists _, _, _. split; [reflexivity|]. split; [reflexivity|].
      unfold same_watch; run; repeat split.
Qed.

End WatchdogClaim.

(** ** A stale edge of the button *)

Section StaleEdge.
Context {C : Type} `{Codec C}.

Lemma pending_button (m : Machine C) :
  eval (pending PORT2) m
  = Z.testbit (regs (hal m) P2IFG) 6 && Z.testbit (regs (hal m) P2IE) 6.
Proof.
  cbn [pending]. unfold enabled. run. change BIT6 with (2 ^ 6).
  now rewrite !flag_test by lia.
Qed.

Lemma serve_idle (s : Source) (m : Machine C) :
  eval (pending s) m = false -> exec (serve s) m = m.
Proof. intros E. apply not_served. now rewrite E. Qed.

Lemma button_config_step (handler : option Handler) (m : Machine C) :
  let a := exec BUTTON_CONFIG
             (exec (modify (set_appButtonHandler handler))
                (exec (modify (fun h => set_handlerTab
                         (<[Z.to_nat BUTTON_HANDLER_ID := Some fn_buttonHandler]>
                            (handlerTab h)) h)) m)) in
  regs (hal a) P2IFG = regs (hal m) P2IFG /\ regs (hal a) P2IE = regs (hal m) P2IE
  /\ handlerEvents (hal a) = handlerEvents (hal m) /\ log a = log m.
Proof. repeat split. Qed.

Lemma button_delay_step (n : Z) (m : Machine C) :
  hal (exec (Hal_delay n) m) = hal m
  /\ log (exec (Hal_delay n) m)
     = log m ++ repeat (hal m, EvDelayCycles MCLK_TICKS_PER_MS) (Z.to_nat (wrap16 n)).
Proof. rewrite exec_Hal_delay. split; reflexivity. Qed.

Lemma button_clear_step (m : Machine C) :
  Z.testbit (regs (hal (exec (bic P2IFG BIT6) m)) P2IFG) 6 = false
  /\ regs (hal (exec (bic P2IFG BIT6) m)) P2IE = regs (hal m) P2IE
  /\ handlerEvents (hal (exec (bic P2IFG BIT6) m)) = handlerEvents (hal m)
  /\ log (exec (bic P2IFG BIT6) m) = log m.
Proof.
  split; [run; apply byte_bic_clear; [lia|reflexivity]|]. repeat split.
Qed.

Lemma button_enable_step (m : Machine C) :
  regs (hal (exec (bis P2IE BIT6) m)) P2IFG = regs (hal m) P2IFG
  /\ Z.testbit (regs (hal (exec (bis P2IE BIT6) m)) P2IE) 6 = true
  /\ handlerEvents (hal (exec (bis P2IE BIT6) m)) = handlerEvents (hal m)
  /\ log (exec (bis P2IE BIT6) m) = log m.
Proof.
  split; [reflexivity|]. split; [run; apply byte_bis_set; [lia|reflexivity]|].
  split; reflexivity.
Qed.

(** X12: a stale edge of the button is never reported.  An edge that
    comes while the button's interrupt is disabled, as it is before
    [Hal_buttonEnable], sets the flag in [P2IFG] and nothing else: no
    request is pending.  [Hal_buttonEnable] clears the flag before it sets
    the enable bit, so that at no point of the function, nor after it, is a
    request of the button pending, also with [GIE] set: [buttonIsr] does
    not run and no event is posted; the function logs its 100 delays of
    one millisecond and nothing else. *)
Theorem stale_button_edge_is_dropped (m : Machine C) (handler : option Handler) :
  Z.testbit (regs (hal m) P2IE) 6 = false ->
  let edge := latch InButton ;; serve PORT2 in
  let enable := Hal_buttonEnable_with (fun _ => serve PORT2) handler ;; serve PORT2 in
  let m1 := exec edge m in
  let m2 := exec enable m1 in
  trace edge m = []
  /\ Z.testbit (regs (hal m1) P2IFG) 6 = true
  /\ handlerEvents (hal m1) = handlerEvents (hal m)
  /\ events_of (trace enable m1) = repeat (EvDelayCycles MCLK_TICKS_PER_MS) 100
  /\ handlerEvents (hal m2) = handlerEvents (hal m)
  /\ Z.testbit (regs (hal m2) P2IFG) 6 = false
  /\ Z.testbit (regs (hal m2) P2IE) 6 = true
  /\ eval (pending PORT2) m2 = false.
Proof.
  intros He edge enable m1 m2.
  assert (E1 : m1 = exec (latch InButton) m).
  { subst m1 edge. rewrite exec_bind. apply serve_idle.
    rewrite pending_button. run. now rewrite He, andb_false_r. }
  assert (F1 : Z.testbit (regs (hal m1) P2IFG) 6 = true).
  { rewrite E1. run. apply byte_bis_set; [lia|reflexivity]. }
  assert (I1 : Z.testbit (regs (hal m1) P2IE) 6 = false) by (rewrite E1; exact He).
  assert (V1 : handlerEvents (hal m1) = handlerEvents (hal m)) by (rewrite E1; reflexivity).
  split; [apply trace_eq; fold m1; rewrite E1; cbn; now rewrite app_nil_r|].
  split; [exact F1|]. split; [exact V1|].
  clearbody m1. clear E1 edge F1.
  (* the statements of [Hal_buttonEnable], with a service attempt after each *)
  subst m2 enable. unfold Hal_buttonEnable_with, BUTTON_ENABLE_with.
  assert (Et : forall c : M C unit,
             trace c m1 = drop (length (log m1)) (log (exec c m1))) by reflexivity.
  rewrite Et. clear Et. rewrite !exec_bind.
  destruct (button_config_step handler m1) as (Fa & Ia & Va & La).
  revert Fa Ia Va La. cbv zeta.
  generalize (exec BUTTON_CONFIG
                (exec (modify (set_appButtonHandler handler))
                   (exec (modify (fun h => set_handlerTab
                            (<[Z.to_nat BUTTON_HANDLER_ID := Some fn_buttonHandler]>
                               (handlerTab h)) h)) m1))).
  intros a Fa Ia Va La.
  rewrite (serve_idle PORT2 a) by (rewrite pending_button, Ia, I1; apply andb_false_r).
  destruct (button_delay_step 100 a) as (Hb & Lb).
  change (Z.to_nat (wrap16 100)) with 100%nat in Lb.
  revert Hb Lb. generalize (exec (Hal_delay 100) a). intros b Hb Lb.
  rewrite (serve_idle PORT2 b)
    by (rewrite pending_button, Hb, Ia, I1; apply andb_false_r).
  destruct (button_clear_step b) as (Fc & Ic & Vc & Lc).
  revert Fc Ic Vc Lc. generalize (exec (bic P2IFG BIT6) b). intros c Fc Ic Vc Lc.
  rewrite (serve_idle PORT2 c) by (rewrite pending_button, Fc; reflexivity).
  destruct (button_enable_step c) as (Fd & Id & Vd & Ld).
  revert Fd Id Vd Ld. generalize (exec (bis P2IE BIT6) c). intros d Fd Id Vd Ld.
  assert (Pd : eval (pending PORT2) d = false).
  { rewrite pending_button, Fd, Fc. reflexivity. }
  rewrite (serve_idle PORT2 d Pd).
  split.
  { rewrite Ld, Lc, Lb, La, drop_app_length. unfold events_of. now rewrite map_repeat. }
  split; [now rewrite Vd, Vc, Hb, Va|].
  split; [now rewrite Fd|]. split; [exact Id|exact Pd].
Qed.

End StaleEdge.

(** ** The revised properties at concrete inputs *)

Lemma stalling_codec_calm : calm nat.
Proof.
  intros c b. repeat (split; [reflexivity|]). repeat constructor.
Qed.


Lemma C3_watchdog_fires_once_at_deadline_witness :
  let m1 := exec Em_Hal_watchOn stalled in
  let acts := repeat (Arrive InTick) (Z.to_nat 8191) ++ [Arrive InTxAck] in
  let before := Mask :: acts ++ [Arrive InTick; Arrive InTxAck] in
  occurrences EvRestart (trace (acts_run by_priority acts) m1) = 0%nat
  /\ occurrences EvRestart (trace (acts_run by_priority (before ++ [Unmask])) m1) = 1%nat.
Proof.
  set (acts := repeat (Arrive InTick) (Z.to_nat 8191) ++ [Arrive InTxAck]).
  set (before := Mask :: acts ++ [Arrive InTick; Arrive InTxAck]).
  assert (Ha : ticks_of acts = 8191) by (vm_compute; reflexivity).
  assert (Hb : ticks_of before = 8192) by (vm_compute; reflexivity).
  destruct (C3_watchdog_fires_once_at_deadline stalled by_priority acts before [] []
              stalling_codec_calm) as (H0 & _ & _ & H1 & _).
  - right. right. left. reflexivity.
  - cbv zeta. split.
    + apply H0. rewrite Ha. reflexivity.
    + apply H1. rewrite Hb. change UART_WATCHDOG_PERIOD with 8192. lia.
Defined.

Lemma stale_button_edge_is_dropped_witness :
  let edge := latch InButton ;; serve PORT2 in
  let enable := Hal_buttonEnable_with (fun _ => serve PORT2) None ;; serve PORT2 in
  Z.land (regs (hal boot) SR) GIE = GIE
  /\ trace edge boot = []
  /\ events_of (trace enable (exec edge boot)) = repeat (EvDelayCycles MCLK_TICKS_PER_MS) 100
  /\ eval (pending PORT2) (exec enable (exec edge boot)) = false.
Proof.
  destruct (stale_button_edge_is_dropped boot None) as (H1 & _ & _ & H2 & _ & _ & _ & H3).
  - reflexivity.
  - cbv zeta. split; [reflexivity|]. split; [exact H1|]. split; [exact H2|exact H3].
Defined.
